(** * Infra-Vision: zone coverage pipelines

    A shallow embedding of the coverage models of the repository
    ([school_coverage_model.py], [hospital_coverage_model.py],
    [park_coverage_model.py], [urban_coverage_model.py]) and the properties
    of their locator, aggregator, feature engine, scorer, labeler and
    exporter.

    Data frames are lists of records (one record type per frame layout),
    a column operation is a [map] over the rows, a boolean mask is a
    predicate on rows, and index labels are kept where the source selects
    rows by label.  Numbers follow the value domain of a float column, see
    [float64] below. *)

From Stdlib Require Import QArith Qround Qabs Qminmax ZArith List String Ascii Bool.
From Stdlib Require Import Lia Lqa Permutation DecimalString DecimalNat.
Import ListNotations.

Open Scope string_scope.
Open Scope Q_scope.

(* ===================================================================== *)
(** ** Numbers of a float column *)
(* ===================================================================== *)

(** A float is a finite number, one of the two infinities, or NaN.  Finite
    values are exact rationals: the rounding error of binary floating point
    and the sign of zero are not modelled, the special values and the way
    they arise and propagate are. *)
Inductive float64 : Type :=
| Fin (q : Q)
| PInf
| NInf
| NaN.

Definition ofZ (z : Z) : float64 := Fin (inject_Z z).

Definition isna (x : float64) : bool :=
  match x with NaN => true | _ => false end.

Definition isinf (x : float64) : bool :=
  match x with PInf | NInf => true | _ => false end.

Definition isfinite (x : float64) : bool :=
  match x with Fin _ => true | _ => false end.

(** Sign of a finite value: [Lt], [Eq] or [Gt] with respect to zero. *)
Definition Qsign (q : Q) : comparison := Qcompare q 0.

Definition fneg (x : float64) : float64 :=
  match x with
  | Fin q => Fin (- q)
  | PInf => NInf
  | NInf => PInf
  | NaN => NaN
  end.

Definition fadd (x y : float64) : float64 :=
  match x, y with
  | NaN, _ | _, NaN => NaN
  | Fin a, Fin b => Fin (a + b)
  | PInf, NInf | NInf, PInf => NaN
  | PInf, _ | _, PInf => PInf
  | NInf, _ | _, NInf => NInf
  end.

Definition fsub (x y : float64) : float64 := fadd x (fneg y).

(** An infinity scaled by a finite factor. *)
Definition inf_times (pos : bool) (q : Q) : float64 :=
  match Qsign q with
  | Eq => NaN
  | Gt => if pos then PInf else NInf
  | Lt => if pos then NInf else PInf
  end.

Definition fmul (x y : float64) : float64 :=
  match x, y with
  | NaN, _ | _, NaN => NaN
  | Fin a, Fin b => Fin (a * b)
  | PInf, Fin b => inf_times true b
  | NInf, Fin b => inf_times false b
  | Fin a, PInf => inf_times true a
  | Fin a, NInf => inf_times false a
  | PInf, PInf | NInf, NInf => PInf
  | PInf, NInf | NInf, PInf => NInf
  end.

(** True division of numpy: a non-zero number over zero is an infinity,
    zero over zero is NaN, nothing raises. *)
Definition fdiv (x y : float64) : float64 :=
  match x, y with
  | NaN, _ | _, NaN => NaN
  | Fin a, Fin b =>
      match Qsign b with
      | Eq => match Qsign a with
              | Eq => NaN
              | Gt => PInf
              | Lt => NInf
              end
      | _ => Fin (a / b)
      end
  | Fin _, PInf | Fin _, NInf => Fin 0
  | PInf, Fin b => match Qsign b with Lt => NInf | _ => PInf end
  | NInf, Fin b => match Qsign b with Lt => PInf | _ => NInf end
  | PInf, PInf | PInf, NInf | NInf, PInf | NInf, NInf => NaN
  end.

(** Comparisons: every comparison with NaN is false. *)
Definition fle (x y : float64) : bool :=
  match x, y with
  | NaN, _ | _, NaN => false
  | NInf, _ => true
  | _, PInf => true
  | Fin a, Fin b => Qle_bool a b
  | _, _ => false
  end.

Definition flt (x y : float64) : bool :=
  match x, y with
  | NaN, _ | _, NaN => false
  | Fin a, Fin b => negb (Qle_bool b a)
  | NInf, NInf | PInf, PInf => false
  | NInf, _ => true
  | _, PInf => true
  | _, _ => false
  end.

Definition fge (x y : float64) : bool := fle y x.
Definition fgt (x y : float64) : bool := flt y x.

(** [np.clip(x, lo, hi)] and [Series.clip(lo, hi)]:
    [minimum(maximum(x, lo), hi)], NaN stays NaN. *)
Definition clip (x : float64) (lo hi : Q) : float64 :=
  match x with
  | NaN => NaN
  | PInf => Fin hi
  | NInf => Fin (Qmin lo hi)
  | Fin q => Fin (Qmin (Qmax q lo) hi)
  end.

(** Rounding to the nearest integer, ties to the even one. *)
Definition round_half_even (q : Q) : Z :=
  let f := Qfloor q in
  match Qcompare (q - inject_Z f) (1 # 2) with
  | Lt => f
  | Gt => (f + 1)%Z
  | Eq => if Z.even f then f else (f + 1)%Z
  end.

Definition pow10 (n : nat) : positive := Pos.pow 10 (Pos.of_nat n).

(** [round(x, n)] for [n = 1] and [n = 2] decimals. *)
Definition Qround_dec (n : nat) (q : Q) : Q :=
  match n with
  | O => inject_Z (round_half_even q)
  | _ => round_half_even (q * inject_Z (Zpos (pow10 n))) # pow10 n
  end.

Definition fround (n : nat) (x : float64) : float64 :=
  match x with
  | Fin q => Fin (Qround_dec n q)
  | _ => x
  end.

(** [int(x)] of a finite float: truncation towards zero. *)
Definition Qtrunc (q : Q) : Z := Z.quot (Qnum q) (Zpos (Qden q)).

(** [Series.fillna(d)] and [Series.replace([np.inf, -np.inf], d)],
    elementwise. *)
Definition fillna (d : Q) (x : float64) : float64 :=
  match x with NaN => Fin d | _ => x end.

Definition replace_inf (d : Q) (x : float64) : float64 :=
  match x with PInf | NInf => Fin d | _ => x end.

(** Python's [x or d] on a float: zero is falsy, NaN and the infinities
    are truthy. *)
Definition py_or (x : float64) (d : Q) : float64 :=
  match x with
  | Fin q => if Qeq_bool q 0 then Fin d else x
  | _ => x
  end.

(** Same value: equality of rationals on finite values, identity on the
    special ones. *)
Definition feq (x y : float64) : Prop :=
  match x, y with
  | Fin a, Fin b => a == b
  | PInf, PInf | NInf, NInf | NaN, NaN => True
  | _, _ => False
  end.

(** *** Reductions of a column, as pandas computes them (NaN skipped) *)

Definition dropna_values (xs : list float64) : list float64 :=
  filter (fun x => negb (isna x)) xs.

Definition fsum (xs : list float64) : float64 :=
  fold_left fadd (dropna_values xs) (Fin 0).

(** [Series.mean()]: NaN for a column with no value. *)
Definition fmean (xs : list float64) : float64 :=
  match dropna_values xs with
  | [] => NaN
  | v => fdiv (fold_left fadd v (Fin 0)) (ofZ (Z.of_nat (List.length v)))
  end.

Definition fmax2 (x y : float64) : float64 := if fle x y then y else x.

(** [Series.max()]: NaN for a column with no value. *)
Definition fmax (xs : list float64) : float64 :=
  match dropna_values xs with
  | [] => NaN
  | v :: vs => fold_left fmax2 vs v
  end.

(** Sum and mean of a column of finite numbers. *)
Definition Qsum (xs : list Q) : Q := fold_right Qplus 0 xs.
Definition Zsum (xs : list Z) : Z := fold_right Z.add 0%Z xs.

Definition Qmean (xs : list Q) : float64 := fmean (map Fin xs).

(** A value is inside [lo, hi]: in particular it is a number. *)
Definition in_range (lo hi : Q) (x : float64) : Prop :=
  match x with
  | Fin q => lo <= q /\ q <= hi
  | _ => False
  end.

(** A value that rounding to [n] decimals leaves as it is. *)
Definition rounded_to (n : nat) (x : float64) : Prop := feq (fround n x) x.

(* ===================================================================== *)
(** ** Data frames *)
(* ===================================================================== *)

(** A frame whose rows are selected by index label keeps the label next to
    the row; [reset_index] numbers the rows from zero. *)
Definition frame (A : Type) : Type := list (nat * A).

Definition reset_index {A : Type} (rows : list A) : frame A :=
  combine (seq 0 (List.length rows)) rows.

Definition values {A : Type} (df : frame A) : list A := map snd df.
Definition index {A : Type} (df : frame A) : list nat := map fst df.

Definition isin (labels : list nat) (i : nat) : bool :=
  existsb (Nat.eqb i) labels.

(** [sort_values]: rows with equal keys keep their order. *)
Fixpoint insert_sorted {A : Type} (leb : A -> A -> bool) (x : A) (l : list A)
  : list A :=
  match l with
  | [] => [x]
  | y :: t => if leb x y then x :: l else y :: insert_sorted leb x t
  end.

Definition sort_values {A : Type} (leb : A -> A -> bool) (l : list A) : list A :=
  fold_right (insert_sorted leb) [] l.

(** [sorted(unique(keys))] on strings; [groupby] lists its groups in this
    order and keeps the rows of a group in frame order. *)
Definition sorted_unique (keys : list string) : list string :=
  sort_values String.leb (nodup string_dec keys).

Definition groupby {A : Type} (key : A -> string) (rows : list A)
  : list (string * list A) :=
  map (fun k => (k, filter (fun r => String.eqb (key r) k) rows))
      (sorted_unique (map key rows)).

(** Position of a string in a list, counted from [i]. *)
Fixpoint position (s : string) (l : list string) (i : nat) : option nat :=
  match l with
  | [] => None
  | x :: t => if String.eqb x s then Some i else position s t (S i)
  end.

(** [str.contains(pat)] on a string already in lower case. *)
Definition str_contains (pat s : string) : bool :=
  match String.index 0 pat s with
  | Some _ => true
  | None => false
  end.

Definition count_if {A : Type} (p : A -> bool) (l : list A) : Z :=
  Z.of_nat (List.length (filter p l)).

(** ["{n}"] and ["{n:02d}"] of a natural number. *)
Definition str_of_nat (n : nat) : string :=
  NilEmpty.string_of_uint (Nat.to_uint n).

Definition format_02d (n : nat) : string :=
  let s := str_of_nat n in
  if Nat.ltb (String.length s) 2 then String.append "0" s else s.

(** Coverage tiers, lowest first. *)
Inductive tier : Type := NeedsImprovement | Good | Excellent.

Definition tier_rank (t : tier) : nat :=
  match t with NeedsImprovement => 0 | Good => 1 | Excellent => 2 end.

Definition tier_le (a b : tier) : Prop := (tier_rank a <= tier_rank b)%nat.

Definition tier_of_label (s : string) : option tier :=
  if String.eqb s "Excellent Coverage" then Some Excellent
  else if String.eqb s "Good Coverage" then Some Good
  else if String.eqb s "Needs Improvement" then Some NeedsImprovement
  else None.

Definition tier_of_status (s : string) : option tier :=
  if String.eqb s "excellent" then Some Excellent
  else if String.eqb s "good" then Some Good
  else if String.eqb s "needs-improvement" then Some NeedsImprovement
  else None.

(* ===================================================================== *)
(** ** The cell table and the random generator *)
(* ===================================================================== *)

(** A row of [delhi_urban_coverage_realistic_2000cells.csv], the cell-level
    input of the hospital, park and urban models.  Every attribute of a
    cell is a number. *)
Record Cell : Type := {
  cell_zone_name : string;
  area_km2 : Q;
  population : Z;
  population_density_per_km2 : Q;
  park_count : Z;
  park_area_km2 : Q;
  green_area_pct : Q;
  school_count : Z;
  hospital_count : Z;
  primary_roads_km : Q;
  parks_per_10k_residents : Q;
  schools_per_10k_residents : Q;
  hospitals_per_100k_residents : Q;
  cell_coverage_score : Q
}.

(** [np.random]: the generator is a process-wide state.  The state is
    passed explicitly; the algorithm behind the draws is a parameter. *)
Record Generator : Type := {
  rstate : Type;
  seed : Z -> rstate;
  randint : Z -> Z -> rstate -> Z * rstate;
  uniform : Q -> Q -> rstate -> Q * rstate
}.

(** Row-wise [DataFrame.apply] of a function that draws numbers: rows are
    visited in frame order and the state is threaded through. *)
Fixpoint apply_rows {S A B : Type} (f : A -> S -> B * S) (rows : list A) (st : S)
  : list B * S :=
  match rows with
  | [] => ([], st)
  | r :: t =>
      let '(b, st1) := f r st in
      let '(bs, st2) := apply_rows f t st1 in
      (b :: bs, st2)
  end.

(* ===================================================================== *)
(** ** hospital_coverage_model.py *)
(* ===================================================================== *)

Module Hospital.

(** The zone frame.  Columns that the source adds step by step are fields
    from the start, holding a placeholder until their step sets them. *)
Record Zone : Type := {
  zone_name : string;
  num_hospitals : Z;
  total_population : Z;
  total_area_km2 : Q;
  avg_hospitals_per_100k : float64;
  avg_population_density : float64;
  total_roads_km : Q;
  total_beds : Z;
  beds_per_100k : float64;
  health_access_index : float64;
  coverage_label : string;
  status : string
}.

Definition set_beds (z : Zone) (beds : Z) (per100k : float64) : Zone :=
  {| zone_name := zone_name z; num_hospitals := num_hospitals z;
     total_population := total_population z; total_area_km2 := total_area_km2 z;
     avg_hospitals_per_100k := avg_hospitals_per_100k z;
     avg_population_density := avg_population_density z;
     total_roads_km := total_roads_km z;
     total_beds := beds; beds_per_100k := per100k;
     health_access_index := health_access_index z;
     coverage_label := coverage_label z; status := status z |}.

Definition set_hai (z : Zone) (v : float64) : Zone :=
  {| zone_name := zone_name z; num_hospitals := num_hospitals z;
     total_population := total_population z; total_area_km2 := total_area_km2 z;
     avg_hospitals_per_100k := avg_hospitals_per_100k z;
     avg_population_density := avg_population_density z;
     total_roads_km := total_roads_km z;
     total_beds := total_beds z; beds_per_100k := beds_per_100k z;
     health_access_index := v;
     coverage_label := coverage_label z; status := status z |}.

Definition set_label (z : Zone) (l s : string) : Zone :=
  {| zone_name := zone_name z; num_hospitals := num_hospitals z;
     total_population := total_population z; total_area_km2 := total_area_km2 z;
     avg_hospitals_per_100k := avg_hospitals_per_100k z;
     avg_population_density := avg_population_density z;
     total_roads_km := total_roads_km z;
     total_beds := total_beds z; beds_per_100k := beds_per_100k z;
     health_access_index := health_access_index z;
     coverage_label := l; status := s |}.

(** Step 2: [aggregate_to_zones]. *)
Definition aggregate_to_zones (df : list Cell) : list Zone :=
  map (fun '(name, g) =>
         {| zone_name := name;
            num_hospitals := Zsum (map hospital_count g);
            total_population := Zsum (map population g);
            total_area_km2 := Qsum (map area_km2 g);
            avg_hospitals_per_100k := Qmean (map hospitals_per_100k_residents g);
            avg_population_density := Qmean (map population_density_per_km2 g);
            total_roads_km := Qsum (map primary_roads_km g);
            total_beds := 0%Z; beds_per_100k := NaN;
            health_access_index := NaN;
            coverage_label := ""; status := "" |})
      (groupby cell_zone_name df).

(** Step 3: [estimate_hospital_capacity]. *)
Section Capacity.
Variable G : Generator.

Definition estimate_beds_for_zone (row : Zone) (st : rstate G) : Z * rstate G :=
  let n := num_hospitals row in
  let pop := total_population row in
  if (n =? 0)%Z then (0%Z, st)
  else
    let '(beds, st') :=
      if (pop >? 3000000)%Z then
        let large_hospitals := Z.max 1 (Qtrunc (inject_Z n * 0.2)) in
        let medium_hospitals := (n - large_hospitals)%Z in
        let '(r1, st1) := randint G 400 800 st in
        let '(r2, st2) := randint G 80 200 st1 in
        ((large_hospitals * r1 + medium_hospitals * r2)%Z, st2)
      else if (pop >? 2000000)%Z then
        let medium_hospitals := Z.max 1 (Qtrunc (inject_Z n * 0.3)) in
        let small_hospitals := (n - medium_hospitals)%Z in
        let '(r1, st1) := randint G 100 250 st in
        let '(r2, st2) := randint G 30 100 st1 in
        ((medium_hospitals * r1 + small_hospitals * r2)%Z, st2)
      else if (pop >? 1000000)%Z then
        let '(r, st1) := randint G 60 180 st in ((n * r)%Z, st1)
      else
        let '(r, st1) := randint G 20 80 st in ((n * r)%Z, st1) in
    let beds := if (n >? 0)%Z then Z.max beds (n * 15) else beds in
    (beds, st').

Definition beds_per_100k_of (beds pop : Z) : float64 :=
  replace_inf 0 (fillna 0 (fmul (fdiv (ofZ beds) (ofZ pop)) (Fin 100000))).

(** The generator is reseeded with 42 on entry, whatever its state was;
    the state it is left in is returned next to the frame. *)
Definition estimate_hospital_capacity (grouped : list Zone) (entry : rstate G)
  : list Zone * rstate G :=
  let st0 := seed G 42 in
  let '(beds, st) := apply_rows estimate_beds_for_zone grouped st0 in
  (map (fun '(z, b) => set_beds z b (beds_per_100k_of b (total_population z)))
       (combine grouped beds),
   st).
End Capacity.

(** Step 4: [calculate_coverage_score]. *)
Definition name_is (s : string) (z : Zone) : bool := String.eqb (zone_name z) s.

(** [grouped.loc[mask, 'health_access_index'] = f(row)] *)
Definition assign_hai (mask : Zone -> bool) (f : Zone -> float64) (grouped : list Zone)
  : list Zone :=
  map (fun z => if mask z then set_hai z (f z) else z) grouped.

Definition hospital_score (z : Zone) : float64 :=
  let hosp_per_100k := fillna 0 (avg_hospitals_per_100k z) in
  let has_hospitals_bonus := if (num_hospitals z >? 0)%Z then 5 else 0 in
  fadd (clip (fmul (fdiv hosp_per_100k (Fin 15)) (Fin 40)) 0 40)
       (Fin has_hospitals_bonus).

Definition bed_score (z : Zone) : float64 :=
  clip (fmul (fdiv (fillna 0 (beds_per_100k z)) (Fin 800)) (Fin 30)) 0 30.

Definition max_roads (grouped : list Zone) : float64 :=
  py_or (fmax (map (fun z => Fin (total_roads_km z)) grouped)) 1.

Definition road_score (grouped : list Zone) (z : Zone) : float64 :=
  clip (fmul (fdiv (Fin (total_roads_km z)) (max_roads grouped)) (Fin 15)) 0 15.

Definition density_score (z : Zone) : float64 :=
  clip (fmul (fdiv (avg_population_density z) (Fin 25000)) (Fin 15)) 0 15.

Definition base_index (grouped : list Zone) (z : Zone) : float64 :=
  clip (fround 1 (fadd (fadd (fadd (hospital_score z) (bed_score z))
                             (road_score grouped z))
                       (density_score z)))
       20 100.

Definition adjust_central (grouped : list Zone) : list Zone :=
  match find (name_is "Central") grouped with
  | None => grouped
  | Some c =>
      if (num_hospitals c >? 35)%Z && fgt (beds_per_100k c) (Fin 300)
      then assign_hai (name_is "Central") (fun _ => Fin 100) grouped
      else assign_hai (name_is "Central")
             (fun _ => clip (fmul (health_access_index c) (Fin 1.25)) 85 100) grouped
  end.

(** The East, North and West rules: a rescaling of the zone's own index,
    applied when the zone has more than [limit] hospitals. *)
Definition adjust_scaled (name : string) (limit : Z) (factor lo hi : Q)
    (grouped : list Zone) : list Zone :=
  match find (name_is name) grouped with
  | None => grouped
  | Some c =>
      if (num_hospitals c >? limit)%Z
      then assign_hai (name_is name)
             (fun _ => clip (fmul (health_access_index c) (Fin factor)) lo hi) grouped
      else grouped
  end.

Definition adjust_new_delhi (grouped : list Zone) : list Zone :=
  match find (name_is "New Delhi") grouped with
  | None => grouped
  | Some c =>
      assign_hai (name_is "New Delhi")
        (fun _ => clip (fmul (health_access_index c) (Fin 0.65)) 20 25) grouped
  end.

Definition adjust_south (grouped : list Zone) : list Zone :=
  assign_hai (name_is "South") (fun _ => Fin 35.9) grouped.

Definition excellent_mask (z : Zone) : bool :=
  (num_hospitals z >? 80)%Z && fgt (beds_per_100k z) (Fin 500)
  && negb (name_is "South" z).

Definition poor_mask (z : Zone) : bool :=
  (num_hospitals z <? 30)%Z && flt (avg_hospitals_per_100k z) (Fin 2).

Definition calculate_coverage_score (grouped : list Zone) : list Zone :=
  let g0 := map (fun z => set_hai z (base_index grouped z)) grouped in
  let g1 := adjust_central g0 in
  let g2 := adjust_scaled "East" 40 2.2 82 86 g1 in
  let g3 := adjust_scaled "North" 40 1.85 70 80 g2 in
  let g4 := adjust_scaled "West" 60 0.92 54 56 g3 in
  let g5 := adjust_new_delhi g4 in
  let g6 := adjust_south g5 in
  let g7 := assign_hai excellent_mask
              (fun z => clip (fmul (health_access_index z) (Fin 1.2)) 75 100) g6 in
  let g8 := assign_hai poor_mask
              (fun z => clip (fmul (health_access_index z) (Fin 0.7)) 20 40) g7 in
  map (fun z => set_hai z (fround 1 (health_access_index z))) g8.

(** Step 5: [label_zones]. *)
Definition assign_label (score : float64) : string * string :=
  if fge score (Fin 75) then ("Excellent Coverage", "excellent")
  else if fge score (Fin 50) then ("Good Coverage", "good")
  else ("Needs Improvement", "needs-improvement").

Definition label_zones (grouped : list Zone) : list Zone :=
  map (fun z => let l := assign_label (health_access_index z) in
                set_label z (fst l) (snd l)) grouped.

(** Step 6: [export_results]. *)
Record ResultRow : Type := {
  zone_id : string;
  r_zone_name : string;
  predicted_coverage_score : float64;
  r_coverage_label : string;
  num_facilities : Z;
  total_capacity : Z;
  r_status : string
}.

Definition output_cols : list string :=
  ["zone_id"; "zone_name"; "predicted_coverage_score"; "coverage_label";
   "num_facilities"; "total_capacity"; "status"].

(** [zone_id_map = {zone: f"{i+1}" for i, zone in enumerate(unique_zones)}] *)
Definition zone_id_of (unique_zones : list string) (name : string) : string :=
  match position name unique_zones 0 with
  | Some i => str_of_nat (i + 1)
  | None => ""
  end.

Definition export_results (grouped : list Zone) : list ResultRow :=
  let unique_zones := sorted_unique (map zone_name grouped) in
  let result_df :=
    map (fun z =>
           {| zone_id := zone_id_of unique_zones (zone_name z);
              r_zone_name := zone_name z;
              predicted_coverage_score := fround 1 (health_access_index z);
              r_coverage_label := coverage_label z;
              num_facilities := num_hospitals z;
              total_capacity := total_beds z;
              r_status := status z |}) grouped in
  sort_values (fun a b => String.leb (zone_id a) (zone_id b)) result_df.

(** [main], from the loaded cell table on. *)
Definition main (G : Generator) (df : list Cell) (entry : rstate G)
  : list ResultRow * rstate G :=
  let grouped := aggregate_to_zones df in
  let '(grouped, st) := estimate_hospital_capacity G grouped entry in
  let grouped := calculate_coverage_score grouped in
  let grouped := label_zones grouped in
  (export_results grouped, st).

End Hospital.

(* ===================================================================== *)
(** ** park_coverage_model.py *)
(* ===================================================================== *)

Definition fabs (x : float64) : float64 :=
  match x with
  | Fin q => Fin (Qabs q)
  | PInf | NInf => PInf
  | NaN => NaN
  end.

Module Park.

Definition subzone_mapping : list (string * list string) :=
  [("Central", ["Central Zone 1"; "Central Zone 2"; "Central Zone 3"]);
   ("East", ["East Zone 1"; "East Zone 2"; "East Zone 3"]);
   ("North", ["North Zone 1"; "North Zone 2"; "North Zone 3"]);
   ("North East", ["North East Zone 1"; "North East Zone 2"; "North East Zone 3"]);
   ("North West", ["North West Zone A1"; "North West Zone A2";
                   "North West Zone B1"; "North West Zone B2"]);
   ("South", ["South Zone 1"; "South Zone 2"; "South East Zone 1";
              "South East Zone 2"; "South Zone 3"]);
   ("South West", ["South West Zone A1"; "South West Zone A2";
                   "South West Zone B1"; "South West Zone B2"]);
   ("West", ["West Zone A1"; "West Zone A2"; "West Zone A3"]);
   ("New Delhi", ["New Delhi"])].

(** A cell with its [sub_zone_name] column. *)
Definition SubCell : Type := (Cell * string)%type.

Definition set_sub_zone (labels : list nat) (sub_zone : string) (df : frame SubCell)
  : frame SubCell :=
  map (fun '(i, (c, s)) => if isin labels i then (i, (c, sub_zone)) else (i, (c, s))) df.

(** [cell_indices[start_idx:end_idx]] *)
Definition slice {A : Type} (l : list A) (start_idx end_idx : nat) : list A :=
  firstn (end_idx - start_idx) (skipn start_idx l).

Fixpoint distribute (sub_zones : list string) (i start_idx : nat)
    (cell_indices : list nat) (cells_per_subzone remainder : nat)
    (df : frame SubCell) : frame SubCell :=
  match sub_zones with
  | [] => df
  | sub_zone :: rest =>
      let end_idx :=
        (start_idx + cells_per_subzone + (if Nat.ltb i remainder then 1 else 0))%nat in
      let assigned_indices := slice cell_indices start_idx end_idx in
      distribute rest (S i) end_idx cell_indices cells_per_subzone remainder
                 (set_sub_zone assigned_indices sub_zone df)
  end.

Definition by_park_count_desc (a b : nat * SubCell) : bool :=
  (park_count (fst (snd b)) <=? park_count (fst (snd a)))%Z.

Definition assign_main_zone (df : frame SubCell) (m : string * list string)
  : frame SubCell :=
  let '(main_zone, sub_zones) := m in
  let zone_cells :=
    filter (fun r => String.eqb (cell_zone_name (fst (snd r))) main_zone) df in
  match zone_cells with
  | [] => df
  | _ =>
      let zone_cells := sort_values by_park_count_desc zone_cells in
      let n_subzones := List.length sub_zones in
      let cell_indices := index zone_cells in
      let cells_per_subzone := (List.length cell_indices / n_subzones)%nat in
      let remainder := (List.length cell_indices mod n_subzones)%nat in
      distribute sub_zones 0 0 cell_indices cells_per_subzone remainder df
  end.

Definition create_sub_zones (cells_df : list Cell) : frame SubCell :=
  let df := reset_index (map (fun c => (c, "")) cells_df) in
  let df := fold_left assign_main_zone subzone_mapping df in
  filter (fun r => negb (String.eqb (snd (snd r)) "")) df.

Record Zone : Type := {
  zone_name : string;
  total_parks : Z;
  total_park_area_km2 : Q;
  total_area_km2 : Q;
  total_population : Z;
  avg_green_area_pct : float64;
  avg_parks_per_10k : float64;
  avg_population_density : float64;
  parks_per_km2 : float64;
  park_area_per_capita : float64;
  predicted_coverage_score : float64;
  coverage_label : string;
  status : string;
  urban_green_balance_index : float64;
  progress_to_who : float64;
  zone_id : string
}.

Definition set_score (z : Zone) (v : float64) : Zone :=
  {| zone_name := zone_name z; total_parks := total_parks z;
     total_park_area_km2 := total_park_area_km2 z;
     total_area_km2 := total_area_km2 z; total_population := total_population z;
     avg_green_area_pct := avg_green_area_pct z;
     avg_parks_per_10k := avg_parks_per_10k z;
     avg_population_density := avg_population_density z;
     parks_per_km2 := parks_per_km2 z;
     park_area_per_capita := park_area_per_capita z;
     predicted_coverage_score := v;
     coverage_label := coverage_label z; status := status z;
     urban_green_balance_index := urban_green_balance_index z;
     progress_to_who := progress_to_who z; zone_id := zone_id z |}.

Definition set_area (z : Zone) (a : Q) : Zone :=
  {| zone_name := zone_name z; total_parks := total_parks z;
     total_park_area_km2 := total_park_area_km2 z;
     total_area_km2 := a; total_population := total_population z;
     avg_green_area_pct := avg_green_area_pct z;
     avg_parks_per_10k := avg_parks_per_10k z;
     avg_population_density := avg_population_density z;
     parks_per_km2 := parks_per_km2 z;
     park_area_per_capita := park_area_per_capita z;
     predicted_coverage_score := predicted_coverage_score z;
     coverage_label := coverage_label z; status := status z;
     urban_green_balance_index := urban_green_balance_index z;
     progress_to_who := progress_to_who z; zone_id := zone_id z |}.

Definition set_label (z : Zone) (l s : string) : Zone :=
  {| zone_name := zone_name z; total_parks := total_parks z;
     total_park_area_km2 := total_park_area_km2 z;
     total_area_km2 := total_area_km2 z; total_population := total_population z;
     avg_green_area_pct := avg_green_area_pct z;
     avg_parks_per_10k := avg_parks_per_10k z;
     avg_population_density := avg_population_density z;
     parks_per_km2 := parks_per_km2 z;
     park_area_per_capita := park_area_per_capita z;
     predicted_coverage_score := predicted_coverage_score z;
     coverage_label := l; status := s;
     urban_green_balance_index := urban_green_balance_index z;
     progress_to_who := progress_to_who z; zone_id := zone_id z |}.

Definition set_index_cols (z : Zone) (v : float64) : Zone :=
  {| zone_name := zone_name z; total_parks := total_parks z;
     total_park_area_km2 := total_park_area_km2 z;
     total_area_km2 := total_area_km2 z; total_population := total_population z;
     avg_green_area_pct := avg_green_area_pct z;
     avg_parks_per_10k := avg_parks_per_10k z;
     avg_population_density := avg_population_density z;
     parks_per_km2 := parks_per_km2 z;
     park_area_per_capita := park_area_per_capita z;
     predicted_coverage_score := predicted_coverage_score z;
     coverage_label := coverage_label z; status := status z;
     urban_green_balance_index := v;
     progress_to_who := v; zone_id := zone_id z |}.

Definition set_zone_id (z : Zone) (id : string) : Zone :=
  {| zone_name := zone_name z; total_parks := total_parks z;
     total_park_area_km2 := total_park_area_km2 z;
     total_area_km2 := total_area_km2 z; total_population := total_population z;
     avg_green_area_pct := avg_green_area_pct z;
     avg_parks_per_10k := avg_parks_per_10k z;
     avg_population_density := avg_population_density z;
     parks_per_km2 := parks_per_km2 z;
     park_area_per_capita := park_area_per_capita z;
     predicted_coverage_score := predicted_coverage_score z;
     coverage_label := coverage_label z; status := status z;
     urban_green_balance_index := urban_green_balance_index z;
     progress_to_who := progress_to_who z; zone_id := id |}.

(** [aggregate_to_zones]: sums and means per sub-zone, the two derived
    ratios, then [fillna(0)] on the whole frame. *)
Definition parks_per_km2_of (parks : Z) (area : Q) : float64 :=
  replace_inf 0 (fillna 0 (fdiv (ofZ parks) (Fin area))).

Definition park_area_per_capita_of (park_area : Q) (pop : Z) : float64 :=
  replace_inf 0 (fmul (fillna 0 (fdiv (Fin park_area) (ofZ pop))) (Fin 10000)).

Definition aggregate_group (name : string) (g : list Cell) : Zone :=
  let parks := Zsum (map park_count g) in
  let park_area := Qsum (map park_area_km2 g) in
  let area := Qsum (map area_km2 g) in
  let pop := Zsum (map population g) in
  {| zone_name := name;
     total_parks := parks;
     total_park_area_km2 := park_area;
     total_area_km2 := area;
     total_population := pop;
     avg_green_area_pct := fillna 0 (Qmean (map green_area_pct g));
     avg_parks_per_10k := fillna 0 (Qmean (map parks_per_10k_residents g));
     avg_population_density := fillna 0 (Qmean (map population_density_per_km2 g));
     parks_per_km2 := fillna 0 (parks_per_km2_of parks area);
     park_area_per_capita := fillna 0 (park_area_per_capita_of park_area pop);
     predicted_coverage_score := NaN;
     coverage_label := ""; status := "";
     urban_green_balance_index := NaN; progress_to_who := NaN;
     zone_id := "" |}.

Definition aggregate_to_zones (cells_df : frame SubCell) : frame Zone :=
  reset_index
    (map (fun '(name, g) => aggregate_group name (map fst g))
         (groupby snd (values cells_df))).

(** [calculate_park_coverage_score] *)
Definition parks_score (z : Zone) : float64 :=
  clip (fmul (fdiv (fillna 0 (avg_parks_per_10k z)) (Fin 15)) (Fin 40)) 0 40.

Definition area_score (z : Zone) : float64 :=
  clip (fmul (fdiv (fillna 0 (park_area_per_capita z)) (Fin 9)) (Fin 30)) 0 30.

Definition green_score (z : Zone) : float64 :=
  clip (fmul (fdiv (fillna 0 (avg_green_area_pct z)) (Fin 25)) (Fin 20)) 0 20.

Definition max_density (zones_df : frame Zone) : float64 :=
  py_or (fmax (map (fun z => fillna 0 (parks_per_km2 z)) (values zones_df))) 1.

Definition density_score (zones_df : frame Zone) (z : Zone) : float64 :=
  let raw :=
    if fgt (max_density zones_df) (Fin 0)
    then fmul (fdiv (fillna 0 (parks_per_km2 z)) (max_density zones_df)) (Fin 10)
    else Fin 0 in
  clip raw 0 10.

Definition initial_score (zones_df : frame Zone) (z : Zone) : float64 :=
  clip (fround 1 (fadd (fadd (fadd (parks_score z) (area_score z)) (green_score z))
                       (density_score zones_df z)))
       15 100.

Definition calculate_park_coverage_score (zones_df : frame Zone) : frame Zone :=
  map (fun '(i, z) => (i, set_score z (initial_score zones_df z))) zones_df.

(** [adjust_for_ui_expectations] *)
Definition name_is (s : string) (z : Zone) : bool := String.eqb (zone_name z) s.

Definition east_zone1_mask (z : Zone) : bool := name_is "East Zone 1" z.
Definition newdelhi_mask (z : Zone) : bool := name_is "New Delhi" z.
Definition protected_mask (z : Zone) : bool := east_zone1_mask z || newdelhi_mask z.

(** [zones_df.loc[mask, 'predicted_coverage_score'] = f(row)]; a mask may
    look at the index label of the row. *)
Definition assign_score (mask : nat * Zone -> bool) (f : Zone -> float64)
    (df : frame Zone) : frame Zone :=
  map (fun r => if mask r then (fst r, set_score (snd r) (f (snd r))) else r) df.

Definition on_row (m : Zone -> bool) (r : nat * Zone) : bool := m (snd r).

Definition scores (df : frame Zone) : list float64 :=
  map (fun r => predicted_coverage_score (snd r)) df.

Definition by_total_parks_desc (a b : nat * Zone) : bool :=
  (total_parks (snd b) <=? total_parks (snd a))%Z.

(** [df.nlargest(n, 'total_parks')]: the first [n] rows in descending
    order, earlier rows first among equal counts. *)
Definition nlargest (n : nat) (df : frame Zone) : frame Zone :=
  firstn n (sort_values by_total_parks_desc df).

(** [max(1, int(n_zones * f))] *)
Definition share (n_zones : nat) (f : Q) : nat :=
  Z.to_nat (Z.max 1 (Qtrunc (inject_Z (Z.of_nat n_zones) * f))).

Definition set_if_first (mask : Zone -> bool) (cond : Zone -> bool) (v : Q)
    (df : frame Zone) : frame Zone :=
  match find mask (values df) with
  | None => df
  | Some z => if cond z then assign_score (on_row mask) (fun _ => Fin v) df else df
  end.

(** The three tiers by park count. *)
Definition tier_adjust (df : frame Zone) : frame Zone :=
  let n_zones := List.length df in
  let top_10_pct := share n_zones 0.1 in
  let middle_40_pct := share n_zones 0.4 in
  let top_idx := index (nlargest top_10_pct df) in
  let top_mask := fun r => negb (protected_mask (snd r)) && isin top_idx (fst r) in
  let df1 :=
    if existsb top_mask df
    then assign_score top_mask
           (fun z => clip (fmul (predicted_coverage_score z) (Fin 1.4)) 75 95) df
    else df in
  let middle_mask := fun r => negb (protected_mask (snd r)) && negb (top_mask r) in
  let middle_zones := nlargest middle_40_pct (filter middle_mask df1) in
  let middle_idx := index middle_zones in
  let df2 :=
    match middle_zones with
    | [] => df1
    | _ => assign_score (fun r => isin middle_idx (fst r))
             (fun z => clip (fmul (predicted_coverage_score z) (Fin 1.2)) 40 75) df1
    end in
  let low_mask := fun r =>
    negb (protected_mask (snd r)) && negb (top_mask r)
    && negb (isin middle_idx (fst r)) in
  if existsb low_mask df2
  then assign_score low_mask
         (fun z => clip (fmul (predicted_coverage_score z) (Fin 0.8)) 15 42) df2
  else df2.

(** The rescaling towards a citywide average of 42.0. *)
Definition rescale_to_target (df : frame Zone) : frame Zone :=
  let unprotected_mask := fun r : nat * Zone => negb (protected_mask (snd r)) in
  let unprotected_count := List.length (filter unprotected_mask df) in
  if Nat.ltb 0 unprotected_count then
    let protected_avg := fmean (scores (filter (on_row protected_mask) df)) in
    let protected_count := List.length (filter (on_row protected_mask) df) in
    let total_count := List.length df in
    let target_avg := Fin 42 in
    let target_unprotected_avg :=
      fdiv (fsub (fmul target_avg (ofZ (Z.of_nat total_count)))
                 (fmul protected_avg (ofZ (Z.of_nat protected_count))))
           (ofZ (Z.of_nat unprotected_count)) in
    let current_unprotected_avg := fmean (scores (filter unprotected_mask df)) in
    let df1 :=
      if fgt current_unprotected_avg (Fin 0) then
        let scale_factor := fdiv target_unprotected_avg current_unprotected_avg in
        assign_score unprotected_mask
          (fun z => fround 1 (clip (fmul (predicted_coverage_score z) scale_factor)
                                   15 100)) df
      else df in
    let final_avg := fmean (scores df1) in
    if fgt (fabs (fsub final_avg (Fin 42))) (Fin 0.1) then
      let diff_per_zone :=
        fdiv (fsub (Fin 42) final_avg) (ofZ (Z.of_nat unprotected_count)) in
      assign_score unprotected_mask
        (fun z => fround 1 (clip (fadd (predicted_coverage_score z) diff_per_zone)
                                 15 100)) df1
    else df1
  else df.

(** The last word on the two protected zones. *)
Definition force_protected (df : frame Zone) : frame Zone :=
  let df1 :=
    if existsb (on_row east_zone1_mask) df
    then assign_score (on_row east_zone1_mask) (fun _ => Fin 95) df else df in
  if existsb (on_row newdelhi_mask) df1
  then assign_score (on_row newdelhi_mask) (fun _ => Fin 44) df1 else df1.

Section Areas.
Variable G : Generator.

Definition calculate_realistic_park_area (num_parks : Z) (current_area : Q)
    (st : rstate G) : Q * rstate G :=
  if (num_parks =? 0)%Z then (0, st)
  else if (num_parks >? 1000)%Z then
    (Qround_dec 2 (inject_Z num_parks * 0.057), st)
  else if (num_parks >? 100)%Z then
    let '(u, st1) := uniform G 0 0.02 st in
    (Qround_dec 2 (inject_Z num_parks * (0.03 + u)), st1)
  else if (num_parks >? 30)%Z then
    let '(u, st1) := uniform G 0 0.03 st in
    (Qround_dec 2 (inject_Z num_parks * (0.02 + u)), st1)
  else
    let '(u, st1) := uniform G 0 0.02 st in
    let area := Qround_dec 2 (inject_Z num_parks * (0.015 + u)) in
    ((if (num_parks >? 0)%Z then Qmax area 0.5 else 0), st1).

(** The areas of the unprotected rows are redrawn row by row. *)
Definition adjust_area (r : nat * Zone) (st : rstate G) : (nat * Zone) * rstate G :=
  if protected_mask (snd r) then (r, st)
  else
    let '(a, st1) :=
      calculate_realistic_park_area (total_parks (snd r)) (total_area_km2 (snd r)) st in
    ((fst r, set_area (snd r) a), st1).

Definition adjust_for_ui_expectations (zones_df : frame Zone) (st : rstate G)
  : frame Zone * rstate G :=
  let df := set_if_first east_zone1_mask (fun z => (total_parks z >? 500)%Z) 95 zones_df in
  let df := set_if_first newdelhi_mask (fun z => (total_parks z <? 100)%Z) 44 df in
  let df := sort_values by_total_parks_desc df in
  let df := tier_adjust df in
  let df := rescale_to_target df in
  let df := force_protected df in
  apply_rows adjust_area df st.
End Areas.

(** [assign_labels] *)
Definition get_label_and_status (score : float64) : string * string :=
  if fge score (Fin 75) then ("Excellent Coverage", "excellent")
  else if fge score (Fin 40) then ("Good Coverage", "good")
  else ("Needs Improvement", "needs-improvement").

Definition assign_labels (zones_df : frame Zone) : frame Zone :=
  map (fun r => let l := get_label_and_status (predicted_coverage_score (snd r)) in
                (fst r, set_label (snd r) (fst l) (snd l))) zones_df.

(** [calculate_urban_green_balance_index] *)
Definition calculate_urban_green_balance_index (zones_df : frame Zone)
  : frame Zone * float64 :=
  let final_avg := fmean (scores zones_df) in
  (map (fun r => (fst r, set_index_cols (snd r) (fround 1 final_avg))) zones_df,
   final_avg).

(** [sort_values('predicted_coverage_score', ascending=False)]: rows
    without a score come last. *)
Definition by_score_desc (score : Zone -> float64) (a b : Zone) : bool :=
  isna (score b) || (negb (isna (score a)) && fle (score b) (score a)).

(** [create_zone_ids] *)
Definition create_zone_ids (zones_df : frame Zone) : frame Zone :=
  let sorted := sort_values (by_score_desc predicted_coverage_score) (values zones_df) in
  map (fun r => (fst r, set_zone_id (snd r) (format_02d (fst r + 1))))
      (reset_index sorted).

(** The exported table. *)
Record ResultRow : Type := {
  r_zone_id : string;
  r_zone_name : string;
  r_predicted_coverage_score : float64;
  r_coverage_label : string;
  num_parks : Z;
  total_area : Q;
  r_status : string;
  r_urban_green_balance_index : float64;
  r_progress_to_who : float64
}.

Definition output_cols : list string :=
  ["zone_id"; "zone_name"; "predicted_coverage_score"; "coverage_label";
   "num_parks"; "total_area"; "status"; "urban_green_balance_index";
   "progress_to_who"].

Definition result_of (z : Zone) : ResultRow :=
  {| r_zone_id := zone_id z;
     r_zone_name := zone_name z;
     r_predicted_coverage_score := fround 1 (predicted_coverage_score z);
     r_coverage_label := coverage_label z;
     num_parks := total_parks z;
     total_area := Qround_dec 2 (total_area_km2 z);
     r_status := status z;
     r_urban_green_balance_index := fround 1 (urban_green_balance_index z);
     r_progress_to_who := fround 1 (progress_to_who z) |}.

Definition by_result_score_desc (a b : ResultRow) : bool :=
  isna (r_predicted_coverage_score b)
  || (negb (isna (r_predicted_coverage_score a))
      && fle (r_predicted_coverage_score b) (r_predicted_coverage_score a)).

(** Steps 4 to 9 of [main]: from the aggregated zones to the exported
    table. *)
Definition predictions (G : Generator) (zones_df : frame Zone) (st : rstate G)
  : list ResultRow * rstate G :=
  let zones_df := calculate_park_coverage_score zones_df in
  let '(zones_df, st1) := adjust_for_ui_expectations G zones_df st in
  let zones_df := assign_labels zones_df in
  let '(zones_df, ugbi) := calculate_urban_green_balance_index zones_df in
  let zones_df := create_zone_ids zones_df in
  (sort_values by_result_score_desc (map result_of (values zones_df)), st1).

(** [main]: the module seeds the generator when it is loaded. *)
Definition main (G : Generator) (cells_df : list Cell) : list ResultRow :=
  fst (predictions G (aggregate_to_zones (create_sub_zones cells_df)) (seed G 42)).

End Park.

(* ===================================================================== *)
(** ** school_coverage_model.py *)
(* ===================================================================== *)

Module School.

(** *** Loading *)

(** A row of the schools CSV once its columns are identified and the
    numeric columns have gone through [pd.to_numeric(errors='coerce')]: a
    missing or unreadable number is NaN, a missing identifier is [None]. *)
Record RawSchool : Type := {
  raw_school_id : option string;
  raw_latitude : float64;
  raw_longitude : float64;
  raw_school_level : string;
  raw_management_type : string;
  raw_enrolment_total : float64;
  raw_student_teacher_ratio : float64
}.

Record School : Type := {
  school_id : option string;
  geometry : float64 * float64;
  school_level : string;
  management_type : string;
  enrolment_total : float64;
  student_teacher_ratio : float64
}.

(** [Series.between(lo, hi)], both ends included. *)
Definition between (x : float64) (lo hi : Q) : bool :=
  fle (Fin lo) x && fle x (Fin hi).

Definition has_coordinates (r : RawSchool) : bool :=
  negb (isna (raw_latitude r)) && negb (isna (raw_longitude r)).

Definition coordinates_in_range (r : RawSchool) : bool :=
  between (raw_latitude r) (-90) 90 && between (raw_longitude r) (-180) 180.

Definition clean (r : RawSchool) : School :=
  {| school_id := raw_school_id r;
     geometry := (raw_longitude r, raw_latitude r);
     school_level := raw_school_level r;
     management_type := raw_management_type r;
     enrolment_total := fillna 0 (raw_enrolment_total r);
     student_teacher_ratio := fillna 30 (raw_student_teacher_ratio r) |}.

(** [load_schools_data]: the frame it returns and the lines it prints. *)
Definition load_schools_data (df : list RawSchool) : frame School * list string :=
  let df := reset_index df in
  let df := filter (fun r => has_coordinates (snd r)) df in
  let df := filter (fun r => coordinates_in_range (snd r)) df in
  let gdf := map (fun r => (fst r, clean (snd r))) df in
  let gdf := filter (fun r => fgt (student_teacher_ratio (snd r)) (Fin 0)) gdf in
  let gdf := filter (fun r => flt (student_teacher_ratio (snd r)) (Fin 100)) gdf in
  (gdf,
   ["Loading schools data...";
    String.append "Loaded "
      (String.append (str_of_nat (List.length gdf)) " schools")]).

(** *** Spatial join *)

Record Joined : Type := {
  school : School;
  j_zone_id : option string;
  j_zone_name : option string
}.

Definition has_zone (r : nat * Joined) : bool :=
  match j_zone_id (snd r) with Some _ => true | None => false end.

(** [dropna(subset=['zone_id'])] *)
Definition dropna_zone (df : frame Joined) : frame Joined := filter has_zone df.

(** [schools_with_zones.loc[idx, ['zone_id', 'zone_name']] = ...] *)
Definition set_zone (idx : nat) (zid zname : option string) (df : frame Joined)
  : frame Joined :=
  map (fun r => if Nat.eqb (fst r) idx
                then (fst r, {| school := school (snd r);
                                j_zone_id := zid; j_zone_name := zname |})
                else r) df.

Section Locator.
(** Zone polygons and the two geometric tests of shapely. *)
Variable Polygon : Type.
Variable within : float64 * float64 -> Polygon -> bool.
Variable distance : float64 * float64 -> Polygon -> Q.

Record AdminZone : Type := {
  zone_id : string;
  zone_name : string;
  zone_geometry : Polygon
}.

(** [gpd.sjoin_nearest], when the installed geopandas has it: one row or
    more per left row, labelled by the left index, with the zone found
    (none when there is no zone at all). *)
Variable sjoin_nearest :
  option (frame (float64 * float64) -> list AdminZone
          -> frame (option string * option string)).

(** [gpd.sjoin(schools, zones, how='left', predicate='within')] *)
Definition sjoin (schools_gdf : frame School) (admin_gdf : list AdminZone)
  : frame Joined :=
  flat_map
    (fun r =>
       match filter (fun z => within (geometry (snd r)) (zone_geometry z)) admin_gdf with
       | [] => [(fst r, {| school := snd r; j_zone_id := None; j_zone_name := None |})]
       | zs => map (fun z => (fst r, {| school := snd r;
                                        j_zone_id := Some (zone_id z);
                                        j_zone_name := Some (zone_name z) |})) zs
       end)
    schools_gdf.

(** The result of [sjoin_nearest] has no [index_left] column, so the
    rows are matched by position. *)
Fixpoint assign_by_position (outside_index : list nat) (i : nat)
    (nearest : frame (option string * option string)) (df : frame Joined)
  : frame Joined :=
  match outside_index with
  | [] => df
  | idx :: rest =>
      let df' :=
        match nth_error nearest i with
        | Some (_, (zid, zname)) => set_zone idx zid zname df
        | None => df
        end in
      assign_by_position rest (S i) nearest df'
  end.

(** The loop over the zones of the fallback: the first zone at the
    smallest distance. *)
Fixpoint nearest_scan (p : float64 * float64) (zones : list AdminZone)
    (min_dist : float64) (nearest_zone_id nearest_zone_name : option string)
  : option string * option string :=
  match zones with
  | [] => (nearest_zone_id, nearest_zone_name)
  | z :: rest =>
      let dist := Fin (distance p (zone_geometry z)) in
      if flt dist min_dist
      then nearest_scan p rest dist (Some (zone_id z)) (Some (zone_name z))
      else nearest_scan p rest min_dist nearest_zone_id nearest_zone_name
  end.

Fixpoint assign_nearest (outside : frame Joined) (admin_gdf : list AdminZone)
    (df : frame Joined) : frame Joined :=
  match outside with
  | [] => df
  | r :: rest =>
      let '(zid, zname) :=
        nearest_scan (geometry (school (snd r))) admin_gdf PInf None None in
      assign_nearest rest admin_gdf (set_zone (fst r) zid zname df)
  end.

Definition spatial_join_schools_to_zones (schools_gdf : frame School)
    (admin_gdf : list AdminZone) (use_nearest : bool) : frame Joined :=
  let schools_with_zones := sjoin schools_gdf admin_gdf in
  let schools_outside := filter (fun r => negb (has_zone r)) schools_with_zones in
  let schools_with_zones :=
    match schools_outside with
    | [] => schools_with_zones
    | _ =>
        if use_nearest then
          match sjoin_nearest with
          | Some lib =>
              let nearest :=
                lib (map (fun r => (fst r, geometry (school (snd r)))) schools_outside)
                    admin_gdf in
              assign_by_position (index schools_outside) 0 nearest schools_with_zones
          | None => assign_nearest schools_outside admin_gdf schools_with_zones
          end
        else dropna_zone schools_with_zones
    end in
  dropna_zone schools_with_zones.
End Locator.

(** *** Aggregation *)

Record ZoneStats : Type := {
  s_zone_id : string;
  num_schools : Z;
  total_enrolment : float64;
  avg_enrolment : float64;
  avg_student_teacher_ratio : float64;
  num_primary_schools : Z;
  num_secondary_schools : Z;
  num_senior_secondary_schools : Z;
  num_govt_schools : Z;
  num_private_schools : Z
}.

Definition key_of (r : Joined) : string :=
  match j_zone_id r with Some s => s | None => "" end.

Definition has_id (r : Joined) : bool :=
  match school_id (school r) with Some _ => true | None => false end.

Definition level_contains (pat : string) (r : Joined) : bool :=
  str_contains pat (school_level (school r)).

Definition management_is (m : string) (r : Joined) : bool :=
  String.eqb (management_type (school r)) m.

(** The column of [mgmt_stats] read for government schools, if any. *)
Definition govt_col (rows : list Joined) : option string :=
  if existsb (management_is "govt") rows then Some "govt"
  else if existsb (management_is "government") rows then Some "government"
  else None.

Definition aggregate_schools_to_zones (schools_with_zones : frame Joined)
  : list ZoneStats :=
  let rows := values (dropna_zone schools_with_zones) in
  map (fun '(zid, g) =>
         {| s_zone_id := zid;
            num_schools := count_if has_id g;
            total_enrolment := fillna 0 (fsum (map (fun r => enrolment_total (school r)) g));
            avg_enrolment := fillna 0 (fmean (map (fun r => enrolment_total (school r)) g));
            avg_student_teacher_ratio :=
              fillna 0 (fmean (map (fun r => student_teacher_ratio (school r)) g));
            num_primary_schools := count_if (level_contains "primary") g;
            num_secondary_schools := count_if (level_contains "secondary") g;
            num_senior_secondary_schools := count_if (level_contains "senior") g;
            num_govt_schools :=
              match govt_col rows with
              | Some c => count_if (management_is c) g
              | None => 0%Z
              end;
            num_private_schools :=
              if existsb (management_is "private") rows
              then count_if (management_is "private") g else 0%Z |})
      (groupby key_of rows).

(** *** Features and the rule-based score *)

Record Population : Type := {
  p_zone_id : string;
  population_total : float64;
  population_6_17 : float64;
  literacy_rate : float64
}.

Record Features : Type := {
  stats : ZoneStats;
  f_population_total : float64;
  f_population_6_17 : float64;
  f_literacy_rate : float64;
  schools_per_1000_children : float64;
  seat_capacity_per_100_children : float64;
  school_level_diversity : float64;
  govt_school_ratio : float64;
  f_avg_student_teacher_ratio : float64;
  enrolment_per_school : float64;
  coverage_score : float64
}.

(** [calculate_coverage_score], one row at a time. *)
Definition calculate_coverage_score (schools_per_1k capacity_per_100 str_ratio literacy : float64)
  : float64 :=
  let score := Fin 0 in
  let score := fadd score (clip (fmul (fdiv schools_per_1k (Fin 5)) (Fin 50)) 0 50) in
  let score := fadd score (clip (fmul (fdiv capacity_per_100 (Fin 120)) (Fin 30)) 0 30) in
  let str_score :=
    fmul (Fin 10) (fsub (Fin 1) (clip (fdiv (fsub str_ratio (Fin 20)) (Fin 30)) 0 1)) in
  let score := fadd score str_score in
  fadd score (fmul literacy (Fin 10)).

Definition per_children (x pop : float64) (scale : Q) : float64 :=
  fillna 0 (replace_inf 0 (fmul (fdiv x pop) (Fin scale))).

Definition features_of (z : ZoneStats) (pop : option Population) : Features :=
  let population_total :=
    fillna 10000 (match pop with Some p => population_total p | None => NaN end) in
  let population_6_17 :=
    fillna 2000 (match pop with Some p => population_6_17 p | None => NaN end) in
  let literacy_rate :=
    fillna 0.85 (match pop with Some p => literacy_rate p | None => NaN end) in
  let n1 := ofZ (num_schools z + 1) in
  let schools_per_1k := per_children (ofZ (num_schools z)) population_6_17 1000 in
  let capacity := per_children (total_enrolment z) population_6_17 100 in
  let str_ratio := fillna 30 (avg_student_teacher_ratio z) in
  {| stats := z;
     f_population_total := population_total;
     f_population_6_17 := population_6_17;
     f_literacy_rate := literacy_rate;
     schools_per_1000_children := schools_per_1k;
     seat_capacity_per_100_children := capacity;
     school_level_diversity :=
       fdiv (ofZ (num_primary_schools z + num_secondary_schools z
                  + num_senior_secondary_schools z)) n1;
     govt_school_ratio := fdiv (ofZ (num_govt_schools z)) n1;
     f_avg_student_teacher_ratio := str_ratio;
     enrolment_per_school := fdiv (total_enrolment z) n1;
     coverage_score :=
       clip (calculate_coverage_score schools_per_1k capacity str_ratio literacy_rate)
            0 100 |}.

(** [zone_stats.merge(population_df, on='zone_id', how='left')] followed by
    the feature columns: one row per matching population row, one row
    with defaults when there is none. *)
Definition create_features (zone_stats : list ZoneStats) (population_df : list Population)
  : list Features :=
  flat_map
    (fun z =>
       match filter (fun p => String.eqb (p_zone_id p) (s_zone_id z)) population_df with
       | [] => [features_of z None]
       | ps => map (fun p => features_of z (Some p)) ps
       end)
    zone_stats.

(** *** Labels *)

Definition score_to_label (score : float64) : string :=
  if fge score (Fin 80) then "Excellent Coverage"
  else if fge score (Fin 60) then "Good Coverage"
  else "Needs Improvement".

Definition score_to_status (score : float64) : string :=
  if fge score (Fin 80) then "excellent"
  else if fge score (Fin 60) then "good"
  else "needs-improvement".

(** *** Prediction *)

Record ResultRow : Type := {
  r_zone_id : string;
  r_zone_name : string;
  predicted_coverage_score : float64;
  r_num_schools : Z;
  r_total_enrolment : float64;
  coverage_label : string;
  status : string
}.

Definition output_cols : list string :=
  ["zone_id"; "zone_name"; "predicted_coverage_score"; "num_schools";
   "total_enrolment"; "coverage_label"; "status"].

Section Prediction.
Variable Polygon : Type.
Variable within : float64 * float64 -> Polygon -> bool.
Variable distance : float64 * float64 -> Polygon -> Q.
Variable sjoin_nearest :
  option (frame (float64 * float64) -> list (AdminZone Polygon)
          -> frame (option string * option string)).

(** The fitted scaler and regressor: a number for a row of features. *)
Variable regressor : Features -> Q.

Definition zone_name_of (admin_gdf : list (AdminZone Polygon)) (zid : string) : string :=
  match find (fun z => String.eqb (zone_id Polygon z) zid) admin_gdf with
  | Some z => zone_name Polygon z
  | None => zid
  end.

Definition predict_school_coverage (schools_gdf : frame School)
    (admin_gdf : list (AdminZone Polygon)) (population_df : list Population)
  : list ResultRow :=
  let schools_with_zones :=
    spatial_join_schools_to_zones Polygon within distance sjoin_nearest
      schools_gdf admin_gdf true in
  let zone_stats := aggregate_schools_to_zones schools_with_zones in
  let features_df := create_features zone_stats population_df in
  map (fun f =>
         let prediction := clip (Fin (regressor f)) 0 100 in
         {| r_zone_id := s_zone_id (stats f);
            r_zone_name := zone_name_of admin_gdf (s_zone_id (stats f));
            predicted_coverage_score := fround 1 prediction;
            r_num_schools := num_schools (stats f);
            r_total_enrolment := total_enrolment (stats f);
            coverage_label := score_to_label prediction;
            status := score_to_status prediction |})
      features_df.
End Prediction.

End School.

(* ===================================================================== *)
(** ** urban_coverage_model.py *)
(* ===================================================================== *)

Module Urban.

(** The zone frame of [aggregate_cells_to_zones].  The spread columns of
    the cell scores (std, min, max) and the dominant label are left out:
    no feature and no exported column reads them. *)
Record Zone : Type := {
  zone_name : string;
  zone_id : string;
  total_area_km2 : Q;
  avg_cell_area_km2 : float64;
  total_population : Z;
  avg_cell_population : float64;
  avg_population_density : float64;
  total_parks : Z;
  total_park_area_km2 : Q;
  avg_green_area_pct : float64;
  total_schools : Z;
  total_hospitals : Z;
  total_roads_km : Q;
  avg_parks_per_10k : float64;
  avg_schools_per_10k : float64;
  avg_hospitals_per_100k : float64;
  avg_coverage_score : float64;
  total_facilities : Z;
  parks_per_km2 : float64;
  schools_per_km2 : float64;
  hospitals_per_km2 : float64;
  road_density_km_per_km2 : float64
}.

(** [(count / total_area_km2).fillna(0)] *)
Definition per_km2 (x : float64) (area : Q) : float64 :=
  fillna 0 (fdiv x (Fin area)).

Definition zone_id_of (unique_zones : list string) (name : string) : string :=
  match position name unique_zones 0 with
  | Some i => format_02d (i + 1)
  | None => ""
  end.

Definition aggregate_group (unique_zones : list string) (name : string) (g : list Cell)
  : Zone :=
  let area := Qsum (map area_km2 g) in
  let parks := Zsum (map park_count g) in
  let schools := Zsum (map school_count g) in
  let hospitals := Zsum (map hospital_count g) in
  let roads := Qsum (map primary_roads_km g) in
  {| zone_name := name;
     zone_id := zone_id_of unique_zones name;
     total_area_km2 := area;
     avg_cell_area_km2 := fillna 0 (Qmean (map area_km2 g));
     total_population := Zsum (map population g);
     avg_cell_population := fillna 0 (Qmean (map (fun c => inject_Z (population c)) g));
     avg_population_density := fillna 0 (Qmean (map population_density_per_km2 g));
     total_parks := parks;
     total_park_area_km2 := Qsum (map park_area_km2 g);
     avg_green_area_pct := fillna 0 (Qmean (map green_area_pct g));
     total_schools := schools;
     total_hospitals := hospitals;
     total_roads_km := roads;
     avg_parks_per_10k := fillna 0 (Qmean (map parks_per_10k_residents g));
     avg_schools_per_10k := fillna 0 (Qmean (map schools_per_10k_residents g));
     avg_hospitals_per_100k := fillna 0 (Qmean (map hospitals_per_100k_residents g));
     avg_coverage_score := fillna 0 (Qmean (map cell_coverage_score g));
     total_facilities := (parks + schools + hospitals)%Z;
     parks_per_km2 := fillna 0 (per_km2 (ofZ parks) area);
     schools_per_km2 := fillna 0 (per_km2 (ofZ schools) area);
     hospitals_per_km2 := fillna 0 (per_km2 (ofZ hospitals) area);
     road_density_km_per_km2 := fillna 0 (per_km2 (Fin roads) area) |}.

Definition aggregate_cells_to_zones (cells_df : list Cell) : list Zone :=
  let groups := groupby cell_zone_name cells_df in
  let unique_zones := sorted_unique (map fst groups) in
  map (fun '(name, g) => aggregate_group unique_zones name g) groups.

Record Features : Type := {
  zone : Zone;
  coverage_score : float64;
  infrastructure_diversity : Z;
  green_infrastructure_ratio : float64;
  facilities_per_population : float64
}.

Definition positive (n : Z) : Z := if (n >? 0)%Z then 1%Z else 0%Z.

Definition create_features (zone_agg_df : list Zone) : list Features :=
  map (fun z =>
         {| zone := z;
            coverage_score := clip (avg_coverage_score z) 0 100;
            infrastructure_diversity :=
              (positive (total_parks z) + positive (total_schools z)
               + positive (total_hospitals z))%Z;
            green_infrastructure_ratio :=
              fdiv (Fin (total_park_area_km2 z)) (Fin (total_area_km2 z + 0.001));
            facilities_per_population :=
              fmul (fdiv (ofZ (total_facilities z)) (ofZ (total_population z + 1)))
                   (Fin 10000) |})
      zone_agg_df.

(** The fallback score of [calculate_coverage_score_from_features]. *)
Definition calculate_coverage_score_from_features (z : Zone) : float64 :=
  let score := Fin 0 in
  let score := fadd score (clip (fmul (fdiv (avg_parks_per_10k z) (Fin 10)) (Fin 30)) 0 30) in
  let score := fadd score (clip (fmul (fdiv (avg_schools_per_10k z) (Fin 5)) (Fin 30)) 0 30) in
  let score := fadd score (clip (fmul (fdiv (avg_hospitals_per_100k z) (Fin 50)) (Fin 20)) 0 20) in
  let score := fadd score (clip (fmul (fdiv (avg_green_area_pct z) (Fin 10)) (Fin 10)) 0 10) in
  fadd score (clip (fmul (fdiv (road_density_km_per_km2 z) (Fin 5)) (Fin 10)) 0 10).

Definition score_to_label (score : float64) : string :=
  if fge score (Fin 80) then "Excellent Coverage"
  else if fge score (Fin 60) then "Good Coverage"
  else "Needs Improvement".

Definition score_to_status (score : float64) : string :=
  if fge score (Fin 80) then "excellent"
  else if fge score (Fin 60) then "good"
  else "needs-improvement".

Record ResultRow : Type := {
  r_zone_id : string;
  r_zone_name : string;
  predicted_coverage_score : float64;
  coverage_label : string;
  status : string;
  actual_coverage_score : float64;
  r_total_parks : Z;
  r_total_schools : Z;
  r_total_hospitals : Z;
  r_total_facilities : Z;
  r_total_population : Z
}.

Definition output_cols : list string :=
  ["zone_id"; "zone_name"; "predicted_coverage_score"; "coverage_label"; "status";
   "actual_coverage_score"; "total_parks"; "total_schools"; "total_hospitals";
   "total_facilities"; "total_population"].

Section Prediction.
(** The fitted scaler and regressor: a number for a row of features. *)
Variable regressor : Features -> Q.

Definition predict_urban_coverage (zone_agg_df : list Zone) : list ResultRow :=
  map (fun f =>
         let prediction := Fin (regressor f) in
         {| r_zone_id := zone_id (zone f);
            r_zone_name := zone_name (zone f);
            predicted_coverage_score := fround 2 prediction;
            coverage_label := score_to_label prediction;
            status := score_to_status prediction;
            actual_coverage_score := fround 2 (coverage_score f);
            r_total_parks := total_parks (zone f);
            r_total_schools := total_schools (zone f);
            r_total_hospitals := total_hospitals (zone f);
            r_total_facilities := total_facilities (zone f);
            r_total_population := total_population (zone f) |})
      (create_features zone_agg_df).
End Prediction.

End Urban.

(* ===================================================================== *)
(** ** The labelers as functions into tiers *)
(* ===================================================================== *)

Definition tier_opt_le (a b : option tier) : Prop :=
  match a, b with
  | Some x, Some y => tier_le x y
  | _, _ => False
  end.

(** Every labeler of the four models, label and status alike. *)
Definition labelers : list (float64 -> option tier) :=
  [ (fun s => tier_of_label (School.score_to_label s));
    (fun s => tier_of_status (School.score_to_status s));
    (fun s => tier_of_label (fst (Hospital.assign_label s)));
    (fun s => tier_of_status (snd (Hospital.assign_label s)));
    (fun s => tier_of_label (fst (Park.get_label_and_status s)));
    (fun s => tier_of_status (snd (Park.get_label_and_status s)));
    (fun s => tier_of_label (Urban.score_to_label s));
    (fun s => tier_of_status (Urban.score_to_status s)) ].

(** A labeler of the source is an instance of the two-threshold scheme:
    [scheme] is the monotonicity of that scheme, [lo] and [hi] are the
    thresholds of the labeler at hand. *)
Ltac by_two_thresholds scheme lo hi s1 s2 :=
  generalize (scheme lo hi (Some Excellent) (Some Good)
                (Some NeedsImprovement) s1 s2);
  intros H;
  destruct (fge s1 (Fin hi)), (fge s1 (Fin lo)), (fge s2 (Fin hi)), (fge s2 (Fin lo));
  apply H; simpl; unfold tier_le; simpl; auto.

(* ===================================================================== *)
(** ** Invariants of the pipelines *)
(* ===================================================================== *)

(** Hospital frame: the mean density of the zone is a number, and the index
    lies within 20 and 100. *)
Definition density_known (z : Hospital.Zone) : Prop :=
  isna (Hospital.avg_population_density z) = false.

Definition index_ok (z : Hospital.Zone) : Prop :=
  in_range 20 100 (Hospital.health_access_index z).

(** Park frame: the names of the rows, and what the steps after the score
    adjustment keep of a row (its label, name and score). *)
Definition park_names (df : frame Park.Zone) : list string :=
  map (fun r => Park.zone_name (snd r)) df.

Definition park_view (r : nat * Park.Zone) : nat * string * float64 :=
  (fst r, Park.zone_name (snd r), Park.predicted_coverage_score (snd r)).

Definition name_score (z : Park.Zone) : string * float64 :=
  (Park.zone_name z, Park.predicted_coverage_score z).

(** The two protected zones hold their fixed scores. *)
Definition forced (name : string) (score : float64) : Prop :=
  (name = "East Zone 1" -> score = Fin 95) /\ (name = "New Delhi" -> score = Fin 44).

(* ===================================================================== *)
(** ** What a run of the park model shows apart from the areas *)
(* ===================================================================== *)

(** An exported park row without its area column. *)
Definition park_score_part (r : Park.ResultRow)
  : string * string * float64 * string * Z * string * float64 * float64 :=
  (Park.r_zone_id r, Park.r_zone_name r, Park.r_predicted_coverage_score r,
   Park.r_coverage_label r, Park.num_parks r, Park.r_status r,
   Park.r_urban_green_balance_index r, Park.r_progress_to_who r).

(** A zone frame with the area column blanked. *)
Definition erase_area (df : frame Park.Zone) : frame Park.Zone :=
  map (fun r => (fst r, Park.set_area (snd r) 0)) df.

(** The adjustment of the scores alone: [adjust_for_ui_expectations]
    before it redraws the areas. *)
Definition adjusted_scores (zones_df : frame Park.Zone) : frame Park.Zone :=
  let df := Park.set_if_first Park.east_zone1_mask
              (fun z => (Park.total_parks z >? 500)%Z) 95 zones_df in
  let df := Park.set_if_first Park.newdelhi_mask
              (fun z => (Park.total_parks z <? 100)%Z) 44 df in
  let df := sort_values Park.by_total_parks_desc df in
  Park.force_protected (Park.rescale_to_target (Park.tier_adjust df)).

(** The order of the exported rows looks at the score only. *)
Definition by_part_score_desc
    (a b : string * string * float64 * string * Z * string * float64 * float64) : bool :=
  let score := fun p : string * string * float64 * string * Z * string * float64 * float64 =>
                 snd (fst (fst (fst (fst (fst p))))) in
  isna (score b) || (negb (isna (score a)) && fle (score b) (score a)).

(** Park frame: the density feature of the zone is a finite number, and
    the score lies within 15 and 100. *)
Definition density_finite (z : Park.Zone) : Prop :=
  isfinite (Park.parks_per_km2 z) = true.

Definition park_score_ok (r : nat * Park.Zone) : Prop :=
  in_range 15 100 (Park.predicted_coverage_score (snd r)).

Definition protected_name (name : string) : bool :=
  String.eqb name "East Zone 1" || String.eqb name "New Delhi".

(* ===================================================================== *)
(** ** Vocabulary of the statements on the school locator *)
(* ===================================================================== *)

(** No point lies within two zones of the list. *)
Definition disjoint_interiors {Polygon : Type}
    (within : float64 * float64 -> Polygon -> bool)
    (admin_gdf : list (School.AdminZone Polygon)) : Prop :=
  ForallOrdPairs
    (fun z1 z2 => forall p,
         within p (School.zone_geometry Polygon z1)
         && within p (School.zone_geometry Polygon z2) = false)
    admin_gdf.

(** Number of rows of the joined frame that carry the index label [i],
    that is, number of zones the school [i] is assigned to. *)
Definition rows_of (i : nat) (df : frame School.Joined) : nat :=
  List.length (filter (fun r => Nat.eqb (fst r) i) df).

(** What is assumed of [gpd.sjoin_nearest] when geopandas provides it: with
    at least one zone, it returns a row for every left row and every row
    names a zone. *)
Definition sjoin_nearest_total {Polygon : Type}
    (lib : option (frame (float64 * float64) -> list (School.AdminZone Polygon)
                   -> frame (option string * option string))) : Prop :=
  match lib with
  | None => True
  | Some f =>
      forall pts zones, zones <> [] ->
        (List.length pts <= List.length (f pts zones))%nat
        /\ Forall (fun r => fst (snd r) <> None) (f pts zones)
  end.

(** Rows that still lack a zone have their label in [labels]. *)
Definition covered (labels : list nat) (df : frame School.Joined) : Prop :=
  forall r, In r df -> School.has_zone r = true \/ In (fst r) labels.

(** The frame of [spatial_join_schools_to_zones] before its final
    [dropna]: the join, with the zones of the outside schools filled in or
    the outside schools removed. *)
Definition before_dropna {Polygon : Type}
    (within : float64 * float64 -> Polygon -> bool)
    (distance : float64 * float64 -> Polygon -> Q)
    (lib : option (frame (float64 * float64) -> list (School.AdminZone Polygon)
                   -> frame (option string * option string)))
    (schools_gdf : frame School.School) (admin_gdf : list (School.AdminZone Polygon))
    (use_nearest : bool) : frame School.Joined :=
  let schools_with_zones := School.sjoin Polygon within schools_gdf admin_gdf in
  let schools_outside :=
    filter (fun r => negb (School.has_zone r)) schools_with_zones in
  match schools_outside with
  | [] => schools_with_zones
  | _ =>
      if use_nearest then
        match lib with
        | Some f =>
            School.assign_by_position (index schools_outside) 0
              (f (map (fun r => (fst r, School.geometry (School.school (snd r))))
                      schools_outside) admin_gdf)
              schools_with_zones
        | None =>
            School.assign_nearest Polygon distance schools_outside admin_gdf
              schools_with_zones
        end
      else School.dropna_zone schools_with_zones
  end.

(* ===================================================================== *)
(** ** Vocabulary of the statements on loading *)
(* ===================================================================== *)




(* ===================================================================== *)
(** ** Vocabulary of the statements on the exported tables *)
(* ===================================================================== *)

(** The number a zone id spells, leading zeros or not. *)
Definition id_number (s : string) : option nat :=
  option_map Nat.of_uint (NilEmpty.uint_of_string s).



(* ===================================================================== *)
(** ** Sample data *)
(* ===================================================================== *)

(** Three generators: one that counts its draws, and the two extremes that
    always return the smallest or the largest value of the range. *)
Definition counter_generator : Generator :=
  {| rstate := Z;
     seed := fun s => s;
     randint := fun lo hi st => ((lo + st mod (hi - lo))%Z, (st + 1)%Z);
     uniform := fun lo hi st =>
                  (lo + (hi - lo) * (inject_Z (st mod 10) / 10), (st + 1)%Z) |}.

Definition lowest_draw : Generator :=
  {| rstate := unit;
     seed := fun _ => tt;
     randint := fun lo _ st => (lo, st);
     uniform := fun lo _ st => (lo, st) |}.


(** A cell of a zone with the given counts, area and population. *)
Definition sample_cell (name : string) (parks hospitals pop : Z) (area : Q) : Cell :=
  {| cell_zone_name := name;
     area_km2 := area;
     population := pop;
     population_density_per_km2 := 5000;
     park_count := parks;
     park_area_km2 := 0.5;
     green_area_pct := 10;
     school_count := 1;
     hospital_count := hospitals;
     primary_roads_km := 3;
     parks_per_10k_residents := 4;
     schools_per_10k_residents := 1;
     hospitals_per_100k_residents := 10;
     cell_coverage_score := 50 |}.

(** A cell table with cells of the Central zone only: no sub-zone is named
    'East Zone 1' or 'New Delhi'. *)
Definition central_cells : list Cell :=
  [sample_cell "Central" 250 1 1000 2; sample_cell "Central" 3 1 1000 2;
   sample_cell "Central" 0 0 1000 2; sample_cell "Central" 7 2 1000 2].

(** The same table with cells of the East and New Delhi zones. *)
Definition delhi_cells : list Cell :=
  List.app central_cells
    [sample_cell "East" 600 1 1000 2; sample_cell "East" 2 1 1000 2;
     sample_cell "East" 20 1 1000 2; sample_cell "New Delhi" 3 1 1000 2].

(** A zone made of one cell without area that holds three parks. *)
Definition floodplain_cells : list Cell := [sample_cell "Floodplain" 3 0 0 0].


(** Axis-parallel boxes as zone polygons: (west, south, east, north). *)
Definition Box : Type := (Q * Q * Q * Q)%type.

Definition within_box (p : float64 * float64) (b : Box) : bool :=
  let '(w, s, e, n) := b in
  flt (Fin w) (fst p) && flt (fst p) (Fin e)
  && flt (Fin s) (snd p) && flt (snd p) (Fin n).

(** Distance of a point to the centre of a box along the axes. *)
Definition distance_box (p : float64 * float64) (b : Box) : Q :=
  let '(w, s, e, n) := b in
  match p with
  | (Fin x, Fin y) => Qabs (x - (w + e) / 2) + Qabs (y - (s + n) / 2)
  | _ => 0
  end.

Definition zone_a : School.AdminZone Box :=
  {| School.zone_id := "A"; School.zone_name := "Zone A";
     School.zone_geometry := (0, 0, 1, 1) |}.

Definition zone_b : School.AdminZone Box :=
  {| School.zone_id := "B"; School.zone_name := "Zone B";
     School.zone_geometry := (2, 0, 3, 1) |}.

Definition raw_school (id : option string) (lat lon : float64) : School.RawSchool :=
  {| School.raw_school_id := id;
     School.raw_latitude := lat;
     School.raw_longitude := lon;
     School.raw_school_level := "primary";
     School.raw_management_type := "govt";
     School.raw_enrolment_total := Fin 400;
     School.raw_student_teacher_ratio := Fin 25 |}.

(** Two schools inside zone A, one outside every zone (nearer to B), one
    without coordinates and one with a latitude of 95 degrees. *)
Definition raw_schools : list School.RawSchool :=
  [raw_school (Some "S1") (Fin 0.5) (Fin 0.5);
   raw_school (Some "S2") (Fin 0.25) (Fin 0.75);
   raw_school (Some "S3") (Fin 0.5) (Fin 5);
   raw_school (Some "S4") NaN (Fin 0.5);
   raw_school (Some "S5") (Fin 95) (Fin 0.5)].

(** A school inside zone A, alone and followed by a record without
    coordinates. *)
Definition one_school : list School.RawSchool :=
  [raw_school (Some "S1") (Fin 0.5) (Fin 0.5)].


(** A school without an identifier inside zone A. *)
Definition anonymous_school : list School.RawSchool :=
  [raw_school None (Fin 0.5) (Fin 0.5)].

(** A regressor that predicts the same number for every zone. *)
Definition constant_regressor {F : Type} (q : Q) : F -> Q := fun _ => q.

(* ===================================================================== *)
(** ** Vocabulary of the statements on the hospital table *)
(* ===================================================================== *)

(** What the steps after the capacity estimate keep of a hospital zone:
    everything but the index, the label and the status. *)
Definition hospital_data (z : Hospital.Zone)
  : string * Z * Z * Q * float64 * float64 * Q * Z * float64 :=
  (Hospital.zone_name z, Hospital.num_hospitals z, Hospital.total_population z,
   Hospital.total_area_km2 z, Hospital.avg_hospitals_per_100k z,
   Hospital.avg_population_density z, Hospital.total_roads_km z,
   Hospital.total_beds z, Hospital.beds_per_100k z).

(** The exported row of a labelled zone, before the rows are sorted. *)
Definition hospital_row (unique_zones : list string) (z : Hospital.Zone)
  : Hospital.ResultRow :=
  {| Hospital.zone_id := Hospital.zone_id_of unique_zones (Hospital.zone_name z);
     Hospital.r_zone_name := Hospital.zone_name z;
     Hospital.predicted_coverage_score := fround 1 (Hospital.health_access_index z);
     Hospital.r_coverage_label := Hospital.coverage_label z;
     Hospital.num_facilities := Hospital.num_hospitals z;
     Hospital.total_capacity := Hospital.total_beds z;
     Hospital.r_status := Hospital.status z |}.

(** The hospital frame when the rules of Central, East, North, West and
    New Delhi have been applied, before the South rule and the two general
    adjustments. *)
Definition hospital_before_south (grouped : list Hospital.Zone) : list Hospital.Zone :=
  Hospital.adjust_new_delhi
    (Hospital.adjust_scaled "West" 60 0.92 54 56
       (Hospital.adjust_scaled "North" 40 1.85 70 80
          (Hospital.adjust_scaled "East" 40 2.2 82 86
             (Hospital.adjust_central
                (map (fun z => Hospital.set_hai z (Hospital.base_index grouped z))
                     grouped))))).

(** The South rule, the two general adjustments and the final rounding, on
    one row. *)
Definition hospital_last_rules (z5 : Hospital.Zone) : Hospital.Zone :=
  let z6 := if Hospital.name_is "South" z5 then Hospital.set_hai z5 (Fin 35.9) else z5 in
  let z7 :=
    if Hospital.excellent_mask z6
    then Hospital.set_hai z6
           (clip (fmul (Hospital.health_access_index z6) (Fin 1.2)) 75 100)
    else z6 in
  let z8 :=
    if Hospital.poor_mask z7
    then Hospital.set_hai z7
           (clip (fmul (Hospital.health_access_index z7) (Fin 0.7)) 20 40)
    else z7 in
  Hospital.set_hai z8 (fround 1 (Hospital.health_access_index z8)).

(* ===================================================================== *)
(** ** Vocabulary of the statements on the order of rows *)
(* ===================================================================== *)

(** Every row is in order with the next one. *)
Fixpoint is_sorted {A : Type} (leb : A -> A -> bool) (l : list A) : bool :=
  match l with
  | x :: t =>
      match t with
      | y :: _ => leb x y && is_sorted leb t
      | [] => true
      end
  | [] => true
  end.

(** Descending order of a float column, NaN last: the order of
    [sort_values(ascending=False)]. *)
Definition desc_nan_last (a b : float64) : bool :=
  isna b || (negb (isna a) && fle b a).

(* ===================================================================== *)
(** ** Vocabulary of the statements on the park table *)
(* ===================================================================== *)

(** A generator whose [uniform] never returns less than the lower end of
    the range it is asked for. *)
Definition uniform_from_low (G : Generator) : Prop :=
  forall lo hi st, lo <= fst (uniform G lo hi st).


(* ===================================================================== *)
(** ** Vocabulary of the statements on the sub-zones *)
(* ===================================================================== *)

(** A zone name that [subzone_mapping] has an entry for. *)
Definition known_main_zone (name : string) : bool :=
  existsb (fun m => String.eqb (fst m) name) Park.subzone_mapping.

(** The sub-zone that the loop over the sub-zones of one main zone leaves
    on a row with index label [l] that held [s]. *)
Fixpoint sub_zone_after (sub_zones : list string) (i start_idx : nat)
    (cell_indices : list nat) (cells_per_subzone remainder : nat)
    (l : nat) (s : string) : string :=
  match sub_zones with
  | [] => s
  | sub_zone :: rest =>
      let end_idx :=
        (start_idx + cells_per_subzone + (if Nat.ltb i remainder then 1 else 0))%nat in
      sub_zone_after rest (S i) end_idx cell_indices cells_per_subzone remainder l
        (if isin (Park.slice cell_indices start_idx end_idx) l then sub_zone else s)
  end.

(** The index where the loop over the sub-zones stops. *)
Fixpoint end_after (n_subzones i start_idx cells_per_subzone remainder : nat) : nat :=
  match n_subzones with
  | O => start_idx
  | S n =>
      end_after n (S i)
        (start_idx + cells_per_subzone + (if Nat.ltb i remainder then 1 else 0))%nat
        cells_per_subzone remainder
  end.

(** The main zone of a row of the cell frame, and a row with its sub-zone
    column rewritten. *)
Definition row_name (r : nat * Park.SubCell) : string := cell_zone_name (fst (snd r)).

Definition relabel (g : nat * Park.SubCell -> string) (r : nat * Park.SubCell)
  : nat * Park.SubCell :=
  (fst r, (fst (snd r), g r)).


(** A zone of the list at the smallest distance from a point, and a point
    that lies within no zone of the list. *)
Definition nearest_zone {Polygon : Type} (distance : float64 * float64 -> Polygon -> Q)
    (p : float64 * float64) (admin_gdf : list (School.AdminZone Polygon))
    (z : School.AdminZone Polygon) : Prop :=
  In z admin_gdf
  /\ forall z', In z' admin_gdf ->
       distance p (School.zone_geometry Polygon z)
       <= distance p (School.zone_geometry Polygon z').

Definition outside_all {Polygon : Type} (within : float64 * float64 -> Polygon -> bool)
    (p : float64 * float64) (admin_gdf : list (School.AdminZone Polygon)) : Prop :=
  forall z, In z admin_gdf -> within p (School.zone_geometry Polygon z) = false.

(** The pairs of label and status that the models write. *)
Definition label_pairs : list (string * string) :=
  [("Excellent Coverage", "excellent"); ("Good Coverage", "good");
   ("Needs Improvement", "needs-improvement")].


(* ===================================================================== *)
(** ** More sample data *)
(* ===================================================================== *)


(** A population table that lists zone A, without children and without a
    literacy rate, and does not list zone B. *)
Definition sample_population : list School.Population :=
  [{| School.p_zone_id := "A"; School.population_total := Fin 50000;
      School.population_6_17 := Fin 0; School.literacy_rate := NaN |}].

(** The schools of [raw_schools] joined to the two sample zones in nearest
    mode, with the scan of the zones as the way to the nearest zone. *)
Definition sample_joined : frame School.Joined :=
  School.spatial_join_schools_to_zones Box within_box distance_box None
    (fst (School.load_schools_data raw_schools)) [zone_a; zone_b] true.

(** A score as the three tiers of the park counts leave it: not a number,
    or a number of at least 15. *)
Definition tier_floor (x : float64) : Prop :=
  match x with
  | NaN => True
  | Fin q => 15 <= q
  | _ => False
  end.

(* ===================================================================== *)
(** ** Properties of the numbers *)
(* ===================================================================== *)

Lemma Qsign_pos q : 0 < q -> Qsign q = Gt.
Proof. intros H. unfold Qsign. now apply Qgt_alt. Qed.

Lemma Qsign_nonzero q : ~ q == 0 -> Qsign q <> Eq.
Proof. intros H E. apply H. unfold Qsign in E. now apply Qeq_alt. Qed.

Lemma in_range_fin lo hi x : in_range lo hi x -> exists q, x = Fin q /\ lo <= q /\ q <= hi.
Proof. destruct x; simpl; try tauto. intros H. now exists q. Qed.

Lemma in_range_not_nan lo hi x : in_range lo hi x -> isna x = false.
Proof. destruct x; simpl; tauto. Qed.

Lemma in_range_weaken lo hi lo' hi' x :
  lo' <= lo -> hi <= hi' -> in_range lo hi x -> in_range lo' hi' x.
Proof. destruct x; simpl; try tauto. intros A B [C D]. split; lra. Qed.

Lemma clip_in_range x lo hi : isna x = false -> lo <= hi -> in_range lo hi (clip x lo hi).
Proof.
  intros Hx Hle. destruct x as [q | | |]; simpl in *; try discriminate.
  - split.
    + apply Q.min_glb; [apply Q.le_max_r | exact Hle].
    + apply Q.le_min_r.
  - split; [exact Hle | apply Qle_refl].
  - split; [apply Q.min_glb; [apply Qle_refl | exact Hle] | apply Q.le_min_r].
Qed.

Lemma clip_not_nan x lo hi : isna x = false -> isna (clip x lo hi) = false.
Proof. destruct x; simpl; congruence. Qed.

(** Dividing and multiplying by positive constants never produces NaN. *)
Lemma fdiv_pos_not_nan x c : isna x = false -> 0 < c -> isna (fdiv x (Fin c)) = false.
Proof.
  intros Hx Hc. destruct x; simpl in *; try discriminate; rewrite (Qsign_pos _ Hc); reflexivity.
Qed.

Lemma fmul_pos_not_nan x c : isna x = false -> 0 < c -> isna (fmul x (Fin c)) = false.
Proof.
  intros Hx Hc. destruct x; simpl in *; try discriminate; trivial;
    unfold inf_times; rewrite (Qsign_pos _ Hc); reflexivity.
Qed.

Lemma scale_not_nan x c d :
  isna x = false -> 0 < c -> 0 < d -> isna (fmul (fdiv x (Fin c)) (Fin d)) = false.
Proof. intros. now apply fmul_pos_not_nan; [apply fdiv_pos_not_nan |]. Qed.

Lemma fillna_not_nan d x : isna (fillna d x) = false.
Proof. now destruct x. Qed.

Lemma fillna_replace_inf_fin d e x : isfinite (fillna d (replace_inf e x)) = true.
Proof. now destruct x. Qed.

Lemma replace_inf_fillna_fin d e x : isfinite (replace_inf d (fillna e x)) = true.
Proof. now destruct x. Qed.

Lemma fadd_fin_not_nan a y : isna y = false -> isna (fadd (Fin a) y) = false.
Proof. now destruct y. Qed.

(** *** Rounding *)

Lemma round_half_even_lower (a : Z) q : inject_Z a <= q -> (a <= round_half_even q)%Z.
Proof.
  intros H. unfold round_half_even.
  assert (a <= Qfloor q)%Z.
  { rewrite <- (Qfloor_Z a). now apply Qfloor_resp_le. }
  destruct (Qcompare _ _); [destruct (Z.even _) | |]; lia.
Qed.

Lemma round_half_even_upper (b : Z) q : q <= inject_Z b -> (round_half_even q <= b)%Z.
Proof.
  intros H. unfold round_half_even.
  pose proof (Qfloor_le q) as Hf.
  assert (Hfb : (Qfloor q <= b)%Z).
  { rewrite <- (Qfloor_Z b). now apply Qfloor_resp_le. }
  destruct (Z.eq_dec (Qfloor q) b) as [E | NE].
  - (* the floor is already the bound: the fraction is zero *)
    assert (Hq : q - inject_Z (Qfloor q) == 0).
    { rewrite E in *. lra. }
    assert (Hc : Qcompare (q - inject_Z (Qfloor q)) (1 # 2) = Lt).
    { apply Qlt_alt. rewrite Hq. reflexivity. }
    rewrite Hc. lia.
  - destruct (Qcompare _ _); [destruct (Z.even _) | |]; lia.
Qed.

Lemma round_half_even_Z (k : Z) : round_half_even (inject_Z k) = k.
Proof.
  apply Z.le_antisymm.
  - apply round_half_even_upper, Qle_refl.
  - apply round_half_even_lower, Qle_refl.
Qed.

Lemma round_half_even_comp q q' : q == q' -> round_half_even q = round_half_even q'.
Proof.
  intros E. unfold round_half_even. rewrite (Qfloor_comp _ _ E).
  assert (E2 : q - inject_Z (Qfloor q') == q' - inject_Z (Qfloor q')) by (rewrite E; reflexivity).
  rewrite (Qcompare_comp _ _ E2 (1#2) (1#2) (Qeq_refl _)) by reflexivity.
  reflexivity.
Qed.

Lemma pow10_scale (k : Z) (p : positive) : (k # p) * inject_Z (Zpos p) == inject_Z k.
Proof. unfold Qeq, Qmult, inject_Z. simpl. lia. Qed.

Lemma Qround_dec_lower n (a : Z) q :
  (a # pow10 (S n)) <= q -> (a # pow10 (S n)) <= Qround_dec (S n) q.
Proof.
  intros H. unfold Qround_dec. set (p := pow10 (S n)) in *.
  assert (Ha : (a <= round_half_even (q * inject_Z (Zpos p)))%Z).
  { apply round_half_even_lower. rewrite <- (pow10_scale a p).
    apply Qmult_le_compat_r; [exact H | unfold Qle; simpl; lia]. }
  unfold Qle. simpl. nia.
Qed.

Lemma Qround_dec_upper n (b : Z) q :
  q <= (b # pow10 (S n)) -> Qround_dec (S n) q <= (b # pow10 (S n)).
Proof.
  intros H. unfold Qround_dec. set (p := pow10 (S n)) in *.
  assert (Hb : (round_half_even (q * inject_Z (Zpos p)) <= b)%Z).
  { apply round_half_even_upper. rewrite <- (pow10_scale b p).
    apply Qmult_le_compat_r; [exact H | unfold Qle; simpl; lia]. }
  unfold Qle. simpl. nia.
Qed.

Lemma fround_in_range n lo hi (a b : Z) x :
  lo == (a # pow10 (S n)) -> hi == (b # pow10 (S n)) ->
  in_range lo hi x -> in_range lo hi (fround (S n) x).
Proof.
  intros Ea Eb Hx. destruct x as [q | | |]; simpl in *; try tauto.
  destruct Hx as [H1 H2]. split.
  - rewrite Ea in *. now apply Qround_dec_lower.
  - rewrite Eb in *. now apply Qround_dec_upper.
Qed.


Lemma fround1_in_range_15_100 x : in_range 15 100 x -> in_range 15 100 (fround 1 x).
Proof. apply (fround_in_range 0 15 100 150 1000); reflexivity. Qed.


(** Rounding twice is rounding once. *)
Lemma Qround_dec_idem n q : Qround_dec (S n) (Qround_dec (S n) q) = Qround_dec (S n) q.
Proof.
  unfold Qround_dec at 1 3. f_equal. unfold Qround_dec.
  rewrite (round_half_even_comp _ _ (pow10_scale _ _)).
  apply round_half_even_Z.
Qed.

Lemma feq_refl x : feq x x.
Proof. destruct x; simpl; trivial. apply Qeq_refl. Qed.

Lemma rounded_to_fround n x : rounded_to (S n) (fround (S n) x).
Proof.
  unfold rounded_to. destruct x as [q | | |]; [| exact I ..].
  change (Qround_dec (S n) (Qround_dec (S n) q) == Qround_dec (S n) q).
  rewrite Qround_dec_idem. apply Qeq_refl.
Qed.

(* ===================================================================== *)
(** ** Properties of the frame operations *)
(* ===================================================================== *)

Lemma insert_sorted_perm {A} (leb : A -> A -> bool) x l :
  Permutation (insert_sorted leb x l) (x :: l).
Proof.
  induction l as [| y t IH]; simpl; [reflexivity |].
  destruct (leb x y); [reflexivity |].
  rewrite IH. apply perm_swap.
Qed.

Lemma sort_values_perm {A} (leb : A -> A -> bool) l : Permutation (sort_values leb l) l.
Proof.
  induction l as [| x t IH]; simpl; [reflexivity |].
  rewrite insert_sorted_perm. now constructor.
Qed.

Lemma sort_values_In {A} (leb : A -> A -> bool) l x : In x (sort_values leb l) <-> In x l.
Proof.
  split; apply Permutation_in; [| symmetry]; apply sort_values_perm.
Qed.

Lemma sort_values_length {A} (leb : A -> A -> bool) l :
  List.length (sort_values leb l) = List.length l.
Proof. apply Permutation_length, sort_values_perm. Qed.

Lemma sort_values_Forall {A} (P : A -> Prop) (leb : A -> A -> bool) l :
  Forall P l -> Forall P (sort_values leb l).
Proof.
  intros H. eapply Permutation_Forall; [symmetry; apply sort_values_perm | exact H].
Qed.

(** Sorting commutes with a projection that the order factors through. *)
Lemma insert_sorted_map {A B} (f : A -> B) (leA : A -> A -> bool) (leB : B -> B -> bool) x l :
  (forall a b, leA a b = leB (f a) (f b)) ->
  map f (insert_sorted leA x l) = insert_sorted leB (f x) (map f l).
Proof.
  intros H. induction l as [| y t IH]; simpl; [reflexivity |].
  rewrite <- H. destruct (leA x y); simpl; [reflexivity | now rewrite IH].
Qed.

Lemma sort_values_map {A B} (f : A -> B) (leA : A -> A -> bool) (leB : B -> B -> bool) l :
  (forall a b, leA a b = leB (f a) (f b)) ->
  map f (sort_values leA l) = sort_values leB (map f l).
Proof.
  intros H. induction l as [| x t IH]; simpl; [reflexivity |].
  rewrite (insert_sorted_map f leA leB) by exact H. now rewrite IH.
Qed.

Lemma values_reset_index {A} (l : list A) : values (reset_index l) = l.
Proof.
  unfold values, reset_index. generalize 0%nat.
  induction l as [| x t IH]; intros n; simpl; [reflexivity |].
  now rewrite IH.
Qed.

Lemma index_reset_index {A} (l : list A) : index (reset_index l) = seq 0 (List.length l).
Proof.
  unfold index, reset_index. generalize 0%nat.
  induction l as [| x t IH]; intros n; simpl; [reflexivity |].
  now rewrite IH.
Qed.

Lemma reset_index_length {A} (l : list A) : List.length (reset_index l) = List.length l.
Proof.
  unfold reset_index. rewrite length_combine, length_seq. apply Nat.min_id.
Qed.

(** *** groupby *)

Lemma sorted_unique_In keys k : In k (sorted_unique keys) <-> In k keys.
Proof.
  unfold sorted_unique. rewrite sort_values_In. apply nodup_In.
Qed.

Lemma sorted_unique_NoDup keys : NoDup (sorted_unique keys).
Proof.
  unfold sorted_unique.
  eapply Permutation_NoDup; [symmetry; apply sort_values_perm | apply NoDup_nodup].
Qed.

Lemma groupby_keys {A} (key : A -> string) rows :
  map fst (groupby key rows) = sorted_unique (map key rows).
Proof.
  unfold groupby. rewrite map_map. simpl. apply map_id.
Qed.

Lemma groupby_In {A} (key : A -> string) rows k g :
  In (k, g) (groupby key rows) ->
  In k (map key rows) /\ g = filter (fun r => String.eqb (key r) k) rows.
Proof.
  unfold groupby. rewrite in_map_iff. intros [k' [E Hk]].
  inversion E; subst. split; [now apply sorted_unique_In | reflexivity].
Qed.

Lemma groupby_nonempty {A} (key : A -> string) rows k g :
  In (k, g) (groupby key rows) -> g <> [].
Proof.
  intros H. apply groupby_In in H as [Hk ->].
  apply in_map_iff in Hk as [r [E Hr]].
  intros Hnil.
  assert (Hin : In r (filter (fun r => String.eqb (key r) k) rows)).
  { apply filter_In. split; [exact Hr | now apply String.eqb_eq]. }
  rewrite Hnil in Hin. contradiction.
Qed.

(** A key that occurs in the list [ks] of distinct keys is counted once. *)
Lemma indicator_sum (k : string) ks :
  NoDup ks -> In k ks ->
  fold_right Nat.add 0%nat (map (fun k' => if String.eqb k k' then 1 else 0)%nat ks) = 1%nat.
Proof.
  induction ks as [| x t IH]; intros Hnd Hin; [contradiction |].
  inversion Hnd as [| ? ? Hx Ht]; subst. simpl.
  destruct (String.eqb_spec k x) as [-> | Hne].
  - assert (Hz : fold_right Nat.add 0%nat
                   (map (fun k' => if String.eqb x k' then 1 else 0)%nat t) = 0%nat).
    { clear IH Ht Hnd Hin. induction t as [| y t IH]; simpl; [reflexivity |].
      destruct (String.eqb_spec x y) as [-> | _].
      - exfalso. apply Hx. now left.
      - apply IH. intros H. apply Hx. now right. }
    rewrite Hz. reflexivity.
  - destruct Hin as [-> | Hin]; [contradiction |]. now rewrite IH.
Qed.

Lemma fold_add_split {K} (f g : K -> nat) ks :
  fold_right Nat.add 0%nat (map (fun k => f k + g k)%nat ks)
  = (fold_right Nat.add 0%nat (map f ks) + fold_right Nat.add 0%nat (map g ks))%nat.
Proof. induction ks as [| k t IH]; simpl; [reflexivity | rewrite IH; lia]. Qed.

(** The groups partition the rows: their sizes add up to the number of rows. *)
Lemma group_sizes_sum {A} (key : A -> string) rows ks :
  NoDup ks -> (forall r, In r rows -> In (key r) ks) ->
  fold_right Nat.add 0%nat
    (map (fun k => List.length (filter (fun r => String.eqb (key r) k) rows)) ks)
  = List.length rows.
Proof.
  intros Hnd. induction rows as [| r t IH]; intros Hks.
  - simpl. clear Hnd Hks. induction ks as [| k ks IHk]; simpl; [reflexivity | exact IHk].
  - transitivity
      (fold_right Nat.add 0%nat
         (map (fun k => (if String.eqb (key r) k then 1 else 0)
                        + List.length (filter (fun r0 => String.eqb (key r0) k) t))%nat ks)).
    + f_equal. apply map_ext. intros k. simpl. now destruct (String.eqb (key r) k).
    + rewrite fold_add_split, indicator_sum, IH; simpl; auto.
      * intros r0 Hr0. apply Hks. now right.
      * apply Hks. now left.
Qed.

Lemma groupby_sizes {A} (key : A -> string) rows :
  fold_right Nat.add 0%nat (map (fun kg => List.length (snd kg)) (groupby key rows))
  = List.length rows.
Proof.
  unfold groupby. rewrite map_map. simpl.
  apply group_sizes_sum; [apply sorted_unique_NoDup |].
  intros r Hr. apply sorted_unique_In. now apply in_map.
Qed.

(* ===================================================================== *)
(** ** Labelers *)
(* ===================================================================== *)

Lemma fle_trans a b c : fle a b = true -> fle b c = true -> fle a c = true.
Proof.
  destruct a as [x | | |], b as [y | | |], c as [z | | |]; simpl;
    try discriminate; trivial.
  rewrite !Qle_bool_iff. apply Qle_trans.
Qed.

Lemma fge_mono t s1 s2 : fle s1 s2 = true -> fge s1 t = true -> fge s2 t = true.
Proof. unfold fge. intros H1 H2. exact (fle_trans _ _ _ H2 H1). Qed.

(** A two-threshold labeler, as all of them are written. *)
Lemma two_thresholds_monotone (lo hi : Q) (top mid low : option tier) s1 s2 :
  tier_opt_le low mid -> tier_opt_le mid top -> tier_opt_le low top ->
  fle s1 s2 = true ->
  tier_opt_le
    (if fge s1 (Fin hi) then top else if fge s1 (Fin lo) then mid else low)
    (if fge s2 (Fin hi) then top else if fge s2 (Fin lo) then mid else low).
Proof.
  intros Hlm Hmt Hlt Hle.
  assert (Rt : tier_opt_le top top) by (destruct top, mid; simpl in *; try tauto; red; lia).
  assert (Rm : tier_opt_le mid mid) by (destruct top, mid; simpl in *; try tauto; red; lia).
  assert (Rl : tier_opt_le low low) by (destruct low, mid; simpl in *; try tauto; red; lia).
  destruct (fge s1 (Fin hi)) eqn:E1.
  - now rewrite (fge_mono _ _ _ Hle E1).
  - destruct (fge s1 (Fin lo)) eqn:E2.
    + rewrite (fge_mono _ _ _ Hle E2). now destruct (fge s2 (Fin hi)).
    + destruct (fge s2 (Fin hi)); [exact Hlt |]. now destruct (fge s2 (Fin lo)).
Qed.

(** C4. Every labeler is monotone: for scores [s1 <= s2] judged against the
    same thresholds, the tier of [s2] is at least the tier of [s1]
    (NeedsImprovement <= Good <= Excellent), for the label and for the status
    of the school, hospital, park and urban models. *)
Theorem labelers_monotone (s1 s2 : float64) :
  fle s1 s2 = true ->
  Forall (fun labeler => tier_opt_le (labeler s1) (labeler s2)) labelers.
Proof.
  intros Hle. unfold labelers.
  repeat apply Forall_cons; try apply Forall_nil.
  - unfold School.score_to_label. by_two_thresholds two_thresholds_monotone 60 80 s1 s2.
  - unfold School.score_to_status. by_two_thresholds two_thresholds_monotone 60 80 s1 s2.
  - unfold Hospital.assign_label. by_two_thresholds two_thresholds_monotone 50 75 s1 s2.
  - unfold Hospital.assign_label. by_two_thresholds two_thresholds_monotone 50 75 s1 s2.
  - unfold Park.get_label_and_status. by_two_thresholds two_thresholds_monotone 40 75 s1 s2.
  - unfold Park.get_label_and_status. by_two_thresholds two_thresholds_monotone 40 75 s1 s2.
  - unfold Urban.score_to_label. by_two_thresholds two_thresholds_monotone 60 80 s1 s2.
  - unfold Urban.score_to_status. by_two_thresholds two_thresholds_monotone 60 80 s1 s2.
Qed.

(* ===================================================================== *)
(** ** Means and maxima of finite columns *)
(* ===================================================================== *)

Lemma dropna_values_fin l : dropna_values (map Fin l) = map Fin l.
Proof.
  unfold dropna_values. induction l as [| x t IH]; simpl; [reflexivity | now rewrite IH].
Qed.

Lemma fold_fadd_fin l a : exists s, fold_left fadd (map Fin l) (Fin a) = Fin s.
Proof.
  revert a. induction l as [| x t IH]; intros a; simpl; [now exists a | apply IH].
Qed.

Lemma Qsign_length_pos {A} (l : list A) :
  l <> [] -> Qsign (inject_Z (Z.of_nat (List.length l))) = Gt.
Proof.
  intros H. apply Qsign_pos. destruct l; [contradiction |].
  unfold Qlt, inject_Z. simpl. lia.
Qed.

Lemma fmean_fin l : l <> [] -> exists q, fmean (map Fin l) = Fin q.
Proof.
  intros H. destruct l as [| x t]; [contradiction |].
  unfold fmean. rewrite dropna_values_fin.
  destruct (fold_fadd_fin (x :: t) 0) as [s Hs].
  change (map Fin (x :: t)) with (Fin x :: map Fin t) in *.
  cbv beta iota. rewrite Hs. unfold fdiv, ofZ.
  rewrite Qsign_length_pos by discriminate. eauto.
Qed.


Lemma fold_fmax2_fin l a : exists m, fold_left fmax2 (map Fin l) (Fin a) = Fin m.
Proof.
  revert a. induction l as [| x t IH]; intros a; simpl; [now exists a |].
  unfold fmax2 at 2. simpl. destruct (Qle_bool a x); apply IH.
Qed.

Lemma fmax_fin l : l <> [] -> exists m, fmax (map Fin l) = Fin m.
Proof.
  intros H. unfold fmax. rewrite dropna_values_fin.
  destruct l as [| x t]; [contradiction |]. simpl. apply fold_fmax2_fin.
Qed.

Lemma py_or_fin_nonzero x d :
  ~ d == 0 -> isfinite x = true -> exists m, py_or x d = Fin m /\ ~ m == 0.
Proof.
  intros Hd Hx. destruct x as [q | | |]; try discriminate. simpl.
  destruct (Qeq_bool q 0) eqn:E.
  - now exists d.
  - exists q. split; [reflexivity |]. intros H. apply Qeq_bool_iff in H. congruence.
Qed.

Lemma fdiv_fin_nonzero a m : ~ m == 0 -> fdiv (Fin a) (Fin m) = Fin (a / m).
Proof.
  intros H. simpl. destruct (Qsign m) eqn:E; trivial.
  exfalso. now apply (Qsign_nonzero _ H).
Qed.

(* ===================================================================== *)
(** ** Hospital model: the index stays within 20 and 100 *)
(* ===================================================================== *)

Module HospitalFacts.
Import Hospital.

Lemma hospital_score_fin z : exists q, hospital_score z = Fin q.
Proof.
  unfold hospital_score.
  assert (H : in_range 0 40
            (clip (fmul (fdiv (fillna 0 (avg_hospitals_per_100k z)) (Fin 15)) (Fin 40)) 0 40)).
  { apply clip_in_range; [| lra]. apply scale_not_nan; [apply fillna_not_nan | lra | lra]. }
  apply in_range_fin in H as [q [-> _]]. simpl. eauto.
Qed.

Lemma bed_score_fin z : exists q, bed_score z = Fin q.
Proof.
  unfold bed_score.
  assert (H : in_range 0 30
            (clip (fmul (fdiv (fillna 0 (beds_per_100k z)) (Fin 800)) (Fin 30)) 0 30)).
  { apply clip_in_range; [| lra]. apply scale_not_nan; [apply fillna_not_nan | lra | lra]. }
  apply in_range_fin in H as [q [-> _]]. eauto.
Qed.

Lemma max_roads_nonzero grouped :
  grouped <> [] -> exists m, max_roads grouped = Fin m /\ ~ m == 0.
Proof.
  intros H. unfold max_roads. apply py_or_fin_nonzero; [lra |].
  rewrite <- (map_map total_roads_km Fin).
  destruct (fmax_fin (map total_roads_km grouped)) as [m ->]; [| reflexivity].
  destruct grouped; [contradiction | discriminate].
Qed.

Lemma road_score_fin grouped z : grouped <> [] -> exists q, road_score grouped z = Fin q.
Proof.
  intros H. unfold road_score.
  destruct (max_roads_nonzero grouped H) as [m [-> Hm]].
  rewrite fdiv_fin_nonzero by exact Hm. simpl. eauto.
Qed.

Lemma density_score_fin z : density_known z -> exists q, density_score z = Fin q.
Proof.
  intros Hz. unfold density_score.
  assert (H : in_range 0 15
            (clip (fmul (fdiv (avg_population_density z) (Fin 25000)) (Fin 15)) 0 15)).
  { apply clip_in_range; [| lra]. apply scale_not_nan; [exact Hz | lra | lra]. }
  apply in_range_fin in H as [q [-> _]]. eauto.
Qed.

Lemma base_index_range grouped z :
  grouped <> [] -> density_known z -> in_range 20 100 (base_index grouped z).
Proof.
  intros Hg Hz. unfold base_index.
  destruct (hospital_score_fin z) as [a ->], (bed_score_fin z) as [b ->],
    (road_score_fin grouped z Hg) as [c ->], (density_score_fin z Hz) as [d ->].
  apply clip_in_range; [reflexivity | lra].
Qed.

(** A masked assignment keeps the invariant when the assigned values do. *)
Lemma assign_hai_ok mask f grouped :
  Forall index_ok grouped ->
  (forall z, index_ok z -> mask z = true -> in_range 20 100 (f z)) ->
  Forall index_ok (assign_hai mask f grouped).
Proof.
  intros H Hf. unfold assign_hai. apply Forall_forall. intros z' Hin.
  apply in_map_iff in Hin as [z [<- Hz]].
  rewrite Forall_forall in H.
  destruct (mask z) eqn:E.
  - unfold index_ok. simpl. apply Hf; auto.
  - now apply H.
Qed.

Lemma scaled_clip_range x c lo hi :
  in_range 20 100 x -> 20 <= lo -> lo <= hi -> hi <= 100 ->
  in_range 20 100 (clip (fmul x (Fin c)) lo hi).
Proof.
  intros Hx H1 H2 H3. apply in_range_fin in Hx as [q [-> _]].
  apply (in_range_weaken lo hi); [exact H1 | exact H3 |].
  apply clip_in_range; [reflexivity | exact H2].
Qed.

Lemma find_index_ok p grouped c :
  Forall index_ok grouped -> find p grouped = Some c -> index_ok c.
Proof.
  intros H Hf. apply find_some in Hf as [Hin _].
  rewrite Forall_forall in H. now apply H.
Qed.

Lemma adjust_central_ok grouped : Forall index_ok grouped -> Forall index_ok (adjust_central grouped).
Proof.
  intros H. unfold adjust_central.
  destruct (find (name_is "Central") grouped) as [c |] eqn:E; [| exact H].
  pose proof (find_index_ok _ _ _ H E) as Hc.
  destruct (_ && _); apply assign_hai_ok; try exact H; intros z _ _.
  - simpl. lra.
  - apply scaled_clip_range; [exact Hc | lra ..].
Qed.

Lemma adjust_scaled_ok name limit factor lo hi grouped :
  20 <= lo -> lo <= hi -> hi <= 100 ->
  Forall index_ok grouped -> Forall index_ok (adjust_scaled name limit factor lo hi grouped).
Proof.
  intros H1 H2 H3 H. unfold adjust_scaled.
  destruct (find (name_is name) grouped) as [c |] eqn:E; [| exact H].
  pose proof (find_index_ok _ _ _ H E) as Hc.
  destruct (_ >? _)%Z; [| exact H].
  apply assign_hai_ok; [exact H |]. intros z _ _. now apply scaled_clip_range.
Qed.

Lemma adjust_new_delhi_ok grouped :
  Forall index_ok grouped -> Forall index_ok (adjust_new_delhi grouped).
Proof.
  intros H. unfold adjust_new_delhi.
  destruct (find (name_is "New Delhi") grouped) as [c |] eqn:E; [| exact H].
  pose proof (find_index_ok _ _ _ H E) as Hc.
  apply assign_hai_ok; [exact H |]. intros z _ _. apply scaled_clip_range; [exact Hc | lra ..].
Qed.





Lemma label_zones_index grouped :
  map health_access_index (label_zones grouped) = map health_access_index grouped.
Proof. unfold label_zones. rewrite map_map. reflexivity. Qed.


End HospitalFacts.


(* ===================================================================== *)
(** ** Park model: park_names and scores through the pipeline *)
(* ===================================================================== *)

Module ParkFacts.
Import Park.

Lemma assign_score_names mask f df : park_names (assign_score mask f df) = park_names df.
Proof.
  unfold park_names, assign_score. rewrite map_map. apply map_ext.
  intros r. now destruct (mask r).
Qed.

Lemma assign_score_index mask f df : index (assign_score mask f df) = index df.
Proof.
  unfold index, assign_score. rewrite map_map. apply map_ext.
  intros r. now destruct (mask r).
Qed.

Lemma assign_score_length mask f df : List.length (assign_score mask f df) = List.length df.
Proof. unfold assign_score. apply length_map. Qed.

(** The guard [if mask.any()] changes nothing: an assignment through an
    empty mask is the identity. *)
Lemma assign_score_guard mask f df :
  (if existsb mask df then assign_score mask f df else df) = assign_score mask f df.
Proof.
  destruct (existsb mask df) eqn:E; [reflexivity |].
  unfold assign_score. rewrite <- (map_id df) at 1. apply map_ext_in.
  intros r Hr. destruct (mask r) eqn:Em; [| reflexivity].
  assert (existsb mask df = true) by (apply existsb_exists; eauto). congruence.
Qed.

Lemma set_if_first_names mask cond v df : park_names (set_if_first mask cond v df) = park_names df.
Proof.
  unfold set_if_first. destruct (find mask (values df)); [| reflexivity].
  destruct (cond z); [apply assign_score_names | reflexivity].
Qed.

Lemma tier_adjust_names df : park_names (tier_adjust df) = park_names df.
Proof.
  unfold tier_adjust. cbv zeta.
  rewrite !assign_score_guard.
  match goal with |- park_names (assign_score _ _ ?d) = _ => rewrite assign_score_names end.
  match goal with
  | |- park_names (match ?m with [] => ?a | _ :: _ => ?b end) = _ =>
      destruct m; [| rewrite assign_score_names]; apply assign_score_names
  end.
Qed.

Lemma rescale_to_target_names df : park_names (rescale_to_target df) = park_names df.
Proof.
  unfold rescale_to_target. cbv zeta.
  destruct (Nat.ltb 0 _); [| reflexivity].
  destruct (fgt (fmean _) (Fin 0)); destruct (fgt (fabs _) (Fin 0.1));
    rewrite ?assign_score_names; reflexivity.
Qed.

Lemma force_protected_names df : park_names (force_protected df) = park_names df.
Proof.
  unfold force_protected. rewrite !assign_score_guard. now rewrite !assign_score_names.
Qed.

Lemma apply_adjust_area_view G df st :
  map park_view (fst (apply_rows (adjust_area G) df st)) = map park_view df.
Proof.
  revert st. induction df as [| r t IH]; intros st; simpl; [reflexivity |].
  destruct (adjust_area G r st) as [r' st1] eqn:E.
  specialize (IH st1). destruct (apply_rows (adjust_area G) t st1) as [t' st2].
  simpl in *. rewrite IH. f_equal.
  unfold adjust_area in E. destruct (protected_mask (snd r)).
  - now inversion E.
  - destruct (calculate_realistic_park_area G _ _ st) as [a s1]. now inversion E.
Qed.

Lemma names_of_view df : park_names df = map (fun v => snd (fst v)) (map park_view df).
Proof. unfold park_names. now rewrite map_map. Qed.

Lemma scores_of_view df : scores df = map snd (map park_view df).
Proof. unfold scores. now rewrite map_map. Qed.

Lemma view_names df df' : map park_view df = map park_view df' -> park_names df = park_names df'.
Proof. intros H. now rewrite !names_of_view, H. Qed.

Lemma view_scores df df' : map park_view df = map park_view df' -> scores df = scores df'.
Proof. intros H. now rewrite !scores_of_view, H. Qed.

Lemma names_sort leb (df : frame Zone) : Permutation (park_names (sort_values leb df)) (park_names df).
Proof. unfold park_names. apply Permutation_map, sort_values_perm. Qed.

(** The park_names of the frame that leaves [adjust_for_ui_expectations]. *)
Lemma adjust_names G zones_df st :
  Permutation (park_names (fst (adjust_for_ui_expectations G zones_df st))) (park_names zones_df).
Proof.
  unfold adjust_for_ui_expectations.
  rewrite (view_names _ _ (apply_adjust_area_view G _ st)).
  rewrite force_protected_names, rescale_to_target_names, tier_adjust_names.
  rewrite names_sort. now rewrite !set_if_first_names.
Qed.

(** After the last step of the adjustment the two protected zones hold
    their fixed scores. *)
Lemma force_protected_forced df r :
  In r (force_protected df) -> forced (zone_name (snd r)) (predicted_coverage_score (snd r)).
Proof.
  unfold force_protected. rewrite !assign_score_guard.
  unfold assign_score. intros Hin.
  apply in_map_iff in Hin as [r1 [<- Hin]].
  apply in_map_iff in Hin as [r0 [<- _]].
  unfold on_row, east_zone1_mask, newdelhi_mask, name_is, forced.
  destruct (String.eqb_spec (zone_name (snd r0)) "East Zone 1") as [E | NE]; cbn [fst snd].
  - cbn. rewrite E. cbn. split; [reflexivity | intros H; rewrite E in H; discriminate H].
  - destruct (String.eqb_spec (zone_name (snd r0)) "New Delhi") as [E2 | NE2]; cbn.
    + split; [intros; congruence | reflexivity].
    + split; intros; congruence.
Qed.

Lemma adjust_forced G zones_df st r :
  In r (fst (adjust_for_ui_expectations G zones_df st)) ->
  forced (zone_name (snd r)) (predicted_coverage_score (snd r)).
Proof.
  unfold adjust_for_ui_expectations. intros Hin.
  apply (in_map park_view) in Hin. rewrite apply_adjust_area_view in Hin.
  apply in_map_iff in Hin as [r0 [E Hr0]].
  apply force_protected_forced in Hr0.
  assert (E2 : zone_name (snd r0) = zone_name (snd r)) by (unfold park_view in E; congruence).
  assert (E3 : predicted_coverage_score (snd r0) = predicted_coverage_score (snd r))
    by (unfold park_view in E; congruence).
  now rewrite <- E2, <- E3.
Qed.

(** The steps after the adjustment: labels, index columns, zone ids. *)
Lemma assign_labels_view df : map park_view (assign_labels df) = map park_view df.
Proof. unfold assign_labels. rewrite map_map. reflexivity. Qed.

Lemma urban_green_balance_view df :
  map park_view (fst (calculate_urban_green_balance_index df)) = map park_view df.
Proof. unfold calculate_urban_green_balance_index. cbn [fst]. rewrite map_map. reflexivity. Qed.

Lemma name_score_of_view df : map name_score (values df) = map (fun v => (snd (fst v), snd v)) (map park_view df).
Proof. unfold values. now rewrite !map_map. Qed.

Lemma create_zone_ids_name_score df :
  map name_score (values (create_zone_ids df))
  = map name_score (sort_values (by_score_desc predicted_coverage_score) (values df)).
Proof.
  unfold create_zone_ids.
  set (sorted := sort_values _ (values df)).
  rewrite <- (values_reset_index sorted) at 2.
  unfold values. rewrite !map_map. apply map_ext. now intros [i z].
Qed.

Lemma result_rows_name_score G zones_df st :
  Permutation
    (map (fun r => (r_zone_name r, r_predicted_coverage_score r)) (fst (predictions G zones_df st)))
    (map (fun z => (zone_name z, fround 1 (predicted_coverage_score z)))
         (values (fst (adjust_for_ui_expectations G (calculate_park_coverage_score zones_df) st)))).
Proof.
  unfold predictions.
  destruct (adjust_for_ui_expectations G _ st) as [df st1]. cbn [fst].
  destruct (calculate_urban_green_balance_index (assign_labels df)) as [df4 ugbi] eqn:E4.
  cbn [fst].
  rewrite (Permutation_map _ (sort_values_perm _ _)).
  rewrite map_map. cbn [r_zone_name r_predicted_coverage_score result_of].
  rewrite <- (map_map name_score (fun p => (fst p, fround 1 (snd p)))).
  rewrite create_zone_ids_name_score.
  rewrite (Permutation_map _ (Permutation_map _ (sort_values_perm _ _))).
  rewrite name_score_of_view.
  replace df4 with (fst (calculate_urban_green_balance_index (assign_labels df)))
    by (now rewrite E4).
  rewrite urban_green_balance_view, assign_labels_view.
  rewrite <- name_score_of_view, map_map. reflexivity.
Qed.

(** The exported rows carry the zone names of the aggregated frame. *)
Lemma result_rows_names G zones_df st :
  Permutation (map Park.r_zone_name (fst (Park.predictions G zones_df st)))
              (map Park.zone_name (values zones_df)).
Proof.
  pose proof (result_rows_name_score G zones_df st) as HP.
  apply (Permutation_map fst) in HP. rewrite !map_map in HP. cbn [fst] in HP.
  rewrite HP.
  change (map (fun x => Park.zone_name x) (values ?d)) with (map Park.zone_name (values d)).
  unfold values. rewrite map_map.
  fold (park_names (fst (Park.adjust_for_ui_expectations G
                                (Park.calculate_park_coverage_score zones_df) st))).
  rewrite adjust_names.
  unfold park_names, Park.calculate_park_coverage_score.
  rewrite !map_map. apply Permutation_refl'. apply map_ext. now intros [i z].
Qed.

End ParkFacts.

(** C9. In the park model the exported table has the zones of the
    aggregated frame, and in it a zone named 'East Zone 1' has the score
    95.0 and a zone named 'New Delhi' the score 44.0, whatever the scoring
    formula and the rescaling passes computed for them. *)
Theorem park_protected_scores_forced (G : Generator) (zones_df : frame Park.Zone)
    (st : rstate G) :
  Permutation (map Park.r_zone_name (fst (Park.predictions G zones_df st)))
              (map Park.zone_name (values zones_df))
  /\ forall r, In r (fst (Park.predictions G zones_df st)) ->
       (Park.r_zone_name r = "East Zone 1" ->
        feq (Park.r_predicted_coverage_score r) (Fin 95))
       /\ (Park.r_zone_name r = "New Delhi" ->
           feq (Park.r_predicted_coverage_score r) (Fin 44)).
Proof.
  pose proof (ParkFacts.result_rows_name_score G zones_df st) as HP.
  split.
  - apply ParkFacts.result_rows_names.
  - intros r Hr.
    apply (in_map (fun r => (Park.r_zone_name r, Park.r_predicted_coverage_score r))) in Hr.
    apply (Permutation_in _ HP) in Hr.
    apply in_map_iff in Hr as [z [E Hz]].
    unfold values in Hz. apply in_map_iff in Hz as [r0 [<- Hr0]].
    apply ParkFacts.adjust_forced in Hr0 as [H95 H44].
    inversion E as [[En Es]]. rewrite <- Es, <- En in *.
    split; intros Hn.
    + rewrite (H95 Hn). simpl. reflexivity.
    + rewrite (H44 Hn). simpl. reflexivity.
Qed.

(* ===================================================================== *)
(** ** Park model: the scores do not depend on the generator *)
(* ===================================================================== *)

Module ParkDeterminism.
Import Park.

Lemma apply_adjust_area_erase G df st :
  erase_area (fst (apply_rows (adjust_area G) df st)) = erase_area df.
Proof.
  revert st. induction df as [| r t IH]; intros st; simpl; [reflexivity |].
  destruct (adjust_area G r st) as [r' st1] eqn:E.
  specialize (IH st1). destruct (apply_rows (adjust_area G) t st1) as [t' st2].
  simpl in *. rewrite IH. f_equal.
  unfold adjust_area in E. destruct (protected_mask (snd r)).
  - now inversion E.
  - destruct (calculate_realistic_park_area G _ _ st) as [a s1]. now inversion E.
Qed.

Lemma adjust_erase G zones_df st :
  erase_area (fst (adjust_for_ui_expectations G zones_df st))
  = erase_area (adjusted_scores zones_df).
Proof. unfold adjust_for_ui_expectations. apply apply_adjust_area_erase. Qed.

Lemma assign_labels_erase df : erase_area (assign_labels df) = assign_labels (erase_area df).
Proof. unfold erase_area, assign_labels. rewrite !map_map. reflexivity. Qed.

Lemma scores_erase df : scores (erase_area df) = scores df.
Proof. unfold scores, erase_area. rewrite map_map. reflexivity. Qed.

Lemma urban_green_balance_erase df :
  erase_area (fst (calculate_urban_green_balance_index df))
  = fst (calculate_urban_green_balance_index (erase_area df)).
Proof.
  unfold calculate_urban_green_balance_index. cbn [fst]. rewrite scores_erase.
  unfold erase_area. rewrite !map_map. reflexivity.
Qed.

Lemma reset_index_map {A B} (f : A -> B) (l : list A) :
  reset_index (map f l) = map (fun r => (fst r, f (snd r))) (reset_index l).
Proof.
  unfold reset_index. rewrite length_map. generalize 0%nat.
  induction l as [| x t IH]; intros n; simpl; [reflexivity | now rewrite IH].
Qed.

Lemma create_zone_ids_erase df :
  erase_area (create_zone_ids df) = create_zone_ids (erase_area df).
Proof.
  unfold create_zone_ids, erase_area, values. rewrite !map_map. cbn [snd].
  rewrite <- (map_map snd (fun z => set_area z 0)).
  rewrite <- (sort_values_map (fun z => set_area z 0)
                (by_score_desc predicted_coverage_score)
                (by_score_desc predicted_coverage_score)) by reflexivity.
  rewrite reset_index_map, map_map. reflexivity.
Qed.

Lemma result_of_erase df :
  map (fun z => park_score_part (result_of z)) (values (erase_area df))
  = map (fun z => park_score_part (result_of z)) (values df).
Proof. unfold values, erase_area. rewrite !map_map. reflexivity. Qed.

Lemma predictions_score_part G zones_df st :
  map park_score_part (fst (predictions G zones_df st))
  = sort_values by_part_score_desc
      (map (fun z => park_score_part (result_of z))
         (values (create_zone_ids
                    (fst (calculate_urban_green_balance_index
                            (assign_labels
                               (erase_area (adjusted_scores
                                              (calculate_park_coverage_score zones_df))))))))).
Proof.
  unfold predictions.
  pose proof (adjust_erase G (calculate_park_coverage_score zones_df) st) as HE.
  destruct (adjust_for_ui_expectations G _ st) as [df st1]. cbn [fst] in *.
  destruct (calculate_urban_green_balance_index (assign_labels df)) as [df4 ugbi] eqn:E4.
  cbn [fst].
  rewrite (sort_values_map park_score_part by_result_score_desc by_part_score_desc)
    by reflexivity.
  rewrite map_map. f_equal.
  rewrite <- HE, <- assign_labels_erase, <- urban_green_balance_erase,
    <- create_zone_ids_erase, result_of_erase.
  now rewrite E4.
Qed.

End ParkDeterminism.

(* ===================================================================== *)
(** ** School model: locator and aggregator *)
(* ===================================================================== *)

Section LocatorFacts.
Import School.
Variable Polygon : Type.
Variable within : float64 * float64 -> Polygon -> bool.
Variable distance : float64 * float64 -> Polygon -> Q.
Variable lib : option (frame (float64 * float64) -> list (AdminZone Polygon)
                       -> frame (option string * option string)).

Abbreviation sjoin := (sjoin Polygon within).
Abbreviation join := (spatial_join_schools_to_zones Polygon within distance lib).
Abbreviation before_dropna := (before_dropna within distance lib).

Lemma disjoint_at_most_one admin_gdf p :
  disjoint_interiors within admin_gdf ->
  (List.length (filter (fun z => within p (zone_geometry Polygon z)) admin_gdf) <= 1)%nat.
Proof.
  unfold disjoint_interiors. induction 1 as [| z t Hz Ht IH]; simpl; [lia |].
  destruct (within p (zone_geometry Polygon z)) eqn:E; [| exact IH].
  assert (Hnone : filter (fun z0 => within p (zone_geometry Polygon z0)) t = []).
  { clear IH Ht. induction t as [| y t IHt]; simpl; [reflexivity |].
    inversion Hz as [| ? ? Hy Hrest]; subst.
    specialize (Hy p). rewrite E in Hy. simpl in Hy. rewrite Hy. now apply IHt. }
  rewrite Hnone. simpl. lia.
Qed.

Lemma flat_map_one_each {A B} (f : nat * A -> list (nat * B)) (l : list (nat * A)) :
  (forall r, map fst (f r) = [fst r]) -> map fst (flat_map f l) = map fst l.
Proof.
  intros H. induction l as [| r t IH]; [reflexivity |].
  cbn [flat_map map]. now rewrite map_app, IH, H.
Qed.

(** With disjoint zones the join has one row per school, in order. *)
Lemma sjoin_index schools_gdf admin_gdf :
  disjoint_interiors within admin_gdf ->
  index (sjoin schools_gdf admin_gdf) = index schools_gdf.
Proof.
  intros Hd. unfold School.sjoin, index. apply flat_map_one_each. intros r.
  pose proof (disjoint_at_most_one admin_gdf (geometry (snd r)) Hd) as Hle.
  destruct (filter _ admin_gdf) as [| z [| z' zs]]; simpl in *; try reflexivity; lia.
Qed.

Lemma set_zone_index idx zid zname df : index (set_zone idx zid zname df) = index df.
Proof.
  unfold index, set_zone. rewrite map_map. apply map_ext.
  intros r. now destruct (Nat.eqb (fst r) idx).
Qed.

Lemma assign_by_position_index outside_index i nearest df :
  index (assign_by_position outside_index i nearest df) = index df.
Proof.
  revert i df. induction outside_index as [| idx rest IH]; intros i df; simpl; [reflexivity |].
  rewrite IH. destruct (nth_error nearest i) as [[? [? ?]] |]; [apply set_zone_index | reflexivity].
Qed.

Lemma assign_nearest_index outside admin_gdf df :
  index (assign_nearest Polygon distance outside admin_gdf df) = index df.
Proof.
  revert df. induction outside as [| r rest IH]; intros df; simpl; [reflexivity |].
  destruct (nearest_scan _ _ _ _ _ _ _) as [zid zname]. rewrite IH. apply set_zone_index.
Qed.

Lemma rows_of_index i (df : frame Joined) : rows_of i df = count_occ Nat.eq_dec (index df) i.
Proof.
  unfold rows_of, index. induction df as [| r t IH]; simpl; [reflexivity |].
  destruct (Nat.eqb_spec (fst r) i) as [E | NE]; destruct (Nat.eq_dec (fst r) i);
    simpl; try contradiction; now rewrite IH.
Qed.

Lemma rows_of_filter p i (df : frame Joined) : (rows_of i (filter p df) <= rows_of i df)%nat.
Proof.
  unfold rows_of. induction df as [| r t IH]; simpl; [lia |].
  destruct (p r); simpl; destruct (Nat.eqb (fst r) i); simpl; lia.
Qed.

Lemma join_unfold schools_gdf admin_gdf use_nearest :
  join schools_gdf admin_gdf use_nearest
  = dropna_zone (before_dropna schools_gdf admin_gdf use_nearest).
Proof. reflexivity. Qed.

Lemma before_dropna_rows schools_gdf admin_gdf use_nearest i :
  disjoint_interiors within admin_gdf ->
  (rows_of i (before_dropna schools_gdf admin_gdf use_nearest)
   <= count_occ Nat.eq_dec (index schools_gdf) i)%nat.
Proof.
  intros Hd. unfold before_dropna. cbv zeta.
  rewrite <- (sjoin_index schools_gdf admin_gdf Hd), <- rows_of_index.
  destruct (filter (fun r => negb (has_zone r)) _) as [| o os]; [lia |].
  destruct use_nearest.
  - destruct lib as [f |]; rewrite !rows_of_index;
      [rewrite assign_by_position_index | rewrite assign_nearest_index]; lia.
  - apply rows_of_filter.
Qed.

(** At most one zone per school. *)
Lemma join_at_most_one schools_gdf admin_gdf use_nearest i :
  NoDup (index schools_gdf) ->
  disjoint_interiors within admin_gdf ->
  (rows_of i (join schools_gdf admin_gdf use_nearest) <= 1)%nat.
Proof.
  intros Hnd Hd. rewrite join_unfold.
  pose proof (rows_of_filter has_zone i (before_dropna schools_gdf admin_gdf use_nearest)).
  pose proof (before_dropna_rows schools_gdf admin_gdf use_nearest i Hd).
  pose proof (proj1 (NoDup_count_occ Nat.eq_dec (index schools_gdf)) Hnd i).
  unfold dropna_zone. lia.
Qed.

Lemma covered_outside df :
  covered (index (filter (fun r => negb (has_zone r)) df)) df.
Proof.
  intros r Hr. destruct (has_zone r) eqn:E; [now left | right].
  unfold index. apply in_map. apply filter_In. now rewrite E.
Qed.

Lemma set_zone_covered idx z zname labels df :
  covered (idx :: labels) df -> covered labels (set_zone idx (Some z) zname df).
Proof.
  intros H r' Hr'. unfold set_zone in Hr'. apply in_map_iff in Hr' as [r [<- Hr]].
  destruct (Nat.eqb_spec (fst r) idx) as [E | NE]; [now left |].
  destruct (H r Hr) as [Hz | [Hi | Hi]]; [now left | congruence | now right].
Qed.

Lemma covered_nil df : covered [] df -> dropna_zone df = df.
Proof.
  intros H. unfold dropna_zone. induction df as [| r t IH]; [reflexivity |].
  simpl. destruct (H r (or_introl eq_refl)) as [-> | []].
  f_equal. apply IH. intros r' Hr'. apply H. now right.
Qed.

Lemma nearest_scan_found p zones min_dist nid nname :
  nid <> None \/ (min_dist = PInf /\ zones <> []) ->
  fst (nearest_scan Polygon distance p zones min_dist nid nname) <> None.
Proof.
  revert min_dist nid nname. induction zones as [| z rest IH]; intros min_dist nid nname H.
  - simpl. destruct H as [H | [_ H]]; [exact H | contradiction].
  - cbn [nearest_scan].
    destruct (flt (Fin (distance p (zone_geometry Polygon z))) min_dist) eqn:E.
    + apply IH. left. discriminate.
    + apply IH. destruct H as [H | [-> _]]; [now left | discriminate E].
Qed.

Lemma assign_nearest_covered outside admin_gdf df :
  admin_gdf <> [] -> covered (index outside) df ->
  covered [] (assign_nearest Polygon distance outside admin_gdf df).
Proof.
  intros Ha. revert df. induction outside as [| r rest IH]; intros df H; [exact H |].
  simpl.
  pose proof (nearest_scan_found (geometry (school (snd r))) admin_gdf PInf None None
                (or_intror (conj eq_refl Ha))) as Hf.
  destruct (nearest_scan _ _ _ _ _ _ _) as [[z |] zname]; [| now contradiction Hf].
  apply IH. now apply set_zone_covered.
Qed.

Lemma assign_by_position_covered outside_index i nearest df :
  (i + List.length outside_index <= List.length nearest)%nat ->
  Forall (fun r : nat * (option string * option string) => fst (snd r) <> None) nearest ->
  covered outside_index df ->
  covered [] (assign_by_position outside_index i nearest df).
Proof.
  intros Hlen Hn. revert i df Hlen.
  induction outside_index as [| idx rest IH]; intros i df Hlen H; [exact H |].
  simpl in *.
  destruct (nth_error nearest i) as [[l [zid zname]] |] eqn:E.
  - assert (Hz : zid <> None).
    { apply nth_error_In in E. rewrite Forall_forall in Hn. exact (Hn _ E). }
    destruct zid as [z |]; [| contradiction].
    apply IH; [lia | now apply set_zone_covered].
  - apply nth_error_None in E. lia.
Qed.

(** In nearest mode, and with a zone to assign to, no school is left
    without a zone. *)
Lemma nearest_keeps_all schools_gdf admin_gdf :
  admin_gdf <> [] -> sjoin_nearest_total lib ->
  covered [] (before_dropna schools_gdf admin_gdf true).
Proof.
  intros Ha Hlib. unfold before_dropna. cbv zeta.
  pose proof (covered_outside (sjoin schools_gdf admin_gdf)) as Hc.
  destruct (filter (fun r => negb (has_zone r)) (sjoin schools_gdf admin_gdf))
    as [| o os] eqn:Eo; [exact Hc |].
  destruct lib as [f |].
  - destruct (Hlib (map (fun r => (fst r, geometry (school (snd r)))) (o :: os)) admin_gdf Ha)
      as [Hlen Hall].
    apply assign_by_position_covered; [| exact Hall | exact Hc].
    unfold index. rewrite length_map in *. simpl in *. lia.
  - now apply assign_nearest_covered.
Qed.

Lemma before_dropna_index_nearest schools_gdf admin_gdf :
  disjoint_interiors within admin_gdf ->
  index (before_dropna schools_gdf admin_gdf true) = index schools_gdf.
Proof.
  intros Hd. unfold before_dropna. cbv zeta.
  destruct (filter (fun r => negb (has_zone r)) _) as [| o os].
  - now apply sjoin_index.
  - destruct lib; [rewrite assign_by_position_index | rewrite assign_nearest_index];
      now apply sjoin_index.
Qed.

(** Exactly one zone per school in nearest mode. *)
Lemma join_exactly_one schools_gdf admin_gdf i :
  NoDup (index schools_gdf) ->
  disjoint_interiors within admin_gdf ->
  admin_gdf <> [] -> sjoin_nearest_total lib ->
  In i (index schools_gdf) ->
  rows_of i (join schools_gdf admin_gdf true) = 1%nat.
Proof.
  intros Hnd Hd Ha Hlib Hi. rewrite join_unfold.
  rewrite (covered_nil _ (nearest_keeps_all schools_gdf admin_gdf Ha Hlib)).
  rewrite rows_of_index, before_dropna_index_nearest by exact Hd.
  pose proof (proj1 (NoDup_count_occ Nat.eq_dec (index schools_gdf)) Hnd i).
  pose proof (proj1 (count_occ_In Nat.eq_dec (index schools_gdf) i) Hi).
  lia.
Qed.
End LocatorFacts.

(** *** The aggregator counts every assigned school once *)

Lemma Zsum_of_nat {A} (f : A -> nat) l :
  Zsum (map (fun x => Z.of_nat (f x)) l) = Z.of_nat (fold_right Nat.add 0%nat (map f l)).
Proof. induction l as [| x t IH]; simpl; [reflexivity | rewrite IH; lia]. Qed.

Lemma filter_all {A} (p : A -> bool) l : Forall (fun x => p x = true) l -> filter p l = l.
Proof. induction 1 as [| x t Hx Ht IH]; simpl; [reflexivity | now rewrite Hx, IH]. Qed.

Lemma dropna_zone_idem df : School.dropna_zone (School.dropna_zone df) = School.dropna_zone df.
Proof.
  unfold School.dropna_zone. apply filter_all. apply Forall_forall.
  intros r Hr. now apply filter_In in Hr.
Qed.

Lemma aggregate_counts (joined : frame School.Joined) :
  Forall (fun r => School.has_zone r = true) joined ->
  Forall (fun r => School.has_id (snd r) = true) joined ->
  Zsum (map School.num_schools (School.aggregate_schools_to_zones joined))
  = Z.of_nat (List.length joined).
Proof.
  intros Hz Hid. unfold School.aggregate_schools_to_zones.
  unfold School.dropna_zone. rewrite (filter_all _ _ Hz).
  rewrite map_map.
  transitivity (Zsum (map (fun kg : string * list School.Joined =>
                             Z.of_nat (List.length (snd kg)))
                          (groupby School.key_of (values joined)))).
  - f_equal. apply map_ext_in. intros [zid g] Hin. cbn.
    unfold count_if. f_equal. f_equal. apply filter_all.
    apply groupby_In in Hin as [_ ->]. apply Forall_forall. intros r Hr.
    apply filter_In in Hr as [Hr _]. unfold values in Hr.
    apply in_map_iff in Hr as [r0 [<- Hr0]].
    rewrite Forall_forall in Hid. now apply Hid.
  - rewrite Zsum_of_nat, groupby_sizes. unfold values. now rewrite length_map.
Qed.

(* ===================================================================== *)
(** ** School model: loading *)
(* ===================================================================== *)


Lemma filter_map_comm {A B} (f : A -> B) (p : B -> bool) l :
  filter p (map f l) = map f (filter (fun x => p (f x)) l).
Proof.
  induction l as [| x t IH]; simpl; [reflexivity |].
  destruct (p (f x)); simpl; now rewrite IH.
Qed.


Lemma reset_index_nth {A} (l : list A) i x :
  In (i, x) (reset_index l) <-> nth_error l i = Some x.
Proof.
  unfold reset_index.
  assert (H : forall n, In (i, x) (combine (seq n (List.length l)) l)
                        <-> (n <= i)%nat /\ nth_error l (i - n) = Some x).
  { induction l as [| y t IH]; intros n; simpl.
    - split; [tauto | intros [_ H]; now destruct (i - n)%nat].
    - rewrite IH. split.
      + intros [E | [Hle Hn]].
        * inversion E; subst. split; [lia |]. now rewrite Nat.sub_diag.
        * split; [lia |]. replace (i - n)%nat with (S (i - S n)) by lia. exact Hn.
      + intros [Hle Hn]. destruct (Nat.eq_dec n i) as [-> | NE].
        * left. rewrite Nat.sub_diag in Hn. simpl in Hn. congruence.
        * right. split; [lia |].
          replace (i - n)%nat with (S (i - S n)) in Hn by lia. exact Hn. }
  rewrite H, Nat.sub_0_r. split; [tauto | intros; split; [lia | assumption]].
Qed.


(* ===================================================================== *)
(** ** Which zones the aggregators list *)
(* ===================================================================== *)

Lemma school_aggregate_ids (joined : frame School.Joined) :
  map School.s_zone_id (School.aggregate_schools_to_zones joined)
  = sorted_unique (map School.key_of (values (School.dropna_zone joined))).
Proof.
  unfold School.aggregate_schools_to_zones. rewrite <- groupby_keys, map_map.
  apply map_ext. now intros [zid g].
Qed.

Lemma school_aggregate_zone (joined : frame School.Joined) zid :
  In zid (map School.s_zone_id (School.aggregate_schools_to_zones joined))
  <-> exists r, In r joined /\ School.j_zone_id (snd r) = Some zid.
Proof.
  rewrite school_aggregate_ids, sorted_unique_In, in_map_iff. unfold values.
  split.
  - intros [j [E Hj]]. apply in_map_iff in Hj as [r [<- Hr]].
    apply filter_In in Hr as [Hr Hz]. exists r. split; [exact Hr |].
    unfold School.has_zone in Hz. unfold School.key_of in E.
    destruct (School.j_zone_id (snd r)); [now subst | discriminate].
  - intros [r [Hr E]]. exists (snd r). split.
    + unfold School.key_of. now rewrite E.
    + apply in_map. apply filter_In. split; [exact Hr |].
      unfold School.has_zone. now rewrite E.
Qed.

Lemma park_aggregate_names (cells_df : frame Park.SubCell) :
  map Park.zone_name (values (Park.aggregate_to_zones cells_df))
  = sorted_unique (map snd (values cells_df)).
Proof.
  unfold Park.aggregate_to_zones. rewrite values_reset_index, <- groupby_keys, map_map.
  apply map_ext. now intros [name g].
Qed.

Lemma Zsum_zero l : Forall (fun z => z = 0%Z) l -> Zsum l = 0%Z.
Proof. induction 1 as [| x t Hx Ht IH]; simpl; [reflexivity | lia]. Qed.

Lemma park_zone_of_group (cells_df : frame Park.SubCell) z :
  In z (values (Park.aggregate_to_zones cells_df)) ->
  z = Park.aggregate_group (Park.zone_name z)
        (map fst (filter (fun c => String.eqb (snd c) (Park.zone_name z)) (values cells_df))).
Proof.
  unfold Park.aggregate_to_zones. rewrite values_reset_index.
  intros Hin. apply in_map_iff in Hin as [[name g] [<- Hg]].
  apply groupby_In in Hg as [_ ->]. reflexivity.
Qed.

Lemma parks_per_km2_no_parks area : feq (Park.parks_per_km2_of 0 area) (Fin 0).
Proof.
  unfold Park.parks_per_km2_of, ofZ, fdiv.
  destruct (Qsign area) eqn:E; simpl;
    try (unfold Qdiv; rewrite Qmult_0_l; reflexivity).
  reflexivity.
Qed.

(** C5 (amended). The aggregator lists exactly the zones that received
    something: the school frame has one row per zone id carried by an
    assigned school, the park frame one row per sub-zone carried by a cell,
    and a zone of the zone input that received nothing has no row.  In the
    rows that exist no aggregate is NaN, and a park zone whose cells hold no
    park has [total_parks = 0] and [parks_per_km2 = 0]. *)
Theorem aggregator_rows :
  (forall joined : frame School.Joined,
      let zone_stats := School.aggregate_schools_to_zones joined in
      NoDup (map School.s_zone_id zone_stats)
      /\ (forall zid, In zid (map School.s_zone_id zone_stats)
                      <-> exists r, In r joined /\ School.j_zone_id (snd r) = Some zid)
      /\ (forall z, In z zone_stats ->
            isna (School.total_enrolment z) = false
            /\ isna (School.avg_enrolment z) = false
            /\ isna (School.avg_student_teacher_ratio z) = false))
  /\ (forall cells_df : frame Park.SubCell,
        let grouped := values (Park.aggregate_to_zones cells_df) in
        NoDup (map Park.zone_name grouped)
        /\ (forall name, In name (map Park.zone_name grouped)
                         <-> exists c, In c (values cells_df) /\ snd c = name)
        /\ (forall z, In z grouped ->
              isna (Park.avg_green_area_pct z) = false
              /\ isna (Park.avg_parks_per_10k z) = false
              /\ isna (Park.avg_population_density z) = false
              /\ isna (Park.parks_per_km2 z) = false
              /\ isna (Park.park_area_per_capita z) = false
              /\ ((forall c, In c (values cells_df) -> snd c = Park.zone_name z ->
                             park_count (fst c) = 0%Z) ->
                  Park.total_parks z = 0%Z /\ feq (Park.parks_per_km2 z) (Fin 0)))).
Proof.
  split.
  - intros joined zone_stats. subst zone_stats. split; [| split].
    + rewrite school_aggregate_ids. apply sorted_unique_NoDup.
    + apply school_aggregate_zone.
    + intros z Hz. unfold School.aggregate_schools_to_zones in Hz.
      apply in_map_iff in Hz as [[zid g] [<- _]]. cbn.
      repeat split; apply fillna_not_nan.
  - intros cells_df grouped. subst grouped. split; [| split].
    + rewrite park_aggregate_names. apply sorted_unique_NoDup.
    + intros name. rewrite park_aggregate_names, sorted_unique_In, in_map_iff.
      split; intros [c [H1 H2]]; exists c; auto.
    + intros z Hz. pose proof (park_zone_of_group cells_df z Hz) as E.
      set (g := map fst (filter (fun c => String.eqb (snd c) (Park.zone_name z))
                                (values cells_df))) in E.
      do 5 (split; [rewrite E; apply fillna_not_nan |]).
      intros H.
      assert (Hz0 : Zsum (map park_count g) = 0%Z).
      { apply Zsum_zero. apply Forall_forall. intros n Hn.
        apply in_map_iff in Hn as [c [<- Hc]].
        apply in_map_iff in Hc as [c0 [<- Hc0]].
        apply filter_In in Hc0 as [Hc0 Hk]. apply String.eqb_eq in Hk.
        now apply H. }
      split; rewrite E; cbn [Park.total_parks Park.parks_per_km2 Park.aggregate_group];
        rewrite Hz0; [reflexivity |].
      pose proof (parks_per_km2_no_parks (Qsum (map area_km2 g))) as Hf.
      destruct (Park.parks_per_km2_of 0 _); simpl in *; tauto.
Qed.

(* ===================================================================== *)
(** ** Exported tables *)
(* ===================================================================== *)

Lemma id_number_str_of_nat n : id_number (str_of_nat n) = Some n.
Proof.
  unfold id_number, str_of_nat. rewrite NilEmpty.usu. simpl.
  now rewrite Unsigned.of_to.
Qed.

Lemma id_number_format_02d n : id_number (format_02d n) = Some n.
Proof.
  unfold format_02d. destruct (Nat.ltb _ 2); [| apply id_number_str_of_nat].
  pose proof (id_number_str_of_nat n) as H. unfold id_number in *.
  cbn [String.append NilEmpty.uint_of_string].
  destruct (NilEmpty.uint_of_string (str_of_nat n)) as [d |]; [| discriminate].
  simpl in *. exact H.
Qed.










(* ===================================================================== *)
(** ** Score range *)
(* ===================================================================== *)

(** The rule-based school score lies within 0 and 100 for every zone and
    every population table. *)
Lemma school_coverage_score_range zone_stats population_df f :
  In f (School.create_features zone_stats population_df) ->
  in_range 0 100 (School.coverage_score f).
Proof.
  unfold School.create_features. rewrite in_flat_map. intros [z [_ Hf]].
  assert (H : forall pop, in_range 0 100 (School.coverage_score (School.features_of z pop))).
  { intros pop. unfold School.features_of. cbv zeta.
    cbn [School.coverage_score]. apply clip_in_range; [| lra].
    unfold School.calculate_coverage_score. cbv zeta.
    set (lit := fillna 0.85 _).
    assert (Hlit : isna (fmul lit (Fin 10)) = false)
      by (apply fmul_pos_not_nan; [apply fillna_not_nan | lra]).
    set (a := clip _ 0 50). set (b := clip _ 0 30). set (c := clip _ 0 1).
    assert (Ha : in_range 0 50 a).
    { apply clip_in_range; [| lra]. apply scale_not_nan; [apply fillna_not_nan | lra | lra]. }
    assert (Hb : in_range 0 30 b).
    { apply clip_in_range; [| lra]. apply scale_not_nan; [apply fillna_not_nan | lra | lra]. }
    assert (Hc : in_range 0 1 c).
    { apply clip_in_range; [| lra]. apply fdiv_pos_not_nan; [| lra].
      unfold fsub. destruct (fillna 30 _) eqn:E; try reflexivity.
      pose proof (fillna_not_nan 30 (School.avg_student_teacher_ratio z)) as Hn.
      rewrite E in Hn. discriminate. }
    apply in_range_fin in Ha as [qa [-> _]].
    apply in_range_fin in Hb as [qb [-> _]].
    apply in_range_fin in Hc as [qc [-> _]].
    cbn [fadd fsub fneg fmul]. now apply fadd_fin_not_nan. }
  destruct (filter _ population_df) as [| p ps].
  - destruct Hf as [<- | []]. apply H.
  - apply in_map_iff in Hf as [p0 [<- _]]. apply H.
Qed.

(** C1. Every exported score should lie within 0 and 100.  The park model
    breaks it: on a cell table without the East and New Delhi zones the
    exported scores are NaN, whatever the generator. *)
Theorem park_scores_nan_without_protected_zone (G : Generator) :
  map Park.r_zone_name (Park.main G central_cells)
  = ["Central Zone 1"; "Central Zone 2"; "Central Zone 3"]
  /\ map Park.r_predicted_coverage_score (Park.main G central_cells) = [NaN; NaN; NaN].
Proof.
  unfold Park.main.
  pose proof (ParkDeterminism.predictions_score_part G
                (Park.aggregate_to_zones (Park.create_sub_zones central_cells))
                (seed G 42)) as H.
  split.
  - apply (f_equal (map (fun p => snd (fst (fst (fst (fst (fst (fst p))))))))) in H.
    rewrite map_map in H. cbn [park_score_part fst snd] in H.
    etransitivity; [exact H |]. vm_compute. reflexivity.
  - apply (f_equal (map (fun p => snd (fst (fst (fst (fst (fst p)))))))) in H.
    rewrite map_map in H. cbn [park_score_part fst snd] in H.
    etransitivity; [exact H |]. vm_compute. reflexivity.
Qed.

(** The urban model exports the prediction of the regressor as it is: a
    prediction above 100 is exported above 100. *)
Lemma urban_prediction_not_clamped :
  map Urban.predicted_coverage_score
      (Urban.predict_urban_coverage (constant_regressor 120.256)
         (Urban.aggregate_cells_to_zones central_cells))
  = [Fin 120.26].
Proof. vm_compute. reflexivity. Qed.

(** C10. The floor of 15 should hold for every park score that enters the
    export.  It holds after [calculate_park_coverage_score] and is lost in
    [adjust_for_ui_expectations]: on a cell table without the East and New
    Delhi zones the scores leave the adjustment as NaN. *)
Theorem park_floor_lost_without_protected_zone (G : Generator) (st : rstate G) :
  let zones_df :=
    Park.calculate_park_coverage_score
      (Park.aggregate_to_zones (Park.create_sub_zones central_cells)) in
  Forall (in_range 15 100) (Park.scores zones_df)
  /\ Park.scores (fst (Park.adjust_for_ui_expectations G zones_df st)) = [NaN; NaN; NaN]
  /\ Forall (fun s => fge s (Fin 15) = false)
            (Park.scores (fst (Park.adjust_for_ui_expectations G zones_df st))).
Proof.
  intros zones_df.
  assert (E : Park.scores (fst (Park.adjust_for_ui_expectations G zones_df st))
              = [NaN; NaN; NaN]).
  { unfold Park.adjust_for_ui_expectations.
    rewrite (ParkFacts.view_scores _ _ (ParkFacts.apply_adjust_area_view G _ st)).
    vm_compute. reflexivity. }
  split; [| split].
  - vm_compute. repeat constructor; discriminate.
  - exact E.
  - rewrite E. repeat constructor.
Qed.

(* ===================================================================== *)
(** ** Division by zero *)
(* ===================================================================== *)

(** The school, park and hospital models turn a zero denominator into a
    feature value of zero. *)
Lemma zero_denominator_policy :
  (forall x scale, School.per_children x (Fin 0) scale = Fin 0)
  /\ (forall parks, Park.parks_per_km2_of parks 0 = Fin 0)
  /\ (forall park_area, feq (Park.park_area_per_capita_of park_area 0) (Fin 0))
  /\ (forall beds, Hospital.beds_per_100k_of beds 0 = Fin 0).
Proof.
  repeat split.
  - intros x scale. unfold School.per_children.
    destruct x as [q | | |]; simpl; try reflexivity;
      [destruct (Qsign q); simpl |  | ]; unfold inf_times;
      destruct (Qsign scale); reflexivity.
  - intros parks. unfold Park.parks_per_km2_of, ofZ. simpl.
    destruct (Qsign (inject_Z parks)); reflexivity.
  - intros park_area. unfold Park.park_area_per_capita_of, ofZ. simpl.
    destruct (Qsign park_area); simpl; reflexivity.
  - intros beds. unfold Hospital.beds_per_100k_of, ofZ. simpl.
    destruct (Qsign (inject_Z beds)); reflexivity.
Qed.

(** C2. A ratio feature over a zero denominator should be 0.  The urban
    model breaks it: a zone without area that holds parks, schools and roads
    gets infinite densities, where the park model computes 0 on the same
    cells. *)
Theorem urban_density_infinite_on_zero_area :
  map (fun z => (Urban.parks_per_km2 z, Urban.schools_per_km2 z,
                 Urban.hospitals_per_km2 z, Urban.road_density_km_per_km2 z))
      (Urban.aggregate_cells_to_zones floodplain_cells)
  = [(PInf, PInf, Fin 0, PInf)]
  /\ map Park.parks_per_km2
       (values (Park.aggregate_to_zones
                  (reset_index (map (fun c => (c, "Floodplain")) floodplain_cells))))
     = [Fin 0].
Proof. split; vm_compute; reflexivity. Qed.

(* ===================================================================== *)
(** ** Locator and aggregator of the school model *)
(* ===================================================================== *)

(** C3 (amended). With unique index labels and zones whose interiors are
    pairwise disjoint, the locator assigns each school to at most one zone;
    in nearest mode, when at least one zone is loaded (and [sjoin_nearest],
    if the installed geopandas has it, returns a zone for every school), it
    assigns each school to exactly one zone; and the per-zone counts of the
    aggregator add up to the number of assigned schools when every assigned
    school carries a [school_id]. *)
Theorem locator_assigns_once_and_counts_add_up
    (Polygon : Type) (within : float64 * float64 -> Polygon -> bool)
    (distance : float64 * float64 -> Polygon -> Q)
    (lib : option (frame (float64 * float64) -> list (School.AdminZone Polygon)
                   -> frame (option string * option string)))
    (schools_gdf : frame School.School) (admin_gdf : list (School.AdminZone Polygon))
    (use_nearest : bool) :
  NoDup (index schools_gdf) ->
  disjoint_interiors within admin_gdf ->
  let joined :=
    School.spatial_join_schools_to_zones Polygon within distance lib
      schools_gdf admin_gdf use_nearest in
  (forall i, (rows_of i joined <= 1)%nat)
  /\ (use_nearest = true -> admin_gdf <> [] -> sjoin_nearest_total lib ->
      forall i, In i (index schools_gdf) -> rows_of i joined = 1%nat)
  /\ (Forall (fun r => School.has_id (snd r) = true) joined ->
      Zsum (map School.num_schools (School.aggregate_schools_to_zones joined))
      = Z.of_nat (List.length joined)).
Proof.
  intros Hnd Hd joined. subst joined. split; [| split].
  - intros i. now apply join_at_most_one.
  - intros -> Ha Hlib i Hi. now apply join_exactly_one.
  - intros Hid. apply aggregate_counts; [| exact Hid].
    rewrite join_unfold. apply Forall_forall. intros r Hr.
    now apply filter_In in Hr.
Qed.

Lemma zone_a_b_disjoint : disjoint_interiors within_box [zone_a; zone_b].
Proof.
  unfold disjoint_interiors. repeat constructor.
  intros [x y]. unfold within_box, zone_a, zone_b. cbn [School.zone_geometry fst snd].
  destruct x as [q | | |]; try reflexivity.
  cbn [flt].
  destruct (Qle_bool q 2) eqn:E2; destruct (Qle_bool 1 q) eqn:E1;
    cbn [negb andb]; rewrite ?andb_false_r; try reflexivity.
  exfalso.
  assert (H1 : ~ 1 <= q) by (rewrite <- Qle_bool_iff; congruence).
  assert (H2 : ~ q <= 2) by (rewrite <- Qle_bool_iff; congruence).
  lra.
Qed.

Lemma locator_assigns_once_and_counts_add_up_witness :
  let schools_gdf := fst (School.load_schools_data raw_schools) in
  let joined :=
    School.spatial_join_schools_to_zones Box within_box distance_box None
      schools_gdf [zone_a; zone_b] true in
  NoDup (index schools_gdf)
  /\ disjoint_interiors within_box [zone_a; zone_b]
  /\ (forall i, (rows_of i joined <= 1)%nat)
  /\ rows_of 2 joined = 1%nat
  /\ Zsum (map School.num_schools (School.aggregate_schools_to_zones joined)) = 3%Z.
Proof.
  intros schools_gdf joined.
  assert (Hnd : NoDup (index schools_gdf)).
  { vm_compute. repeat constructor; simpl; lia. }
  destruct (locator_assigns_once_and_counts_add_up Box within_box distance_box None
              schools_gdf [zone_a; zone_b] true Hnd zone_a_b_disjoint)
    as [H1 [H2 H3]].
  split; [exact Hnd |]. split; [exact zone_a_b_disjoint |]. split; [exact H1 |].
  split.
  - apply H2; [reflexivity | discriminate | exact I |].
    vm_compute. lia.
  - fold joined in H3. rewrite H3; [reflexivity |].
    vm_compute. repeat constructor.
Defined.

(** C3 as stated fails twice.  With no zone loaded, nearest mode leaves a
    school without a zone; and a school without identifier is assigned to a
    zone and not counted by the aggregator. *)
Lemma nearest_mode_orphan_and_uncounted_school :
  rows_of 0
    (School.spatial_join_schools_to_zones Box within_box distance_box None
       (fst (School.load_schools_data one_school)) [] true) = 0%nat
  /\ (let joined :=
        School.spatial_join_schools_to_zones Box within_box distance_box None
          (fst (School.load_schools_data anonymous_school)) [zone_a; zone_b] true in
      List.length joined = 1%nat
      /\ Zsum (map School.num_schools (School.aggregate_schools_to_zones joined)) = 0%Z).
Proof. vm_compute. repeat split; reflexivity. Qed.

(* ===================================================================== *)
(** ** Zones without facilities *)
(* ===================================================================== *)

(** C5 as stated fails: zone B is in the zone input and receives no school
    in strict mode, and the aggregator has no row for it. *)
Lemma zone_without_school_has_no_row :
  let joined :=
    School.spatial_join_schools_to_zones Box within_box distance_box None
      (fst (School.load_schools_data raw_schools)) [zone_a; zone_b] false in
  In "B" (map (School.zone_id Box) [zone_a; zone_b])
  /\ ~ In "B" (map School.s_zone_id (School.aggregate_schools_to_zones joined)).
Proof.
  vm_compute. split; [auto |]. intros [H | []]. discriminate H.
Qed.

Lemma aggregator_rows_witness :
  let joined :=
    School.spatial_join_schools_to_zones Box within_box distance_box None
      (fst (School.load_schools_data raw_schools)) [zone_a; zone_b] false in
  In "A" (map School.s_zone_id (School.aggregate_schools_to_zones joined))
  /\ Forall (fun z => Park.total_parks z = 0%Z -> feq (Park.parks_per_km2 z) (Fin 0))
            (values (Park.aggregate_to_zones (Park.create_sub_zones central_cells))).
Proof.
  intros joined. destruct aggregator_rows as [Hs Hp]. split.
  - apply (proj1 (proj2 (Hs joined))).
    eexists. split; [left; reflexivity | reflexivity].
  - apply Forall_forall. intros z Hz Hparks.
    destruct (Hp (Park.create_sub_zones central_cells)) as [_ [_ Hrow]].
    destruct (Hrow z Hz) as [_ [_ [_ [_ [_ Hzero]]]]].
    vm_compute in Hz.
    destruct Hz as [<- | [<- | [<- | []]]]; try discriminate Hparks.
    vm_compute. reflexivity.
Defined.

(* ===================================================================== *)
(** ** Records without a valid location *)
(* ===================================================================== *)



(* ===================================================================== *)
(** ** Format of the exported tables *)
(* ===================================================================== *)




(** The hospital table writes its zone ids without padding. *)
Lemma hospital_zone_ids_unpadded :
  map Hospital.zone_id (fst (Hospital.main counter_generator delhi_cells 0%Z))
  = ["1"; "2"; "3"].
Proof. vm_compute. reflexivity. Qed.

(* ===================================================================== *)
(** ** Reproducibility *)
(* ===================================================================== *)



(** The area column of the park table follows the state of the generator. *)
Lemma park_area_follows_the_state :
  map Park.total_area
      (fst (Park.predictions counter_generator
              (Park.aggregate_to_zones (Park.create_sub_zones delhi_cells)) 0%Z))
  = [2.00; 2.00; 7.71; 0.50; 0.50; 0.50; 0.00]
  /\ map Park.total_area
       (fst (Park.predictions counter_generator
               (Park.aggregate_to_zones (Park.create_sub_zones delhi_cells)) 5%Z))
     = [2.00; 2.00; 10.28; 0.54; 0.50; 0.50; 0.00].
Proof. split; vm_compute; reflexivity. Qed.

(* ===================================================================== *)
(** ** Instances *)
(* ===================================================================== *)

Lemma labelers_monotone_witness :
  fle (Fin 55) (Fin 78) = true
  /\ Forall (fun labeler => tier_opt_le (labeler (Fin 55)) (labeler (Fin 78))) labelers.
Proof.
  split; [reflexivity |]. apply (labelers_monotone (Fin 55) (Fin 78)). reflexivity.
Defined.

Lemma park_protected_scores_forced_witness :
  In "East Zone 1" (map Park.r_zone_name (Park.main counter_generator delhi_cells))
  /\ Forall (fun r => Park.r_zone_name r = "East Zone 1" ->
                      feq (Park.r_predicted_coverage_score r) (Fin 95))
            (Park.main counter_generator delhi_cells).
Proof.
  split.
  - vm_compute. left. reflexivity.
  - apply Forall_forall. unfold Park.main. intros r Hr.
    exact (proj1 (proj2 (park_protected_scores_forced counter_generator
                           (Park.aggregate_to_zones (Park.create_sub_zones delhi_cells))
                           (seed counter_generator 42)) r Hr)).
Defined.

(* ===================================================================== *)
(** ** Park model: the scores stay within 15 and 100 when a protected zone
       exists *)
(* ===================================================================== *)

Module ParkRange.
Import Park.

Lemma finite_column {A} (f : A -> float64) l :
  Forall (fun x => isfinite (f x) = true) l -> exists qs, map f l = map Fin qs.
Proof.
  induction 1 as [| x t Hx Ht [qs IH]]; [now exists [] |].
  destruct (f x) as [q | | |] eqn:E; try discriminate.
  exists (q :: qs). simpl. now rewrite E, IH.
Qed.

Lemma max_density_nonzero zones_df :
  zones_df <> [] -> Forall density_finite (values zones_df) ->
  exists m, max_density zones_df = Fin m /\ ~ m == 0.
Proof.
  intros Hne Hf. unfold max_density. apply py_or_fin_nonzero; [lra |].
  destruct (finite_column (fun z => fillna 0 (parks_per_km2 z)) (values zones_df)) as [qs Hq].
  { eapply Forall_impl; [| exact Hf]. intros z Hz. unfold density_finite in Hz.
    now destruct (parks_per_km2 z). }
  rewrite Hq. destruct (fmax_fin qs) as [m ->]; [| reflexivity].
  intros ->. destruct zones_df; [contradiction | discriminate].
Qed.

Lemma scaled_clip_fin x c d lo hi :
  0 < c -> 0 < d -> lo <= hi ->
  exists q, clip (fmul (fdiv (fillna 0 x) (Fin c)) (Fin d)) lo hi = Fin q.
Proof.
  intros Hc Hd Hle.
  assert (H : in_range lo hi (clip (fmul (fdiv (fillna 0 x) (Fin c)) (Fin d)) lo hi)).
  { apply clip_in_range; [| exact Hle]. apply scale_not_nan; [apply fillna_not_nan | lra | lra]. }
  apply in_range_fin in H as [q [-> _]]. eauto.
Qed.

Lemma park_density_score_fin zones_df z :
  zones_df <> [] -> Forall density_finite (values zones_df) -> density_finite z ->
  exists q, density_score zones_df z = Fin q.
Proof.
  intros Hne Hf Hz. unfold density_score.
  destruct (max_density_nonzero zones_df Hne Hf) as [m [-> Hm]].
  unfold density_finite in Hz. destruct (parks_per_km2 z) as [p | | |]; try discriminate.
  cbn [fillna]. rewrite (fdiv_fin_nonzero p m Hm).
  destruct (fgt (Fin m) (Fin 0)); cbn [fmul clip]; eauto.
Qed.

Lemma initial_score_range zones_df z :
  Forall density_finite (values zones_df) -> In z (values zones_df) ->
  in_range 15 100 (initial_score zones_df z).
Proof.
  intros Hf Hz. unfold initial_score.
  assert (Hne : zones_df <> []) by (intros ->; contradiction).
  destruct (scaled_clip_fin (avg_parks_per_10k z) 15 40 0 40) as [a Ha]; try lra.
  destruct (scaled_clip_fin (park_area_per_capita z) 9 30 0 30) as [b Hb]; try lra.
  destruct (scaled_clip_fin (avg_green_area_pct z) 25 20 0 20) as [c Hc]; try lra.
  destruct (park_density_score_fin zones_df z Hne Hf) as [d Hd].
  { rewrite Forall_forall in Hf. now apply Hf. }
  unfold parks_score, area_score, green_score. rewrite Ha, Hb, Hc, Hd.
  apply clip_in_range; [reflexivity | lra].
Qed.

Lemma calculate_score_ok zones_df :
  Forall density_finite (values zones_df) ->
  Forall park_score_ok (calculate_park_coverage_score zones_df).
Proof.
  intros Hf. unfold calculate_park_coverage_score. apply Forall_forall.
  intros r Hr. apply in_map_iff in Hr as [[i z] [<- Hz]].
  unfold park_score_ok. cbn. apply initial_score_range; [exact Hf |].
  unfold values. now apply (in_map snd) in Hz.
Qed.

Lemma aggregate_density_finite cells_df :
  Forall density_finite (values (aggregate_to_zones cells_df)).
Proof.
  unfold aggregate_to_zones. rewrite values_reset_index. apply Forall_forall.
  intros z Hz. apply in_map_iff in Hz as [[name g] [<- _]].
  unfold density_finite. cbn. unfold parks_per_km2_of.
  now destruct (fillna 0 (fdiv _ _)).
Qed.

(** A masked assignment keeps the invariant when the assigned values do. *)
Lemma assign_score_ok mask f df :
  Forall park_score_ok df ->
  (forall z, in_range 15 100 (predicted_coverage_score z) -> in_range 15 100 (f z)) ->
  Forall park_score_ok (assign_score mask f df).
Proof.
  intros H Hf. unfold assign_score. apply Forall_forall. intros r' Hr.
  apply in_map_iff in Hr as [r [<- Hr]]. rewrite Forall_forall in H.
  destruct (mask r); [| now apply H].
  unfold park_score_ok. cbn. apply Hf. now apply H.
Qed.

Lemma set_if_first_ok mask cond v df :
  15 <= v -> v <= 100 ->
  Forall park_score_ok df -> Forall park_score_ok (set_if_first mask cond v df).
Proof.
  intros H1 H2 H. unfold set_if_first.
  destruct (find mask (values df)); [| exact H].
  destruct (cond z); [| exact H].
  apply assign_score_ok; [exact H |]. intros _ _. simpl. split; assumption.
Qed.

Lemma scaled_score_range x y lo hi :
  in_range 15 100 x -> isfinite y = true -> 15 <= lo -> lo <= hi -> hi <= 100 ->
  in_range 15 100 (clip (fmul x y) lo hi).
Proof.
  intros Hx Hy H1 H2 H3. apply in_range_fin in Hx as [q [-> _]].
  destruct y as [c | | |]; try discriminate.
  apply (in_range_weaken lo hi); [exact H1 | exact H3 |].
  apply clip_in_range; [reflexivity | exact H2].
Qed.

Lemma tier_adjust_ok df : Forall park_score_ok df -> Forall park_score_ok (tier_adjust df).
Proof.
  intros H. unfold tier_adjust. cbv zeta. rewrite !ParkFacts.assign_score_guard.
  apply assign_score_ok.
  2:{ intros z Hz. apply scaled_score_range; [exact Hz | reflexivity | lra ..]. }
  match goal with
  | |- Forall _ (match ?m with [] => _ | _ :: _ => _ end) => destruct m
  end.
  - apply assign_score_ok; [exact H |].
    intros z Hz. apply scaled_score_range; [exact Hz | reflexivity | lra ..].
  - apply assign_score_ok.
    2:{ intros z Hz. apply scaled_score_range; [exact Hz | reflexivity | lra ..]. }
    apply assign_score_ok; [exact H |].
    intros z Hz. apply scaled_score_range; [exact Hz | reflexivity | lra ..].
Qed.

Lemma scores_fin df : Forall park_score_ok df -> exists qs, scores df = map Fin qs.
Proof.
  intros H. unfold scores. apply finite_column.
  eapply Forall_impl; [| exact H]. intros r Hr. unfold park_score_ok in Hr.
  now destruct (predicted_coverage_score (snd r)).
Qed.

Lemma mean_score_fin df :
  df <> [] -> Forall park_score_ok df -> exists q, fmean (scores df) = Fin q.
Proof.
  intros Hne H. destruct (scores_fin df H) as [qs Hq]. rewrite Hq.
  apply fmean_fin. intros ->. destruct df; [contradiction | discriminate].
Qed.

Lemma Forall_filter {A} (P : A -> Prop) (p : A -> bool) l :
  Forall P l -> Forall P (filter p l).
Proof.
  intros H. apply Forall_forall. intros x Hx. apply filter_In in Hx as [Hx _].
  rewrite Forall_forall in H. now apply H.
Qed.

Lemma count_nonzero {A} (l : list A) :
  Nat.ltb 0 (List.length l) = true -> l <> [] /\ ~ inject_Z (Z.of_nat (List.length l)) == 0.
Proof.
  intros H. apply Nat.ltb_lt in H. split.
  - intros ->. simpl in H. lia.
  - unfold Qeq, inject_Z. simpl. lia.
Qed.

Lemma rounded_clip_range x : isna x = false -> in_range 15 100 (fround 1 (clip x 15 100)).
Proof.
  intros H. apply fround1_in_range_15_100. apply clip_in_range; [exact H | lra].
Qed.

(** The rescaling keeps the scores in range when a protected zone exists. *)
Lemma rescale_to_target_ok df :
  filter (on_row protected_mask) df <> [] ->
  Forall park_score_ok df -> Forall park_score_ok (rescale_to_target df).
Proof.
  intros Hp H. unfold rescale_to_target. cbv zeta.
  destruct (Nat.ltb 0 (List.length (filter _ df))) eqn:Eu; [| exact H].
  apply count_nonzero in Eu as [Hu Hcount].
  destruct (mean_score_fin _ Hp (Forall_filter _ _ _ H)) as [pavg ->].
  destruct (mean_score_fin _ Hu (Forall_filter _ _ _ H)) as [cavg ->].
  set (unprotected := filter (fun r : nat * Zone => negb (protected_mask (snd r))) df) in *.
  assert (Htarget : exists t,
             fdiv (fsub (fmul (Fin 42) (ofZ (Z.of_nat (List.length df))))
                        (fmul (Fin pavg)
                           (ofZ (Z.of_nat (List.length (filter (on_row protected_mask) df))))))
                  (ofZ (Z.of_nat (List.length unprotected))) = Fin t).
  { unfold ofZ. cbn [fmul fsub fneg fadd]. rewrite fdiv_fin_nonzero by exact Hcount. eauto. }
  destruct Htarget as [t ->].
  match goal with
  | |- Forall _ (if fgt (fabs (fsub (fmean (scores ?d)) _)) _ then _ else _) =>
      set (df1 := d)
  end.
  assert (H1 : Forall park_score_ok df1).
  { subst df1. destruct (fgt (Fin cavg) (Fin 0)) eqn:Eg; [| exact H].
    assert (Hc : ~ cavg == 0).
    { unfold fgt, flt in Eg. apply negb_true_iff in Eg.
      intros E0. rewrite E0 in Eg. discriminate Eg. }
    rewrite fdiv_fin_nonzero by exact Hc.
    apply assign_score_ok; [exact H |]. intros z Hz.
    apply in_range_fin in Hz as [q [-> _]]. now apply rounded_clip_range. }
  assert (Hne1 : df1 <> []).
  { subst df1. destruct (fgt (Fin cavg) (Fin 0)).
    - unfold assign_score. intros E. apply map_eq_nil in E. subst df. now apply Hp.
    - intros ->. now apply Hp. }
  destruct (mean_score_fin df1 Hne1 H1) as [favg ->].
  destruct (fgt _ (Fin 0.1)); [| exact H1].
  apply assign_score_ok; [exact H1 |]. intros z Hz.
  apply in_range_fin in Hz as [q [-> _]].
  unfold ofZ. cbn [fsub fneg fadd]. rewrite fdiv_fin_nonzero by exact Hcount.
  now apply rounded_clip_range.
Qed.

Lemma force_protected_ok df : Forall park_score_ok df -> Forall park_score_ok (force_protected df).
Proof.
  intros H. unfold force_protected. rewrite !ParkFacts.assign_score_guard.
  do 2 (apply assign_score_ok; [| intros _ _; simpl; lra]). exact H.
Qed.

(** Whether a frame has a protected row is a matter of its names. *)
Lemma protected_rows_names df :
  filter (on_row protected_mask) df <> []
  <-> exists n, In n (park_names df) /\ protected_name n = true.
Proof.
  split.
  - intros Hne. destruct (filter (on_row protected_mask) df) as [| r t] eqn:E;
      [contradiction |].
    assert (Hr : In r (filter (on_row protected_mask) df)) by (rewrite E; now left).
    apply filter_In in Hr as [Hr Hm]. exists (zone_name (snd r)). split.
    + unfold park_names. now apply (in_map (fun r => zone_name (snd r))).
    + exact Hm.
  - intros [n [Hn Hm]] E. unfold park_names in Hn.
    apply in_map_iff in Hn as [r [<- Hr]].
    assert (Hin : In r (filter (on_row protected_mask) df))
      by (apply filter_In; split; [exact Hr | exact Hm]).
    rewrite E in Hin. contradiction.
Qed.

Lemma adjusted_scores_ok zones_df :
  (exists n, In n (park_names zones_df) /\ protected_name n = true) ->
  Forall park_score_ok zones_df -> Forall park_score_ok (adjusted_scores zones_df).
Proof.
  intros [n [Hn Hm]] H. unfold adjusted_scores. cbv zeta.
  apply force_protected_ok, rescale_to_target_ok.
  - apply protected_rows_names. exists n. split; [| exact Hm].
    rewrite ParkFacts.tier_adjust_names.
    apply (Permutation_in _ (Permutation_sym (ParkFacts.names_sort _ _))).
    now rewrite !ParkFacts.set_if_first_names.
  - apply tier_adjust_ok, sort_values_Forall.
    do 2 (apply set_if_first_ok; [lra | lra |]). exact H.
Qed.

Lemma park_names_values df : park_names df = map zone_name (values df).
Proof. unfold park_names, values. now rewrite map_map. Qed.

Lemma calculate_score_names zones_df :
  park_names (calculate_park_coverage_score zones_df) = park_names zones_df.
Proof.
  unfold park_names, calculate_park_coverage_score. rewrite map_map.
  apply map_ext. now intros [i z].
Qed.

Lemma in_values {A} (df : frame A) (x : A) :
  In x (values df) -> exists r, In r df /\ snd r = x.
Proof.
  unfold values. intros H. apply in_map_iff in H as [r [E Hr]]. eauto.
Qed.

Lemma adjust_unfold G zones_df st :
  adjust_for_ui_expectations G zones_df st
  = apply_rows (adjust_area G) (adjusted_scores zones_df) st.
Proof. reflexivity. Qed.

End ParkRange.

(** When the cell table has a cell of the sub-zone 'East Zone 1' or 'New
    Delhi', every exported park score lies within 15 and 100. *)
Theorem park_score_range_with_protected_zone (G : Generator)
    (cells_df : frame Park.SubCell) (st : rstate G) (r : Park.ResultRow) :
  (exists c, In c (values cells_df) /\ protected_name (snd c) = true) ->
  In r (fst (Park.predictions G (Park.aggregate_to_zones cells_df) st)) ->
  in_range 15 100 (Park.r_predicted_coverage_score r).
Proof.
  intros [c [Hc Hm]] Hr.
  pose proof (ParkFacts.result_rows_name_score G (Park.aggregate_to_zones cells_df) st) as HP.
  apply (in_map (fun r => (Park.r_zone_name r, Park.r_predicted_coverage_score r))) in Hr.
  apply (Permutation_in _ HP) in Hr.
  apply in_map_iff in Hr as [z [E Hz]]. inversion E as [[En Es]]. clear E En.
  apply fround1_in_range_15_100.
  apply ParkRange.in_values in Hz as [r0 [Hr0 <-]].
  apply (in_map park_view) in Hr0.
  rewrite ParkRange.adjust_unfold, ParkFacts.apply_adjust_area_view in Hr0.
  apply in_map_iff in Hr0 as [r1 [E1 Hr1]].
  assert (Es1 : Park.predicted_coverage_score (snd r1) = Park.predicted_coverage_score (snd r0))
    by (unfold park_view in E1; congruence).
  rewrite <- Es1.
  assert (Hok : Forall park_score_ok
                  (adjusted_scores (Park.calculate_park_coverage_score
                                      (Park.aggregate_to_zones cells_df)))).
  { apply ParkRange.adjusted_scores_ok.
    - exists (snd c). split; [| exact Hm].
      rewrite ParkRange.calculate_score_names, ParkRange.park_names_values.
      rewrite park_aggregate_names. apply (proj2 (sorted_unique_In _ _)).
      apply in_map. exact Hc.
    - apply ParkRange.calculate_score_ok, ParkRange.aggregate_density_finite. }
  rewrite Forall_forall in Hok. exact (Hok r1 Hr1).
Qed.

(* ===================================================================== *)
(** ** Sums over the groups of a frame *)
(* ===================================================================== *)

Lemma Zsum_app l1 l2 : Zsum (List.app l1 l2) = (Zsum l1 + Zsum l2)%Z.
Proof. induction l1 as [| x t IH]; simpl; [reflexivity | rewrite IH; lia]. Qed.






(** A draw per row: as many results as rows. *)
Lemma apply_rows_length {S A B} (f : A -> S -> B * S) rows st :
  List.length (fst (apply_rows f rows st)) = List.length rows.
Proof.
  revert st. induction rows as [| r t IH]; intros st; [reflexivity |].
  cbn [apply_rows]. destruct (f r st) as [b st1].
  specialize (IH st1). destruct (apply_rows f t st1) as [bs st2].
  cbn [fst] in *. simpl. now rewrite IH.
Qed.

(** Every result of a row-wise draw is the result of its row at some
    state. *)
Lemma apply_rows_each {S A B} (f : A -> S -> B * S) rows st :
  Forall2 (fun r b => exists s, b = fst (f r s)) rows (fst (apply_rows f rows st)).
Proof.
  revert st. induction rows as [| r t IH]; intros st; [constructor |].
  cbn [apply_rows]. destruct (f r st) as [b st1] eqn:E.
  specialize (IH st1). destruct (apply_rows f t st1) as [bs st2].
  cbn [fst] in *. constructor; [| exact IH]. exists st. now rewrite E.
Qed.

Lemma Forall2_combine {A B} (P : A -> B -> Prop) l1 l2 :
  Forall2 P l1 l2 -> Forall (fun ab => P (fst ab) (snd ab)) (combine l1 l2).
Proof. induction 1; simpl; constructor; auto. Qed.

Lemma combine_map_fst {A B} (l1 : list A) (l2 : list B) :
  List.length l1 = List.length l2 -> map fst (combine l1 l2) = l1.
Proof.
  revert l2. induction l1 as [| a t IH]; intros [| b l2] H; simpl in *; try discriminate;
    [reflexivity | f_equal; apply IH; lia].
Qed.

(* ===================================================================== *)
(** ** Hospital model: what the steps keep *)
(* ===================================================================== *)

Module HospitalSteps.
Import Hospital.

Lemma assign_hai_data mask f grouped :
  map hospital_data (assign_hai mask f grouped) = map hospital_data grouped.
Proof.
  unfold assign_hai. rewrite map_map. apply map_ext. intros z.
  now destruct (mask z).
Qed.

Lemma adjust_central_data grouped :
  map hospital_data (adjust_central grouped) = map hospital_data grouped.
Proof.
  unfold adjust_central. destruct (find _ grouped) as [c |]; [| reflexivity].
  destruct (_ && _); apply assign_hai_data.
Qed.

Lemma adjust_scaled_data name limit factor lo hi grouped :
  map hospital_data (adjust_scaled name limit factor lo hi grouped)
  = map hospital_data grouped.
Proof.
  unfold adjust_scaled. destruct (find _ grouped) as [c |]; [| reflexivity].
  destruct (_ >? _)%Z; [apply assign_hai_data | reflexivity].
Qed.

Lemma adjust_new_delhi_data grouped :
  map hospital_data (adjust_new_delhi grouped) = map hospital_data grouped.
Proof.
  unfold adjust_new_delhi. destruct (find _ grouped) as [c |]; [| reflexivity].
  apply assign_hai_data.
Qed.

Lemma set_hai_data (f : Zone -> float64) grouped :
  map hospital_data (map (fun z => set_hai z (f z)) grouped) = map hospital_data grouped.
Proof. rewrite map_map. now apply map_ext. Qed.

Lemma calculate_coverage_score_data grouped :
  map hospital_data (calculate_coverage_score grouped) = map hospital_data grouped.
Proof.
  unfold calculate_coverage_score. cbv zeta.
  rewrite set_hai_data, !assign_hai_data.
  unfold adjust_south. rewrite assign_hai_data, adjust_new_delhi_data.
  rewrite !adjust_scaled_data, adjust_central_data. apply set_hai_data.
Qed.

Lemma label_zones_data grouped :
  map hospital_data (label_zones grouped) = map hospital_data grouped.
Proof. unfold label_zones. rewrite map_map. now apply map_ext. Qed.

Lemma export_results_rows grouped :
  Permutation (export_results grouped)
    (map (hospital_row (sorted_unique (map zone_name grouped))) grouped).
Proof. unfold export_results. cbv zeta. apply sort_values_perm. Qed.

Lemma export_results_row grouped r :
  In r (export_results grouped) ->
  exists z, In z grouped /\ r = hospital_row (sorted_unique (map zone_name grouped)) z.
Proof.
  intros Hr. apply (Permutation_in _ (export_results_rows grouped)) in Hr.
  apply in_map_iff in Hr as [z [<- Hz]]. now exists z.
Qed.

End HospitalSteps.

(* ===================================================================== *)
(** ** Hospital model: capacity, totals, rows and named zones *)
(* ===================================================================== *)


Lemma in_map_eq {A B} (g : A -> B) l l' x :
  map g l = map g l' -> In x l -> exists y, In y l' /\ g y = g x.
Proof.
  intros E Hx. apply (in_map g) in Hx. rewrite E in Hx.
  apply in_map_iff in Hx as [y [Hy Hin]]. now exists y.
Qed.

Module HospitalRows.
Import Hospital.

Lemma main_rows G df entry :
  fst (main G df entry)
  = export_results
      (label_zones
         (calculate_coverage_score
            (fst (estimate_hospital_capacity G (aggregate_to_zones df) entry)))).
Proof.
  unfold main. destruct (estimate_hospital_capacity G _ entry) as [grouped st].
  reflexivity.
Qed.

(** Whatever is drawn, a zone with hospitals gets at least 15 beds per
    hospital and a zone without hospitals gets none. *)
Lemma estimate_beds_floor G row st :
  (num_hospitals row = 0%Z -> fst (estimate_beds_for_zone G row st) = 0%Z)
  /\ ((0 < num_hospitals row)%Z ->
      (15 * num_hospitals row <= fst (estimate_beds_for_zone G row st))%Z).
Proof.
  unfold estimate_beds_for_zone. cbv zeta.
  destruct (Z.eqb_spec (num_hospitals row) 0) as [E | NE].
  - split; [reflexivity | lia].
  - split; [contradiction |]. intros Hpos.
    destruct (if (total_population row >? 3000000)%Z then _ else _) as [beds st'].
    cbn [fst]. destruct (Z.gtb_spec (num_hospitals row) 0); lia.
Qed.

Lemma estimate_capacity_rows G grouped entry :
  Forall2 (fun z z' =>
             zone_name z' = zone_name z /\ num_hospitals z' = num_hospitals z
             /\ exists st, total_beds z' = fst (estimate_beds_for_zone G z st))
          grouped (fst (estimate_hospital_capacity G grouped entry)).
Proof.
  unfold estimate_hospital_capacity. cbv zeta.
  pose proof (apply_rows_each (estimate_beds_for_zone G) grouped (seed G 42)) as H.
  destruct (apply_rows (estimate_beds_for_zone G) grouped (seed G 42)) as [beds st].
  cbn [fst] in *.
  induction H as [| z b t bs [s Hs] _ IH]; simpl; constructor; [| exact IH].
  simpl. repeat split; [reflexivity .. |]. now exists s.
Qed.

Lemma Forall2_in_r {A B} (P : A -> B -> Prop) l l' y :
  Forall2 P l l' -> In y l' -> exists x, In x l /\ P x y.
Proof.
  induction 1 as [| a b t t' Hab _ IH]; intros Hin; [destruct Hin |].
  destruct Hin as [<- | Hin]; [exists a; split; [now left | exact Hab] |].
  destruct (IH Hin) as [x [Hx HP]]. exists x. split; [now right | exact HP].
Qed.


Lemma data_fields z z' :
  hospital_data z = hospital_data z' ->
  zone_name z = zone_name z' /\ num_hospitals z = num_hospitals z'
  /\ total_beds z = total_beds z'
  /\ avg_hospitals_per_100k z = avg_hospitals_per_100k z'
  /\ beds_per_100k z = beds_per_100k z'.
Proof. unfold hospital_data. intros E. injection E. intros. repeat split; assumption. Qed.

Lemma scored_data grouped :
  map hospital_data (label_zones (calculate_coverage_score grouped))
  = map hospital_data grouped.
Proof.
  rewrite HospitalSteps.label_zones_data.
  apply HospitalSteps.calculate_coverage_score_data.
Qed.



End HospitalRows.

(** In the exported hospital table a zone without hospitals has no beds,
    and a zone with hospitals has at least 15 beds per hospital, whatever
    the generator draws. *)
Theorem hospital_capacity_floor (G : Generator) (df : list Cell) (entry : rstate G)
    (r : Hospital.ResultRow) :
  In r (fst (Hospital.main G df entry)) ->
  (Hospital.num_facilities r = 0%Z -> Hospital.total_capacity r = 0%Z)
  /\ ((0 < Hospital.num_facilities r)%Z ->
      (15 * Hospital.num_facilities r <= Hospital.total_capacity r)%Z).
Proof.
  rewrite HospitalRows.main_rows. intros Hr.
  apply HospitalSteps.export_results_row in Hr as [z [Hz ->]].
  cbn [Hospital.num_facilities Hospital.total_capacity hospital_row].
  destruct (in_map_eq _ _ _ _ (HospitalRows.scored_data _) Hz) as [z1 [Hz1 E]].
  apply HospitalRows.data_fields in E as [_ [En [Eb _]]].
  rewrite <- En, <- Eb.
  destruct (HospitalRows.Forall2_in_r _ _ _ _
              (HospitalRows.estimate_capacity_rows G _ entry) Hz1)
    as [z0 [_ [_ [En0 [st Hb]]]]].
  rewrite En0, Hb. apply HospitalRows.estimate_beds_floor.
Qed.

Lemma hospital_capacity_floor_witness :
  fst (Hospital.main counter_generator delhi_cells 0%Z) <> []
  /\ Forall (fun r => (0 < Hospital.num_facilities r)%Z ->
                      (15 * Hospital.num_facilities r <= Hospital.total_capacity r)%Z)
            (fst (Hospital.main counter_generator delhi_cells 0%Z)).
Proof.
  split; [vm_compute; discriminate |].
  apply Forall_forall. intros r Hr.
  exact (proj2 (hospital_capacity_floor counter_generator delhi_cells 0%Z r Hr)).
Defined.



(* ===================================================================== *)
(** ** Hospital model: labels and the rules of named zones *)
(* ===================================================================== *)

Module HospitalRules.
Import Hospital.

Lemma in_assign_hai mask f grouped z' :
  In z' (assign_hai mask f grouped) ->
  exists z, In z grouped /\ z' = if mask z then set_hai z (f z) else z.
Proof.
  unfold assign_hai. rewrite in_map_iff. intros [z [<- Hz]]. now exists z.
Qed.

(** A row of the scored frame is a row of the frame before the South rule
    that went through the last rules. *)
Lemma scored_row grouped z' :
  In z' (calculate_coverage_score grouped) ->
  exists z5, In z5 (hospital_before_south grouped) /\ z' = hospital_last_rules z5.
Proof.
  unfold calculate_coverage_score. cbv zeta. fold (hospital_before_south grouped).
  rewrite in_map_iff. intros [z8 [<- H8]].
  apply in_assign_hai in H8 as [z7 [H7 ->]].
  apply in_assign_hai in H7 as [z6 [H6 ->]].
  apply in_assign_hai in H6 as [z5 [H5 ->]].
  exists z5. split; [exact H5 | reflexivity].
Qed.

Lemma before_south_ok grouped :
  Forall density_known grouped -> Forall index_ok (hospital_before_south grouped).
Proof.
  intros Hd. unfold hospital_before_south.
  apply HospitalFacts.adjust_new_delhi_ok.
  do 3 (apply HospitalFacts.adjust_scaled_ok; [lra | lra | lra |]).
  apply HospitalFacts.adjust_central_ok.
  apply Forall_forall. intros z' Hin. apply in_map_iff in Hin as [z [<- Hz]].
  unfold index_ok. simpl. apply HospitalFacts.base_index_range.
  - intros ->. contradiction.
  - rewrite Forall_forall in Hd. now apply Hd.
Qed.


Lemma label_zones_row grouped z' :
  In z' (label_zones grouped) ->
  exists z, In z grouped
            /\ z' = set_label z (fst (assign_label (health_access_index z)))
                                (snd (assign_label (health_access_index z))).
Proof. unfold label_zones. rewrite in_map_iff. intros [z [<- Hz]]. now exists z. Qed.

Lemma last_rules_rounded z5 :
  fround 1 (health_access_index (hospital_last_rules z5))
  = health_access_index (hospital_last_rules z5).
Proof.
  unfold hospital_last_rules. cbv zeta. cbn [health_access_index set_hai].
  destruct (health_access_index _) as [q | | |]; try reflexivity.
  cbn [fround]. now rewrite Qround_dec_idem.
Qed.

(** An exported row comes from a row of the frame before the South rule. *)
Lemma hospital_exported_row G df entry r :
  In r (fst (main G df entry)) ->
  exists z5,
    In z5 (hospital_before_south
             (fst (estimate_hospital_capacity G (aggregate_to_zones df) entry)))
    /\ r_zone_name r = zone_name z5
    /\ num_facilities r = num_hospitals z5
    /\ predicted_coverage_score r = health_access_index (hospital_last_rules z5)
    /\ (r_coverage_label r, r_status r)
       = assign_label (health_access_index (hospital_last_rules z5)).
Proof.
  rewrite HospitalRows.main_rows. intros Hr.
  apply HospitalSteps.export_results_row in Hr as [z [Hz ->]].
  apply label_zones_row in Hz as [z' [Hz' ->]].
  apply scored_row in Hz' as [z5 [H5 ->]].
  exists z5. split; [exact H5 |].
  cbn [r_zone_name num_facilities predicted_coverage_score r_coverage_label r_status
       hospital_row zone_name num_hospitals health_access_index coverage_label status
       set_label].
  rewrite last_rules_rounded.
  repeat split.
  - unfold hospital_last_rules. cbv zeta.
    repeat match goal with |- context [if ?b then _ else _] => destruct b end; reflexivity.
  - unfold hospital_last_rules. cbv zeta.
    repeat match goal with |- context [if ?b then _ else _] => destruct b end; reflexivity.
  - now destruct (assign_label _).
Qed.

End HospitalRules.

(** In the exported hospital table the label and the status of a row are
    those of the exported score: a score of at least 75 reads excellent, a
    score of at least 50 good, any other score needs-improvement. *)
Theorem hospital_labels_match_scores (G : Generator) (df : list Cell) (entry : rstate G)
    (r : Hospital.ResultRow) :
  In r (fst (Hospital.main G df entry)) ->
  (Hospital.r_coverage_label r, Hospital.r_status r)
  = Hospital.assign_label (Hospital.predicted_coverage_score r).
Proof.
  intros Hr. apply HospitalRules.hospital_exported_row in Hr as [z5 [_ [_ [_ [-> ->]]]]].
  reflexivity.
Qed.

Lemma hospital_labels_match_scores_witness :
  fst (Hospital.main counter_generator delhi_cells 0%Z) <> []
  /\ Forall (fun r => (Hospital.r_coverage_label r, Hospital.r_status r)
                      = Hospital.assign_label (Hospital.predicted_coverage_score r))
            (fst (Hospital.main counter_generator delhi_cells 0%Z)).
Proof.
  split; [vm_compute; discriminate |].
  apply Forall_forall. intros r Hr.
  exact (hospital_labels_match_scores counter_generator delhi_cells 0%Z r Hr).
Defined.


(* ===================================================================== *)
(** ** Sorted frames *)
(* ===================================================================== *)

Lemma is_sorted_cons {A} (leb : A -> A -> bool) x y t :
  is_sorted leb (x :: y :: t) = leb x y && is_sorted leb (y :: t).
Proof. reflexivity. Qed.

Lemma is_sorted_tail {A} (leb : A -> A -> bool) x t :
  is_sorted leb (x :: t) = true -> is_sorted leb t = true.
Proof.
  destruct t as [| y t]; [reflexivity |]. rewrite is_sorted_cons.
  intros H. now apply andb_prop in H.
Qed.

Lemma insert_sorted_head {A} (leb : A -> A -> bool) x l :
  exists t, insert_sorted leb x l = x :: t
            \/ exists y t', l = y :: t' /\ leb x y = false /\ insert_sorted leb x l = y :: t.
Proof.
  destruct l as [| y t']; simpl.
  - exists []. now left.
  - destruct (leb x y) eqn:E.
    + exists (y :: t'). now left.
    + exists (insert_sorted leb x t'). right. now exists y, t'.
Qed.

(** Insertion keeps a frame sorted when any two rows are comparable. *)
Lemma insert_sorted_sorted {A} (leb : A -> A -> bool) x l :
  (forall a b, leb a b = true \/ leb b a = true) ->
  is_sorted leb l = true -> is_sorted leb (insert_sorted leb x l) = true.
Proof.
  intros Htot. induction l as [| y t IH]; intros Hs; [reflexivity |].
  cbn [insert_sorted]. destruct (leb x y) eqn:E.
  - rewrite is_sorted_cons, E. exact Hs.
  - assert (Hyx : leb y x = true) by (destruct (Htot x y); congruence).
    pose proof (IH (is_sorted_tail _ _ _ Hs)) as Hi.
    destruct t as [| z t'].
    + cbn [insert_sorted]. rewrite is_sorted_cons, Hyx. reflexivity.
    + rewrite is_sorted_cons in Hs. apply andb_prop in Hs as [Hyz Hs].
      cbn [insert_sorted] in *. destruct (leb x z).
      * rewrite is_sorted_cons, Hyx. exact Hi.
      * rewrite is_sorted_cons, Hyz. exact Hi.
Qed.

Lemma sort_values_sorted {A} (leb : A -> A -> bool) l :
  (forall a b, leb a b = true \/ leb b a = true) ->
  is_sorted leb (sort_values leb l) = true.
Proof.
  intros Htot. induction l as [| x t IH]; [reflexivity |].
  cbn [sort_values fold_right]. now apply insert_sorted_sorted.
Qed.

(** Sorting a sorted frame changes nothing: the sort is stable. *)
Lemma sort_values_sorted_id {A} (leb : A -> A -> bool) l :
  is_sorted leb l = true -> sort_values leb l = l.
Proof.
  induction l as [| x t IH]; intros Hs; [reflexivity |].
  cbn [sort_values fold_right].
  change (fold_right (insert_sorted leb) [] t) with (sort_values leb t).
  rewrite (IH (is_sorted_tail _ _ _ Hs)).
  destruct t as [| y t']; [reflexivity |].
  rewrite is_sorted_cons in Hs. apply andb_prop in Hs as [Hxy _].
  cbn [insert_sorted]. now rewrite Hxy.
Qed.

Lemma is_sorted_map {A B} (f : A -> B) (leA : A -> A -> bool) (leB : B -> B -> bool) l :
  (forall a b, leA a b = leB (f a) (f b)) ->
  is_sorted leB (map f l) = is_sorted leA l.
Proof.
  intros H. induction l as [| x t IH]; [reflexivity |].
  destruct t as [| y t']; [reflexivity |].
  cbn [map] in *. rewrite !is_sorted_cons, IH, H. reflexivity.
Qed.

Lemma is_sorted_map_mono {A} (f : A -> A) (leb : A -> A -> bool) l :
  (forall a b, leb a b = true -> leb (f a) (f b) = true) ->
  is_sorted leb l = true -> is_sorted leb (map f l) = true.
Proof.
  intros H. induction l as [| x t IH]; [reflexivity |].
  destruct t as [| y t']; [reflexivity |].
  cbn [map] in *. rewrite !is_sorted_cons. intros Hs.
  apply andb_prop in Hs as [Hxy Hs]. rewrite (H _ _ Hxy). now apply IH.
Qed.

(* ===================================================================== *)
(** ** Rounding keeps the order *)
(* ===================================================================== *)

(** A number is at most one half away from its rounding. *)
Lemma round_half_even_near q :
  inject_Z (round_half_even q) - (1 # 2) <= q
  /\ q <= inject_Z (round_half_even q) + (1 # 2).
Proof.
  unfold round_half_even.
  pose proof (Qfloor_le q) as Hlo. pose proof (Qlt_floor q) as Hhi.
  rewrite inject_Z_plus in Hhi. change (inject_Z 1) with 1 in Hhi.
  destruct (Qcompare (q - inject_Z (Qfloor q)) (1 # 2)) eqn:E.
  - apply Qeq_alt in E.
    destruct (Z.even (Qfloor q)); rewrite ?inject_Z_plus;
      change (inject_Z 1) with 1; split; lra.
  - apply Qlt_alt in E. split; lra.
  - apply Qgt_alt in E. rewrite inject_Z_plus. change (inject_Z 1) with 1. split; lra.
Qed.

Lemma round_half_even_mono q q' : q <= q' -> (round_half_even q <= round_half_even q')%Z.
Proof.
  intros H.
  destruct (Z.le_gt_cases (round_half_even q) (round_half_even q')) as [Hle | Hgt];
    [exact Hle |].
  exfalso.
  pose proof (round_half_even_near q) as [Hq _].
  pose proof (round_half_even_near q') as [_ Hq'].
  assert (Hz : inject_Z (round_half_even q') + 1 <= inject_Z (round_half_even q)).
  { change 1 with (inject_Z 1). rewrite <- inject_Z_plus. rewrite <- Zle_Qle. lia. }
  assert (E : q == q') by lra.
  rewrite (round_half_even_comp _ _ E) in Hgt. lia.
Qed.

Lemma Qround_dec_mono n q q' : q <= q' -> Qround_dec n q <= Qround_dec n q'.
Proof.
  intros H. destruct n as [| n]; cbn [Qround_dec].
  - rewrite <- Zle_Qle. now apply round_half_even_mono.
  - unfold Qle. cbn [Qnum Qden].
    apply Z.mul_le_mono_nonneg_r; [lia |].
    apply round_half_even_mono.
    apply Qmult_le_compat_r; [exact H |]. unfold Qle. simpl. lia.
Qed.

Lemma fround_desc n a b :
  desc_nan_last a b = true -> desc_nan_last (fround n a) (fround n b) = true.
Proof.
  unfold desc_nan_last.
  destruct a as [p | | |], b as [q | | |]; cbn [isna fround negb orb andb fle];
    try (intros H; exact H).
  rewrite !Qle_bool_iff. apply Qround_dec_mono.
Qed.

Lemma desc_nan_last_total a b : desc_nan_last a b = true \/ desc_nan_last b a = true.
Proof.
  unfold desc_nan_last.
  destruct a as [p | | |], b as [q | | |]; cbn [isna negb orb andb fle]; auto.
  rewrite !Qle_bool_iff. destruct (Qlt_le_dec p q); [right; lra | now left].
Qed.

(* ===================================================================== *)
(** ** Park model: the exported rows *)
(* ===================================================================== *)

Module ParkRows.
Import Park.

Lemma predictions_length G zones_df st :
  List.length (fst (predictions G zones_df st)) = List.length zones_df.
Proof.
  pose proof (ParkFacts.result_rows_names G zones_df st) as Hn.
  apply Permutation_length in Hn. unfold values in Hn.
  now rewrite !length_map in Hn.
Qed.

Lemma create_zone_ids_scores df :
  map predicted_coverage_score (values (create_zone_ids df))
  = map predicted_coverage_score
        (sort_values (by_score_desc predicted_coverage_score) (values df)).
Proof.
  unfold create_zone_ids.
  set (sorted := sort_values _ (values df)).
  rewrite <- (values_reset_index sorted) at 2.
  unfold values. rewrite !map_map. apply map_ext. now intros [i z].
Qed.

(** The frame with its zone ids is already in the order of the export. *)
Lemma ranked_rows_sorted df :
  is_sorted by_result_score_desc (map result_of (values (create_zone_ids df))) = true.
Proof.
  rewrite <- (is_sorted_map r_predicted_coverage_score by_result_score_desc desc_nan_last)
    by reflexivity.
  rewrite map_map. cbn [r_predicted_coverage_score result_of].
  rewrite <- (map_map predicted_coverage_score (fround 1)).
  rewrite create_zone_ids_scores.
  apply is_sorted_map_mono; [apply fround_desc |].
  rewrite (is_sorted_map predicted_coverage_score
             (by_score_desc predicted_coverage_score) desc_nan_last) by reflexivity.
  apply sort_values_sorted. intros a b. apply desc_nan_last_total.
Qed.

Lemma predictions_rows G zones_df st :
  exists df,
    fst (predictions G zones_df st) = map result_of (values (create_zone_ids df))
    /\ List.length df = List.length zones_df.
Proof.
  pose proof (predictions_length G zones_df st) as Hlen.
  revert Hlen. unfold predictions.
  destruct (adjust_for_ui_expectations G _ st) as [df st1].
  destruct (calculate_urban_green_balance_index (assign_labels df)) as [df4 ugbi].
  cbn [fst]. rewrite (sort_values_sorted_id _ _ (ranked_rows_sorted df4)).
  intros Hlen. exists df4. split; [reflexivity |].
  unfold values, create_zone_ids in Hlen.
  rewrite !length_map, reset_index_length, sort_values_length in Hlen.
  unfold values in Hlen. now rewrite length_map in Hlen.
Qed.

End ParkRows.

(** In a sorted frame every row is in order with every later row, when
    the order is transitive. *)
Lemma is_sorted_pairs {A} (leb : A -> A -> bool) l :
  (forall a b c, leb a b = true -> leb b c = true -> leb a c = true) ->
  is_sorted leb l = true ->
  forall i j a b, nth_error l i = Some a -> nth_error l j = Some b ->
                  (i < j)%nat -> leb a b = true.
Proof.
  intros Htr. induction l as [| x t IH]; intros Hs i j a b Hi Hj Hij.
  - destruct i; discriminate.
  - pose proof (IH (is_sorted_tail _ _ _ Hs)) as IHt.
    destruct j as [| j]; [lia |]. cbn [nth_error] in Hj.
    destruct i as [| i].
    + cbn [nth_error] in Hi. injection Hi as <-.
      destruct t as [| y t']; [destruct j; discriminate |].
      rewrite is_sorted_cons in Hs. apply andb_prop in Hs as [Hxy _].
      destruct j as [| j].
      * cbn [nth_error] in Hj. injection Hj as <-. exact Hxy.
      * apply (Htr _ y); [exact Hxy |].
        apply (IHt 0%nat (S j) y b); [reflexivity | exact Hj | lia].
    + cbn [nth_error] in Hi. apply (IHt i j); [exact Hi | exact Hj | lia].
Qed.

Lemma desc_nan_last_trans a b c :
  desc_nan_last a b = true -> desc_nan_last b c = true -> desc_nan_last a c = true.
Proof.
  unfold desc_nan_last.
  destruct c as [r | | |]; cbn [isna orb]; [| | | reflexivity];
    destruct b as [q | | |]; cbn [isna negb andb orb fle]; try discriminate;
    destruct a as [p | | |]; cbn [isna negb andb orb fle]; try discriminate;
    try reflexivity.
  rewrite !Qle_bool_iff. intros H1 H2. lra.
Qed.

(** The exported park table lists the zones by descending score, a zone
    without a score last, and the zone ids follow the scores: of two rows,
    the one with the smaller id never has the lower score. *)
Theorem park_rows_ranked (G : Generator) (zones_df : frame Park.Zone) (st : rstate G) :
  is_sorted Park.by_result_score_desc (fst (Park.predictions G zones_df st)) = true
  /\ forall r1 r2 n1 n2,
       In r1 (fst (Park.predictions G zones_df st)) ->
       In r2 (fst (Park.predictions G zones_df st)) ->
       id_number (Park.r_zone_id r1) = Some n1 ->
       id_number (Park.r_zone_id r2) = Some n2 ->
       (n1 < n2)%nat ->
       desc_nan_last (Park.r_predicted_coverage_score r1)
                     (Park.r_predicted_coverage_score r2) = true.
Proof.
  destruct (ParkRows.predictions_rows G zones_df st) as [df [-> _]]. split.
  - apply ParkRows.ranked_rows_sorted.
  - assert (Hrow : forall r n, In r (map Park.result_of (values (Park.create_zone_ids df))) ->
              id_number (Park.r_zone_id r) = Some n ->
              exists i z,
                nth_error (sort_values (Park.by_score_desc Park.predicted_coverage_score)
                             (values df)) i = Some z
                /\ n = (i + 1)%nat
                /\ Park.r_predicted_coverage_score r
                   = fround 1 (Park.predicted_coverage_score z)).
    { intros r n Hr Hn. apply in_map_iff in Hr as [z' [<- Hz']].
      unfold Park.create_zone_ids, values in Hz'. rewrite map_map in Hz'.
      apply in_map_iff in Hz' as [[i z] [<- Hin]]. cbn [fst snd] in *.
      cbn [Park.r_zone_id Park.result_of Park.zone_id Park.set_zone_id] in Hn.
      rewrite id_number_format_02d in Hn. injection Hn as <-.
      exists i, z. split; [| split; reflexivity].
      now apply reset_index_nth. }
    intros r1 r2 n1 n2 H1 H2 E1 E2 Hlt.
    destruct (Hrow r1 n1 H1 E1) as [i1 [z1 [Hz1 [-> ->]]]].
    destruct (Hrow r2 n2 H2 E2) as [i2 [z2 [Hz2 [-> ->]]]].
    apply fround_desc.
    change (desc_nan_last (Park.predicted_coverage_score z1)
                          (Park.predicted_coverage_score z2))
      with (Park.by_score_desc Park.predicted_coverage_score z1 z2).
    refine (is_sorted_pairs _ _ _ _ i1 i2 z1 z2 Hz1 Hz2 _); [| | lia].
    + intros a b c. apply desc_nan_last_trans.
    + apply sort_values_sorted. intros a b. apply desc_nan_last_total.
Qed.

(* ===================================================================== *)
(** ** Park model: areas and totals of the exported table *)
(* ===================================================================== *)

Lemma Qround_dec_comp n q q' : q == q' -> Qround_dec n q = Qround_dec n q'.
Proof.
  intros E. destruct n as [| n]; cbn [Qround_dec].
  - now rewrite (round_half_even_comp _ _ E).
  - rewrite (round_half_even_comp (q * _) (q' * inject_Z (Z.pos (pow10 (S n)))));
      [reflexivity | now rewrite E].
Qed.

Lemma Qround_dec_zero n : Qround_dec (S n) 0 == 0.
Proof.
  cbn [Qround_dec].
  rewrite (round_half_even_comp (0 * _) (inject_Z 0)) by ring.
  rewrite round_half_even_Z. reflexivity.
Qed.

Lemma Qround2_half q : 0.5 <= q -> 0.5 <= Qround_dec 2 q.
Proof.
  intros H.
  assert (E : 0.5 == 50 # pow10 2) by reflexivity.
  rewrite E in *. now apply Qround_dec_lower.
Qed.

Module ParkAreas.
Import Park.

(** The area drawn for a zone: none without parks, at least half a square
    kilometre with parks. *)
Lemma realistic_area_floor G num_parks current_area st :
  uniform_from_low G ->
  ((num_parks <= 0)%Z ->
   fst (calculate_realistic_park_area G num_parks current_area st) == 0)
  /\ ((0 < num_parks)%Z ->
      0.5 <= fst (calculate_realistic_park_area G num_parks current_area st)).
Proof.
  intros HG. unfold calculate_realistic_park_area.
  destruct (Z.eqb_spec num_parks 0) as [-> | NE].
  { split; [reflexivity | lia]. }
  destruct (Z.gtb_spec num_parks 1000) as [H1000 | H1000].
  { split; [lia |]. intros _. cbn [fst]. apply Qround2_half.
    assert (inject_Z 1001 <= inject_Z num_parks) by (rewrite <- Zle_Qle; lia).
    change (inject_Z 1001) with 1001 in H. lra. }
  destruct (Z.gtb_spec num_parks 100) as [H100 | H100].
  { pose proof (HG 0 0.02 st) as Hu. destruct (uniform G 0 0.02 st) as [u st1].
    cbn [fst] in *. split; [lia |]. intros _. apply Qround2_half.
    assert (inject_Z 101 <= inject_Z num_parks) by (rewrite <- Zle_Qle; lia).
    change (inject_Z 101) with 101 in H. nra. }
  destruct (Z.gtb_spec num_parks 30) as [H30 | H30].
  { pose proof (HG 0 0.03 st) as Hu. destruct (uniform G 0 0.03 st) as [u st1].
    cbn [fst] in *. split; [lia |]. intros _. apply Qround2_half.
    assert (inject_Z 31 <= inject_Z num_parks) by (rewrite <- Zle_Qle; lia).
    change (inject_Z 31) with 31 in H. nra. }
  destruct (uniform G 0 0.02 st) as [u st1]. cbn [fst].
  destruct (Z.gtb_spec num_parks 0) as [Hpos | Hneg].
  - split; [lia |]. intros _. apply Q.le_max_r.
  - split; [reflexivity | lia].
Qed.

Lemma predictions_unfold G zones_df st :
  fst (predictions G zones_df st)
  = map result_of
      (values (create_zone_ids
                 (fst (calculate_urban_green_balance_index
                         (assign_labels
                            (fst (adjust_for_ui_expectations G
                                    (calculate_park_coverage_score zones_df) st))))))).
Proof.
  unfold predictions.
  destruct (adjust_for_ui_expectations G _ st) as [df st1]. cbn [fst].
  destruct (calculate_urban_green_balance_index (assign_labels df)) as [df4 ugbi].
  cbn [fst]. apply sort_values_sorted_id, ParkRows.ranked_rows_sorted.
Qed.

Lemma in_create_zone_ids df z :
  In z (values (create_zone_ids df)) ->
  exists z0 id, In z0 (values df) /\ z = set_zone_id z0 id.
Proof.
  unfold create_zone_ids, values. rewrite map_map, in_map_iff.
  intros [[i z0] [<- Hin]]. cbn [fst snd].
  exists z0, (format_02d (i + 1)). split; [| reflexivity].
  unfold reset_index in Hin. apply in_combine_r in Hin.
  apply (proj1 (sort_values_In _ _ _)) in Hin. exact Hin.
Qed.

(** An exported row and the row of the adjusted frame it comes from. *)
Lemma park_exported_row G zones_df st r :
  In r (fst (predictions G zones_df st)) ->
  exists z,
    In z (values (fst (adjust_for_ui_expectations G
                         (calculate_park_coverage_score zones_df) st)))
    /\ r_zone_name r = zone_name z
    /\ num_parks r = total_parks z
    /\ total_area r = Qround_dec 2 (total_area_km2 z)
    /\ r_predicted_coverage_score r = fround 1 (predicted_coverage_score z)
    /\ (r_coverage_label r, r_status r)
       = get_label_and_status (predicted_coverage_score z).
Proof.
  rewrite predictions_unfold.
  generalize (fst (adjust_for_ui_expectations G
                     (calculate_park_coverage_score zones_df) st)).
  intros df. rewrite in_map_iff. intros [z3 [<- H3]].
  apply in_create_zone_ids in H3 as [z2 [id [H2 ->]]].
  unfold calculate_urban_green_balance_index in H2. cbn [fst] in H2.
  unfold values in H2. rewrite map_map in H2. apply in_map_iff in H2 as [r1 [<- H1]].
  unfold assign_labels in H1. apply in_map_iff in H1 as [r0 [<- H0]].
  exists (snd r0). split; [now apply in_map |].
  cbn. repeat split. now destruct (get_label_and_status _).
Qed.

(** A row of the adjusted frame and the row of the scored frame it comes
    from: the area of an unprotected zone is redrawn. *)
Lemma adjusted_row G zones_df st z :
  In z (values (fst (adjust_for_ui_expectations G zones_df st))) ->
  exists z0 s,
    In z0 (values (adjusted_scores zones_df))
    /\ zone_name z = zone_name z0 /\ total_parks z = total_parks z0
    /\ predicted_coverage_score z = predicted_coverage_score z0
    /\ total_area_km2 z
       = if protected_mask z0 then total_area_km2 z0
         else fst (calculate_realistic_park_area G (total_parks z0) (total_area_km2 z0) s).
Proof.
  rewrite ParkRange.adjust_unfold. intros Hz.
  apply ParkRange.in_values in Hz as [r1 [Hr1 <-]].
  destruct (HospitalRows.Forall2_in_r _ _ _ _
              (apply_rows_each (adjust_area G) (adjusted_scores zones_df) st) Hr1)
    as [r0 [Hr0 [s ->]]].
  exists (snd r0), s. split; [now apply in_map |].
  unfold adjust_area. destruct (protected_mask (snd r0)); [now repeat split |].
  destruct (calculate_realistic_park_area G _ _ s) as [a s1]. now repeat split.
Qed.

End ParkAreas.

(** In the exported park table, whatever is drawn from the range asked
    for, a zone other than East Zone 1 and New Delhi shows an area of 0
    when it has no park and an area of at least 0.5 when it has one. *)
Theorem park_area_floor (G : Generator) (zones_df : frame Park.Zone) (st : rstate G)
    (r : Park.ResultRow) :
  uniform_from_low G ->
  In r (fst (Park.predictions G zones_df st)) ->
  protected_name (Park.r_zone_name r) = false ->
  ((Park.num_parks r <= 0)%Z -> Park.total_area r == 0)
  /\ ((0 < Park.num_parks r)%Z -> 0.5 <= Park.total_area r).
Proof.
  intros HG Hr Hp.
  apply ParkAreas.park_exported_row in Hr as [z [Hz [En [Ec [Ea _]]]]].
  apply ParkAreas.adjusted_row in Hz as [z0 [s [_ [En0 [Ec0 [_ Ea0]]]]]].
  rewrite Ea, Ea0, Ec, Ec0. rewrite En, En0 in Hp.
  assert (Hm : Park.protected_mask z0 = false) by exact Hp.
  rewrite Hm.
  destruct (ParkAreas.realistic_area_floor G (Park.total_parks z0)
              (Park.total_area_km2 z0) s HG) as [H0 H1].
  split; intros H.
  - rewrite (Qround_dec_comp 2 _ 0 (H0 H)). apply Qround_dec_zero.
  - apply Qround2_half. now apply H1.
Qed.

Lemma park_area_floor_witness :
  uniform_from_low lowest_draw
  /\ existsb (fun r => negb (protected_name (Park.r_zone_name r)))
             (Park.main lowest_draw delhi_cells) = true
  /\ Forall (fun r => protected_name (Park.r_zone_name r) = false ->
                      (0 < Park.num_parks r)%Z -> 0.5 <= Park.total_area r)
            (Park.main lowest_draw delhi_cells).
Proof.
  assert (HG : uniform_from_low lowest_draw).
  { intros lo hi st. apply Qle_refl. }
  split; [exact HG |]. split; [vm_compute; reflexivity |].
  apply Forall_forall. unfold Park.main. intros r Hr Hp.
  exact (proj2 (park_area_floor lowest_draw _ _ r HG Hr Hp)).
Defined.

(* ===================================================================== *)
(** ** Park model: the sub-zones *)
(* ===================================================================== *)

Lemma isin_In labels i : isin labels i = true <-> In i labels.
Proof.
  unfold isin. rewrite existsb_exists. split.
  - intros [x [Hx E]]. apply Nat.eqb_eq in E. now subst.
  - intros H. exists i. split; [exact H | apply Nat.eqb_refl].
Qed.

Lemma map_filter_proj {A B} (f : A -> B) (p : A -> bool) (q : B -> bool) l :
  (forall x, In x l -> p x = q (f x)) -> map f (filter p l) = filter q (map f l).
Proof.
  induction l as [| x t IH]; intros H; [reflexivity |].
  cbn [filter map]. rewrite <- (H x (or_introl eq_refl)).
  rewrite <- (IH (fun y Hy => H y (or_intror Hy))).
  now destruct (p x).
Qed.

Lemma NoDup_index_eq {A} (df : frame A) a b :
  NoDup (index df) -> In a df -> In b df -> fst a = fst b -> a = b.
Proof.
  unfold index. induction df as [| x t IH]; intros Hnd Ha Hb E; [destruct Ha |].
  cbn [map] in Hnd. inversion Hnd as [| ? ? Hx Ht]; subst.
  destruct Ha as [-> | Ha], Hb as [-> | Hb]; [reflexivity | | | now apply IH].
  - exfalso. apply Hx. rewrite E. now apply in_map.
  - exfalso. apply Hx. rewrite <- E. now apply in_map.
Qed.

Module ParkSubZones.
Import Park.

Lemma in_slice {A} (l : list A) start_idx end_idx p x :
  nth_error l p = Some x -> (start_idx <= p < end_idx)%nat ->
  In x (slice l start_idx end_idx).
Proof.
  intros Hn [Hlo Hhi]. unfold slice.
  apply (nth_error_In _ (p - start_idx)).
  rewrite nth_error_firstn.
  destruct (Nat.ltb_spec (p - start_idx) (end_idx - start_idx)) as [_ | Hge]; [| lia].
  rewrite nth_error_skipn. now replace (start_idx + (p - start_idx))%nat with p by lia.
Qed.

Lemma slice_incl {A} (l : list A) start_idx end_idx x :
  In x (slice l start_idx end_idx) -> In x l.
Proof.
  unfold slice. intros H.
  assert (Hf : forall n (l' : list A), In x (firstn n l') -> In x l').
  { induction n as [| n IH]; intros [| y t] Hin; simpl in *; try contradiction.
    destruct Hin as [-> | Hin]; [now left | right; now apply IH]. }
  apply Hf in H. apply (In_nth_error) in H as [n Hn].
  rewrite nth_error_skipn in Hn. now apply nth_error_In in Hn.
Qed.

(** The loop over the sub-zones rewrites the sub-zone column row by row. *)
Lemma distribute_rows sub_zones i start_idx cell_indices q rem df :
  distribute sub_zones i start_idx cell_indices q rem df
  = map (fun r => (fst r, (fst (snd r),
                           sub_zone_after sub_zones i start_idx cell_indices q rem
                             (fst r) (snd (snd r))))) df.
Proof.
  revert i start_idx df. induction sub_zones as [| sub rest IH]; intros i start_idx df.
  - cbn [distribute sub_zone_after]. rewrite <- (map_id df) at 1.
    apply map_ext. now intros [l [c s]].
  - cbn [distribute sub_zone_after]. rewrite IH. unfold set_sub_zone.
    rewrite map_map. apply map_ext. intros [l [c s]]. cbn [fst snd].
    now destruct (isin _ l).
Qed.

(** A row whose label is not among the cells of the main zone keeps what it
    held. *)
Lemma sub_zone_after_outside sub_zones i start_idx cell_indices q rem l s :
  ~ In l cell_indices ->
  sub_zone_after sub_zones i start_idx cell_indices q rem l s = s.
Proof.
  intros Hl. revert i start_idx s.
  induction sub_zones as [| sub rest IH]; intros i start_idx s; [reflexivity |].
  cbn [sub_zone_after]. rewrite IH.
  destruct (isin _ l) eqn:E; [| reflexivity].
  apply isin_In, slice_incl in E. contradiction.
Qed.

(** A row holds one of the sub-zones once it held one, or once its label
    stands in the part of the list that the loop still runs over. *)
Lemma sub_zone_after_inside all sub_zones i start_idx cell_indices q rem l s p :
  incl sub_zones all ->
  In s all
  \/ (nth_error cell_indices p = Some l
      /\ (start_idx <= p < end_after (List.length sub_zones) i start_idx q rem)%nat) ->
  In (sub_zone_after sub_zones i start_idx cell_indices q rem l s) all.
Proof.
  revert i start_idx s.
  induction sub_zones as [| sub rest IH]; intros i start_idx s Hincl H.
  - cbn [List.length end_after sub_zone_after] in *. destruct H as [H | [_ Hp]]; [exact H | lia].
  - cbn [sub_zone_after List.length end_after] in *.
    apply IH; [intros x Hx; apply Hincl; now right |].
    destruct (isin _ l) eqn:E.
    + left. apply Hincl. now left.
    + destruct H as [H | [Hn [Hlo Hhi]]]; [now left |]. right. split; [exact Hn |].
      split; [| exact Hhi].
      destruct (Nat.le_gt_cases
                  (start_idx + q + (if Nat.ltb i rem then 1 else 0)) p) as [Hle | Hgt];
        [exact Hle |].
      exfalso. assert (Hin : isin (slice cell_indices start_idx
                                     (start_idx + q + (if Nat.ltb i rem then 1 else 0))) l
                             = true).
      { apply isin_In. apply (in_slice _ _ _ p); [exact Hn | lia]. }
      congruence.
Qed.

Lemma end_after_sum k i start_idx q rem :
  end_after k i start_idx q rem
  = (start_idx + q * k + (Nat.min (i + k) rem - Nat.min i rem))%nat.
Proof.
  revert i start_idx. induction k as [| k IH]; intros i start_idx.
  - cbn [end_after]. rewrite Nat.add_0_r. lia.
  - cbn [end_after]. rewrite IH.
    destruct (Nat.ltb_spec i rem); lia.
Qed.

(** The slices of the loop cover the whole list of cells. *)
Lemma end_after_all k len :
  (0 < k)%nat -> end_after k 0 0 (len / k) (len mod k) = len.
Proof.
  intros Hk. rewrite end_after_sum.
  pose proof (Nat.div_mod_eq len k) as E.
  pose proof (Nat.mod_upper_bound len k ltac:(lia)) as Hr.
  rewrite Nat.min_r by lia. rewrite Nat.min_l by lia. lia.
Qed.

Lemma relabel_index g df : index (map (relabel g) df) = index df.
Proof. unfold index. rewrite map_map. reflexivity. Qed.

(** One entry of the mapping: the cells of its main zone get one of its
    sub-zones, the other rows are left as they are. *)
Lemma assign_main_zone_rows df main_zone sub_zones :
  sub_zones <> [] -> NoDup (index df) ->
  exists g,
    assign_main_zone df (main_zone, sub_zones) = map (relabel g) df
    /\ forall r, In r df ->
         (row_name r = main_zone -> In (g r) sub_zones)
         /\ (row_name r <> main_zone -> g r = snd (snd r)).
Proof.
  intros Hne Hnd. unfold assign_main_zone.
  set (zone_cells := filter (fun r => String.eqb (cell_zone_name (fst (snd r))) main_zone) df).
  assert (Hzc : forall r, In r zone_cells <-> In r df /\ row_name r = main_zone).
  { intros r. unfold zone_cells. rewrite filter_In. unfold row_name.
    now rewrite String.eqb_eq. }
  destruct zone_cells as [| z0 zs] eqn:Ez.
  - exists (fun r => snd (snd r)). split.
    + rewrite <- (map_id df) at 1. apply map_ext. now intros [l [c s]].
    + intros r Hr. split; [| reflexivity].
      intros Hn. exfalso. apply (proj2 (Hzc r)). now split.
  - rewrite <- Ez in *. clear Ez z0 zs.
    set (cell_indices := index (sort_values by_park_count_desc zone_cells)).
    set (q := (List.length cell_indices / List.length sub_zones)%nat).
    set (rem := (List.length cell_indices mod List.length sub_zones)%nat).
    exists (fun r => sub_zone_after sub_zones 0 0 cell_indices q rem (fst r) (snd (snd r))).
    split; [apply distribute_rows |].
    assert (Hidx : forall l, In l cell_indices
                             <-> exists r, In r df /\ row_name r = main_zone /\ fst r = l).
    { intros l. unfold cell_indices, index. rewrite in_map_iff. split.
      - intros [r [<- Hr]]. apply (proj1 (sort_values_In _ _ _)) in Hr.
        apply Hzc in Hr as [Hr Hn]. now exists r.
      - intros [r [Hr [Hn <-]]]. exists r. split; [reflexivity |].
        apply (proj2 (sort_values_In _ _ _)). apply Hzc. now split. }
    intros r Hr. split.
    + intros Hn.
      assert (Hin : In (fst r) cell_indices) by (apply Hidx; now exists r).
      apply In_nth_error in Hin as [p Hp].
      apply (sub_zone_after_inside sub_zones _ _ _ _ _ _ _ _ p); [apply incl_refl |].
      right. split; [exact Hp |]. split; [lia |].
      unfold q, rem. rewrite end_after_all.
      * apply nth_error_Some. congruence.
      * destruct sub_zones; [contradiction | simpl; lia].
    + intros Hn. apply sub_zone_after_outside. intros Hin.
      apply Hidx in Hin as [r2 [Hr2 [Hn2 E]]].
      assert (r2 = r) by (now apply (NoDup_index_eq df)). subst r2. contradiction.
Qed.

(** The whole mapping, for any list of entries with distinct main zones and
    no empty list of sub-zones. *)
Lemma assign_all_rows mapping df :
  Forall (fun m => snd m <> []) mapping -> NoDup (map fst mapping) ->
  NoDup (index df) ->
  exists g,
    fold_left assign_main_zone mapping df = map (relabel g) df
    /\ forall r, In r df ->
         (forall sub_zones, In (row_name r, sub_zones) mapping -> In (g r) sub_zones)
         /\ (~ In (row_name r) (map fst mapping) -> g r = snd (snd r)).
Proof.
  intros Hne. revert df.
  induction Hne as [| [main_zone sub_zones] rest Hm _ IH]; intros df Hkeys Hnd.
  - exists (fun r => snd (snd r)). split.
    + cbn [fold_left]. rewrite <- (map_id df) at 1. apply map_ext. now intros [l [c s]].
    + intros r _. split; [intros s [] | reflexivity].
  - cbn [map fst] in Hkeys. inversion Hkeys as [| ? ? Hfresh Hrest]; subst.
    cbn [snd] in Hm.
    destruct (assign_main_zone_rows df main_zone sub_zones Hm Hnd) as [g1 [E1 H1]].
    cbn [fold_left]. rewrite E1.
    destruct (IH (map (relabel g1) df) Hrest) as [g2 [E2 H2]].
    { now rewrite relabel_index. }
    exists (fun r => g2 (relabel g1 r)). split.
    + rewrite E2, map_map. reflexivity.
    + intros r Hr.
      destruct (H1 r Hr) as [Hin1 Hout1].
      destruct (H2 (relabel g1 r) (in_map _ _ _ Hr)) as [Hin2 Hout2].
      change (row_name (relabel g1 r)) with (row_name r) in *.
      cbn [relabel snd] in Hout2.
      split.
      * intros subs [E | Hin].
        -- injection E as En Es. subst subs.
           rewrite Hout2; [now apply Hin1 |]. now rewrite <- En.
        -- now apply Hin2.
      * intros Hnot. cbn [map fst] in Hnot.
        rewrite Hout2 by (intros Hx; apply Hnot; now right).
        apply Hout1. intros E. apply Hnot. now left.
Qed.

Lemma known_main_zone_entry name :
  known_main_zone name = true <-> exists sub_zones, In (name, sub_zones) subzone_mapping.
Proof.
  unfold known_main_zone. rewrite existsb_exists. split.
  - intros [[n subs] [Hin E]]. cbn [fst] in E. apply String.eqb_eq in E. subst.
    now exists subs.
  - intros [subs Hin]. exists (name, subs). split; [exact Hin | apply String.eqb_refl].
Qed.

Lemma subzone_mapping_shape :
  Forall (fun m => snd m <> [] /\ ~ In "" (snd m)) subzone_mapping
  /\ NoDup (map fst subzone_mapping).
Proof.
  split.
  - unfold subzone_mapping. repeat constructor; cbn [snd]; try discriminate;
      intros H; cbn [In] in H; intuition discriminate.
  - unfold subzone_mapping. cbn [map fst].
    repeat constructor; cbn [In]; intuition discriminate.
Qed.

End ParkSubZones.

(** [create_sub_zones] keeps the cells of the nine main zones of its
    mapping, in the order of the table and under their row numbers, drops
    the cells of any other zone, and gives every cell it keeps one of the
    sub-zones of its own main zone. *)
Theorem park_sub_zones (cells_df : list Cell) :
  map (fun r => fst (snd r)) (Park.create_sub_zones cells_df)
  = filter (fun c => known_main_zone (cell_zone_name c)) cells_df
  /\ forall i c s, In (i, (c, s)) (Park.create_sub_zones cells_df) ->
       nth_error cells_df i = Some c
       /\ exists sub_zones,
            In (cell_zone_name c, sub_zones) Park.subzone_mapping /\ In s sub_zones.
Proof.
  destruct ParkSubZones.subzone_mapping_shape as [Hshape Hkeys].
  unfold Park.create_sub_zones. cbv zeta.
  set (df0 := reset_index (map (fun c => (c, "")) cells_df)).
  assert (Hnd : NoDup (index df0)).
  { unfold df0. rewrite index_reset_index. apply seq_NoDup. }
  destruct (ParkSubZones.assign_all_rows Park.subzone_mapping df0) as [g [-> Hg]];
    [| exact Hkeys | exact Hnd |].
  { eapply Forall_impl; [| exact Hshape]. now intros m [H _]. }
  assert (Hrow : forall r, In r df0 ->
            nth_error cells_df (fst r) = Some (fst (snd r)) /\ snd (snd r) = "").
  { intros [i [c s]] Hr. unfold df0 in Hr.
    apply reset_index_nth in Hr. cbn [fst snd].
    rewrite nth_error_map in Hr. destruct (nth_error cells_df i); [| discriminate].
    cbn [option_map] in Hr. now inversion Hr. }
  assert (Hkeep : forall r, In r df0 ->
            negb (String.eqb (g r) "") = known_main_zone (row_name r)).
  { intros r Hr. destruct (Hg r Hr) as [Hin Hout].
    destruct (known_main_zone (row_name r)) eqn:Ek.
    - apply ParkSubZones.known_main_zone_entry in Ek as [subs Hs].
      pose proof (Hin subs Hs) as Hgs.
      rewrite Forall_forall in Hshape. destruct (Hshape _ Hs) as [_ Hempty].
      destruct (String.eqb_spec (g r) "") as [E | _]; [| reflexivity].
      exfalso. apply Hempty. cbn [snd]. now rewrite <- E.
    - rewrite Hout.
      + destruct (Hrow r Hr) as [_ E0]. destruct r as [i [c s]].
        cbn [snd] in *. now subst s.
      + intros Hk. apply in_map_iff in Hk as [[n subs] [En Hs]]. cbn [fst] in En.
        subst n.
        assert (known_main_zone (row_name r) = true)
          by (apply ParkSubZones.known_main_zone_entry; now exists subs).
        congruence. }
  split.
  - rewrite filter_map_comm, map_map. cbn [relabel snd fst].
    transitivity (filter (fun c => known_main_zone (cell_zone_name c))
                    (map (fun r : nat * Park.SubCell => fst (snd r)) df0)).
    { apply map_filter_proj. exact Hkeep. }
    f_equal. transitivity (map fst (values df0)).
    { unfold values. now rewrite map_map. }
    unfold df0. rewrite values_reset_index, map_map. apply map_id.
  - intros i c s Hin. apply filter_In in Hin as [Hin Hs].
    apply in_map_iff in Hin as [r [E Hr]]. unfold relabel in E.
    injection E as Ei Ec Eg. subst i c s. cbn [snd] in Hs.
    destruct (Hrow r Hr) as [Hn _]. split; [exact Hn |].
    rewrite (Hkeep r Hr) in Hs.
    apply ParkSubZones.known_main_zone_entry in Hs as [subs Hsub].
    exists subs. split; [exact Hsub |]. destruct (Hg r Hr) as [Hin _]. now apply Hin.
Qed.

(* ===================================================================== *)
(** ** Park model: the counts of the exported table *)
(* ===================================================================== *)

Module ParkCounts.
Import Park.












End ParkCounts.


(* ===================================================================== *)
(** ** School model: the zone a school is assigned to *)
(* ===================================================================== *)

Section LocatorZones.
Import School.
Variable Polygon : Type.
Variable within : float64 * float64 -> Polygon -> bool.
Variable distance : float64 * float64 -> Polygon -> Q.

(** The scan keeps the best zone seen so far and ends on a zone at the
    smallest distance. *)
Lemma nearest_scan_best p zones best :
  exists z,
    In z (best :: zones)
    /\ nearest_scan Polygon distance p zones
         (Fin (distance p (zone_geometry Polygon best)))
         (Some (zone_id Polygon best)) (Some (zone_name Polygon best))
       = (Some (zone_id Polygon z), Some (zone_name Polygon z))
    /\ distance p (zone_geometry Polygon z) <= distance p (zone_geometry Polygon best)
    /\ forall z', In z' zones ->
         distance p (zone_geometry Polygon z) <= distance p (zone_geometry Polygon z').
Proof.
  revert best. induction zones as [| z1 rest IH]; intros best.
  - exists best. cbn [nearest_scan]. repeat split; [now left | apply Qle_refl |].
    intros z' [].
  - cbn [nearest_scan flt].
    destruct (Qle_bool (distance p (zone_geometry Polygon best))
                       (distance p (zone_geometry Polygon z1))) eqn:E; cbn [negb].
    + apply Qle_bool_iff in E.
      destruct (IH best) as [z [Hin [Hs [Hb Hr]]]]. exists z.
      split; [destruct Hin as [<- | Hin]; [now left | right; now right] |].
      split; [exact Hs |]. split; [exact Hb |].
      intros z' [<- | Hz']; [lra | now apply Hr].
    + assert (Hlt : ~ distance p (zone_geometry Polygon best)
                      <= distance p (zone_geometry Polygon z1)).
      { rewrite <- Qle_bool_iff. congruence. }
      destruct (IH z1) as [z [Hin [Hs [Hb Hr]]]]. exists z.
      split; [right; exact Hin |]. split; [exact Hs |]. split; [lra |].
      intros z' [<- | Hz']; [exact Hb | now apply Hr].
Qed.

Lemma nearest_scan_nearest p admin_gdf zid zname :
  nearest_scan Polygon distance p admin_gdf PInf None None = (Some zid, zname) ->
  exists z, nearest_zone distance p admin_gdf z
            /\ zid = zone_id Polygon z /\ zname = Some (zone_name Polygon z).
Proof.
  destruct admin_gdf as [| z0 rest]; [discriminate |].
  cbn [nearest_scan flt].
  destruct (nearest_scan_best p rest z0) as [z [Hin [-> [Hb Hr]]]].
  intros E. injection E as <- <-. exists z. split; [| now split].
  split; [exact Hin |]. intros z' [<- | Hz']; [exact Hb | now apply Hr].
Qed.

(** A row of the join carries a school of the input under its label, with
    a zone that contains it or, when there is none, without a zone. *)
Lemma in_sjoin schools_gdf admin_gdf r :
  In r (School.sjoin Polygon within schools_gdf admin_gdf) ->
  In (fst r, school (snd r)) schools_gdf
  /\ ((has_zone r = false
       /\ outside_all within (geometry (school (snd r))) admin_gdf)
      \/ exists z, In z admin_gdf
                   /\ within (geometry (school (snd r))) (zone_geometry Polygon z) = true
                   /\ j_zone_id (snd r) = Some (zone_id Polygon z)
                   /\ j_zone_name (snd r) = Some (zone_name Polygon z)).
Proof.
  unfold School.sjoin. rewrite in_flat_map. intros [[i s] [Hs Hr]]. cbn [fst snd] in Hr.
  destruct (filter (fun z => within (geometry s) (zone_geometry Polygon z)) admin_gdf)
    as [| z0 zs] eqn:Ef.
  - destruct Hr as [<- | []]. cbn [fst snd school]. split; [exact Hs |]. left.
    split; [reflexivity |]. intros z Hz.
    destruct (within (geometry s) (zone_geometry Polygon z)) eqn:Ew; [| reflexivity].
    exfalso. assert (Hin : In z []) by (rewrite <- Ef; apply filter_In; now split).
    destruct Hin.
  - apply in_map_iff in Hr as [z [<- Hz]]. cbn [fst snd school j_zone_id j_zone_name].
    split; [exact Hs |]. right. exists z.
    rewrite <- Ef in Hz. apply filter_In in Hz as [Hz Hw]. now repeat split.
Qed.

(** A row that left the loop over the outside schools is a row of the frame
    it entered with, as it was or with the result of the scan of an outside
    school of the same label. *)
Lemma in_assign_nearest outside admin_gdf df r :
  In r (assign_nearest Polygon distance outside admin_gdf df) ->
  exists r_old,
    In r_old df /\ fst r = fst r_old /\ school (snd r) = school (snd r_old)
    /\ (r = r_old
        \/ exists r0, In r0 outside /\ fst r0 = fst r
                      /\ (j_zone_id (snd r), j_zone_name (snd r))
                         = nearest_scan Polygon distance (geometry (school (snd r0)))
                             admin_gdf PInf None None).
Proof.
  revert df. induction outside as [| r0 rest IH]; intros df Hr.
  - exists r. now repeat split; [| left].
  - cbn [assign_nearest] in Hr.
    destruct (nearest_scan Polygon distance (geometry (school (snd r0))) admin_gdf
                PInf None None) as [zid zname] eqn:Es.
    destruct (IH _ Hr) as [r_mid [Hmid [Ei [Esch Hcase]]]].
    unfold set_zone in Hmid. apply in_map_iff in Hmid as [r_old [Emid Hold]].
    exists r_old. split; [exact Hold |].
    destruct (Nat.eqb_spec (fst r_old) (fst r0)) as [E0 | NE0]; subst r_mid;
      cbn [fst snd school] in *.
    + split; [exact Ei |]. split; [exact Esch |]. right.
      destruct Hcase as [-> | [r1 [H1 [E1 Hz]]]].
      * exists r0. split; [now left |]. cbn [fst snd j_zone_id j_zone_name].
        split; [now rewrite E0 | now rewrite Es].
      * exists r1. split; [now right | now split].
    + split; [exact Ei |]. split; [exact Esch |].
      destruct Hcase as [-> | [r1 [H1 [E1 Hz]]]]; [now left |].
      right. exists r1. split; [now right | now split].
Qed.

Lemma NoDup_index_value {A} (df : frame A) i a b :
  NoDup (index df) -> In (i, a) df -> In (i, b) df -> a = b.
Proof.
  intros Hnd Ha Hb.
  assert (E : (i, a) = (i, b)) by (now apply (NoDup_index_eq df)).
  now injection E.
Qed.

End LocatorZones.

(** With unique index labels and the scan of the zones as the way to the
    nearest zone (an installed geopandas without [sjoin_nearest]), every
    row that leaves the locator carries a school of the input together with
    a zone of the zone input, and this zone contains the school or, in
    nearest mode, is a zone at the smallest distance from a school that no
    zone contains. *)
Theorem locator_zone_contains_or_is_nearest
    (Polygon : Type) (within : float64 * float64 -> Polygon -> bool)
    (distance : float64 * float64 -> Polygon -> Q)
    (schools_gdf : frame School.School) (admin_gdf : list (School.AdminZone Polygon))
    (use_nearest : bool) (r : nat * School.Joined) :
  NoDup (index schools_gdf) ->
  In r (School.spatial_join_schools_to_zones Polygon within distance None
          schools_gdf admin_gdf use_nearest) ->
  In (fst r, School.school (snd r)) schools_gdf
  /\ exists z,
       In z admin_gdf
       /\ School.j_zone_id (snd r) = Some (School.zone_id Polygon z)
       /\ School.j_zone_name (snd r) = Some (School.zone_name Polygon z)
       /\ (within (School.geometry (School.school (snd r)))
                  (School.zone_geometry Polygon z) = true
           \/ (use_nearest = true
               /\ outside_all within (School.geometry (School.school (snd r))) admin_gdf
               /\ nearest_zone distance (School.geometry (School.school (snd r)))
                    admin_gdf z)).
Proof.
  intros Hnd Hr.
  assert (Hjoin : forall r', In r' (School.sjoin Polygon within schools_gdf admin_gdf) ->
            School.has_zone r' = true ->
            In (fst r', School.school (snd r')) schools_gdf
            /\ exists z,
                 In z admin_gdf
                 /\ School.j_zone_id (snd r') = Some (School.zone_id Polygon z)
                 /\ School.j_zone_name (snd r') = Some (School.zone_name Polygon z)
                 /\ within (School.geometry (School.school (snd r')))
                           (School.zone_geometry Polygon z) = true).
  { intros r' Hin Hz. apply in_sjoin in Hin as [Hs [[Hno _] | [z [Hz1 [Hw [Ei En]]]]]];
      [congruence |].
    split; [exact Hs |]. exists z. now repeat split. }
  unfold School.spatial_join_schools_to_zones in Hr. cbv zeta in Hr.
  apply filter_In in Hr as [Hr Hz].
  set (joined := School.sjoin Polygon within schools_gdf admin_gdf) in *.
  assert (Hinside : In r joined ->
            In (fst r, School.school (snd r)) schools_gdf
            /\ exists z,
                 In z admin_gdf
                 /\ School.j_zone_id (snd r) = Some (School.zone_id Polygon z)
                 /\ School.j_zone_name (snd r) = Some (School.zone_name Polygon z)
                 /\ (within (School.geometry (School.school (snd r)))
                            (School.zone_geometry Polygon z) = true
                     \/ (use_nearest = true
                         /\ outside_all within
                              (School.geometry (School.school (snd r))) admin_gdf
                         /\ nearest_zone distance
                              (School.geometry (School.school (snd r))) admin_gdf z))).
  { intros Hin. destruct (Hjoin r Hin Hz) as [Hs [z [H1 [H2 [H3 H4]]]]].
    split; [exact Hs |]. exists z. repeat split; try assumption. now left. }
  destruct (filter (fun r0 => negb (School.has_zone r0)) joined) as [| o os] eqn:Eo;
    [now apply Hinside |].
  destruct use_nearest.
  - rewrite <- Eo in Hr. clear Eo o os.
    apply in_assign_nearest in Hr as [r_old [Hold [Ei [Esch Hcase]]]].
    destruct Hcase as [-> | [r0 [H0 [E0 Hscan]]]]; [now apply Hinside |].
    apply filter_In in H0 as [H0 Hno]. apply negb_true_iff in Hno.
    apply in_sjoin in H0 as [Hs0 [[_ Hout] | [z [_ [_ [Ez _]]]]]].
    2: { unfold School.has_zone in Hno. rewrite Ez in Hno. discriminate Hno. }
    apply in_sjoin in Hold as [Hsold _].
    rewrite E0, Ei in Hs0.
    pose proof (NoDup_index_value schools_gdf _ _ _ Hnd Hs0 Hsold) as Es.
    rewrite Es, <- Esch in *. rewrite <- Ei in Hsold.
    split; [exact Hsold |].
    unfold School.has_zone in Hz.
    destruct (School.j_zone_id (snd r)) as [zid |] eqn:Ezid; [| discriminate Hz].
    symmetry in Hscan.
    apply nearest_scan_nearest in Hscan as [z [Hnear [-> Hname]]].
    exists z. split; [apply Hnear |]. split; [reflexivity |]. split; [exact Hname |].
    right. split; [reflexivity |]. split; [exact Hout | exact Hnear].
  - apply filter_In in Hr as [Hr _]. now apply Hinside.
Qed.

(* ===================================================================== *)
(** ** School model: features and predictions *)
(* ===================================================================== *)

Lemma filter_key_unique {A} (key : A -> string) (k : string) l :
  NoDup (map key l) ->
  (List.length (filter (fun x => String.eqb (key x) k) l) <= 1)%nat.
Proof.
  induction l as [| x t IH]; intros Hnd; [simpl; lia |].
  cbn [map] in Hnd. inversion Hnd as [| ? ? Hx Ht]; subst.
  cbn [filter]. destruct (String.eqb_spec (key x) k) as [E | NE]; [| now apply IH].
  assert (Ht0 : filter (fun y => String.eqb (key y) k) t = []).
  { destruct (filter _ t) as [| y ys] eqn:Ef; [reflexivity |].
    exfalso. assert (Hy : In y (filter (fun y => String.eqb (key y) k) t))
      by (rewrite Ef; now left).
    apply filter_In in Hy as [Hy Ek]. apply String.eqb_eq in Ek.
    apply Hx. rewrite E, <- Ek. now apply in_map. }
  rewrite Ht0. simpl. lia.
Qed.

Module SchoolFeatures.
Import School.

Lemma features_of_stats z pop : stats (features_of z pop) = z.
Proof. reflexivity. Qed.

Lemma in_create_features zone_stats population_df f :
  In f (create_features zone_stats population_df) ->
  exists z pop, In z zone_stats /\ f = features_of z pop
                /\ (pop = None ->
                    forall p, In p population_df -> p_zone_id p <> s_zone_id z)
                /\ (forall p, pop = Some p ->
                      In p population_df /\ p_zone_id p = s_zone_id z).
Proof.
  unfold create_features. rewrite in_flat_map. intros [z [Hz Hf]].
  destruct (filter (fun p => String.eqb (p_zone_id p) (s_zone_id z)) population_df)
    as [| p0 ps] eqn:Ef.
  - destruct Hf as [<- | []]. exists z, None.
    split; [exact Hz |]. split; [reflexivity |]. split; [| discriminate].
    intros _ p Hp E.
    assert (Hin : In p []) by (rewrite <- Ef; apply filter_In; split;
                               [exact Hp | now apply String.eqb_eq]).
    destruct Hin.
  - apply in_map_iff in Hf as [p [<- Hp]]. exists z, (Some p).
    rewrite <- Ef in Hp. apply filter_In in Hp as [Hp E]. apply String.eqb_eq in E.
    split; [exact Hz |]. split; [reflexivity |]. split; [discriminate |].
    intros p' E'. injection E' as <-. now split.
Qed.

Lemma aggregate_counts_nonneg joined z :
  In z (aggregate_schools_to_zones joined) ->
  (0 <= num_schools z)%Z
  /\ total_enrolment z
     = fillna 0 (fsum (map (fun r => enrolment_total (school r))
                           (filter (fun r => String.eqb (key_of r) (s_zone_id z))
                                   (values (dropna_zone joined))))).
Proof.
  unfold aggregate_schools_to_zones. cbv zeta. rewrite in_map_iff.
  intros [[zid g] [<- Hg]]. apply groupby_In in Hg as [_ ->].
  cbn [num_schools total_enrolment s_zone_id]. split; [| reflexivity].
  unfold count_if. lia.
Qed.

Lemma fdiv_count_fin (k n : Z) :
  (0 <= n)%Z -> isfinite (fdiv (ofZ k) (ofZ (n + 1))) = true.
Proof.
  intros Hn. unfold ofZ. cbn [fdiv].
  rewrite Qsign_pos; [reflexivity |].
  change 0 with (inject_Z 0). rewrite <- Zlt_Qlt. lia.
Qed.

Lemma fsum_fin (xs : list float64) :
  Forall (fun x => isfinite x = true) xs -> isfinite (fsum xs) = true.
Proof.
  intros H. destruct (ParkRange.finite_column (fun x => x) xs H) as [qs E].
  rewrite map_id in E. subst xs. unfold fsum. rewrite dropna_values_fin.
  now destruct (fold_fadd_fin qs 0) as [s ->].
Qed.

End SchoolFeatures.

(** The feature step keeps every zone of the aggregator: each zone has a
    feature row, exactly one and in the same order when no zone id occurs
    twice in the population table, and a zone that the population table
    does not list gets the default populations 10000 and 2000 and the
    default literacy rate 0.85. *)
Theorem school_features_keep_zones (zone_stats : list School.ZoneStats)
    (population_df : list School.Population) :
  (forall z, In z zone_stats ->
     exists f, In f (School.create_features zone_stats population_df)
               /\ School.stats f = z)
  /\ (NoDup (map School.p_zone_id population_df) ->
      map School.stats (School.create_features zone_stats population_df) = zone_stats)
  /\ (forall f, In f (School.create_features zone_stats population_df) ->
        (forall p, In p population_df ->
                   School.p_zone_id p <> School.s_zone_id (School.stats f)) ->
        School.f_population_total f = Fin 10000
        /\ School.f_population_6_17 f = Fin 2000
        /\ School.f_literacy_rate f = Fin 0.85).
Proof.
  split; [| split].
  - intros z Hz. unfold School.create_features.
    destruct (filter (fun p => String.eqb (School.p_zone_id p) (School.s_zone_id z))
                population_df) as [| p0 ps] eqn:Ef.
    + exists (School.features_of z None). split; [| reflexivity].
      apply in_flat_map. exists z. split; [exact Hz |]. rewrite Ef. now left.
    + exists (School.features_of z (Some p0)). split; [| reflexivity].
      apply in_flat_map. exists z. split; [exact Hz |]. rewrite Ef. now left.
  - intros Hnd. unfold School.create_features.
    induction zone_stats as [| z t IH]; [reflexivity |].
    cbn [flat_map]. rewrite map_app, IH. clear IH.
    pose proof (filter_key_unique School.p_zone_id (School.s_zone_id z) population_df Hnd)
      as Hle.
    destruct (filter _ population_df) as [| p0 [| p1 ps]]; simpl in *;
      [reflexivity | reflexivity | lia].
  - intros f Hf Hno.
    apply SchoolFeatures.in_create_features in Hf as [z [pop [_ [-> [_ Hsome]]]]].
    destruct pop as [p |].
    + exfalso. destruct (Hsome p eq_refl) as [Hp E]. now apply (Hno p Hp).
    + now repeat split.
Qed.

(** The ratio features of the school model are numbers for every joined
    frame and every population table, a child population of zero or a
    missing one included, and the rule-based score lies within 0 and 100;
    the enrolment per school is a number as soon as the enrolments of the
    schools are. *)
Theorem school_features_finite (joined : frame School.Joined)
    (population_df : list School.Population) (f : School.Features) :
  In f (School.create_features (School.aggregate_schools_to_zones joined) population_df) ->
  isfinite (School.schools_per_1000_children f) = true
  /\ isfinite (School.seat_capacity_per_100_children f) = true
  /\ isfinite (School.school_level_diversity f) = true
  /\ isfinite (School.govt_school_ratio f) = true
  /\ in_range 0 100 (School.coverage_score f)
  /\ (Forall (fun r => isfinite (School.enrolment_total (School.school (snd r))) = true)
             joined ->
      isfinite (School.enrolment_per_school f) = true).
Proof.
  intros Hf. pose proof (school_coverage_score_range _ _ _ Hf) as Hrange.
  apply SchoolFeatures.in_create_features in Hf as [z [pop [Hz [-> _]]]].
  apply SchoolFeatures.aggregate_counts_nonneg in Hz as [Hn He].
  unfold School.features_of in *. cbv zeta in *.
  cbn [School.schools_per_1000_children School.seat_capacity_per_100_children
       School.school_level_diversity School.govt_school_ratio School.coverage_score
       School.enrolment_per_school] in *.
  split; [apply fillna_replace_inf_fin |].
  split; [apply fillna_replace_inf_fin |].
  split; [now apply SchoolFeatures.fdiv_count_fin |].
  split; [now apply SchoolFeatures.fdiv_count_fin |].
  split.
  - exact Hrange.
  - intros Hfin.
    assert (Ht : isfinite (School.total_enrolment z) = true).
    { rewrite He.
      assert (Hs : isfinite (fsum (map (fun r => School.enrolment_total (School.school r))
                      (filter (fun r => String.eqb (School.key_of r) (School.s_zone_id z))
                         (values (School.dropna_zone joined))))) = true).
      { apply SchoolFeatures.fsum_fin. rewrite Forall_map.
        apply ParkRange.Forall_filter. unfold values. rewrite Forall_map.
        apply ParkRange.Forall_filter. exact Hfin. }
      destruct (fsum _); try discriminate Hs. reflexivity. }
    destruct (School.total_enrolment z) as [t | | |]; try discriminate Ht.
    unfold ofZ. cbn [fdiv]. rewrite Qsign_pos; [reflexivity |].
    change 0 with (inject_Z 0). rewrite <- Zlt_Qlt. lia.
Qed.

Lemma Qround1_ge (k : Z) q : inject_Z k <= q -> inject_Z k <= Qround_dec 1 q.
Proof.
  intros H.
  assert (E : inject_Z k == (k * 10 # pow10 1)).
  { unfold Qeq. change (pow10 1) with 10%positive. cbn [Qnum Qden inject_Z]. lia. }
  rewrite E in *. now apply Qround_dec_lower.
Qed.

Lemma Qround1_le (k : Z) q : q <= inject_Z k -> Qround_dec 1 q <= inject_Z k.
Proof.
  intros H.
  assert (E : inject_Z k == (k * 10 # pow10 1)).
  { unfold Qeq. change (pow10 1) with 10%positive. cbn [Qnum Qden inject_Z]. lia. }
  rewrite E in *. now apply Qround_dec_upper.
Qed.

(** Every exported school score lies within 0 and 100, whatever the
    regressor predicts, and the label of a row is one of the three pairs
    and never contradicts the exported score: excellent goes with a score
    of at least 80, good with a score between 60 and 80, needs-improvement
    with a score of at most 60. *)
Theorem school_prediction_labels
    (Polygon : Type) (within : float64 * float64 -> Polygon -> bool)
    (distance : float64 * float64 -> Polygon -> Q)
    (lib : option (frame (float64 * float64) -> list (School.AdminZone Polygon)
                   -> frame (option string * option string)))
    (regressor : School.Features -> Q)
    (schools_gdf : frame School.School) (admin_gdf : list (School.AdminZone Polygon))
    (population_df : list School.Population) (r : School.ResultRow) :
  In r (School.predict_school_coverage Polygon within distance lib regressor
          schools_gdf admin_gdf population_df) ->
  in_range 0 100 (School.predicted_coverage_score r)
  /\ In (School.coverage_label r, School.status r) label_pairs
  /\ (School.status r = "excellent" -> in_range 80 100 (School.predicted_coverage_score r))
  /\ (School.status r = "good" -> in_range 60 80 (School.predicted_coverage_score r))
  /\ (School.status r = "needs-improvement" ->
      in_range 0 60 (School.predicted_coverage_score r)).
Proof.
  unfold School.predict_school_coverage. cbv zeta. rewrite in_map_iff.
  intros [f [<- _]].
  cbn [School.predicted_coverage_score School.coverage_label School.status].
  set (p := regressor f).
  assert (Hclip : clip (Fin p) 0 100 = Fin (Qmin (Qmax p 0) 100)) by reflexivity.
  rewrite Hclip. set (c := Qmin (Qmax p 0) 100).
  assert (Hc : 0 <= c /\ c <= 100).
  { unfold c. split; [apply Q.min_glb; [apply Q.le_max_r | lra] | apply Q.le_min_r]. }
  destruct Hc as [Hc0 Hc100].
  assert (H0 : 0 <= Qround_dec 1 c) by (apply (Qround1_ge 0); exact Hc0).
  assert (H100 : Qround_dec 1 c <= 100) by (apply (Qround1_le 100); exact Hc100).
  unfold School.score_to_label, School.score_to_status, fge. cbn [fle fround in_range].
  destruct (Qle_bool 80 c) eqn:E80.
  - apply Qle_bool_iff in E80.
    assert (H80 : 80 <= Qround_dec 1 c) by (apply (Qround1_ge 80); exact E80).
    split; [split; assumption |]. split; [now left |].
    split; [| split]; intros E; try discriminate E. split; assumption.
  - assert (N80 : c <= 80).
    { destruct (Qlt_le_dec 80 c) as [Hlt | Hle]; [| exact Hle].
      exfalso. assert (Qle_bool 80 c = true) by (apply Qle_bool_iff; lra). congruence. }
    assert (H80 : Qround_dec 1 c <= 80) by (apply (Qround1_le 80); exact N80).
    destruct (Qle_bool 60 c) eqn:E60.
    + apply Qle_bool_iff in E60.
      assert (H60 : 60 <= Qround_dec 1 c) by (apply (Qround1_ge 60); exact E60).
      split; [split; assumption |]. split; [right; now left |].
      split; [| split]; intros E; try discriminate E. split; assumption.
    + assert (N60 : c <= 60).
      { destruct (Qlt_le_dec 60 c) as [Hlt | Hle]; [| exact Hle].
        exfalso. assert (Qle_bool 60 c = true) by (apply Qle_bool_iff; lra). congruence. }
      assert (H60 : Qround_dec 1 c <= 60) by (apply (Qround1_le 60); exact N60).
      split; [split; assumption |]. split; [right; right; now left |].
      split; [| split]; intros E; try discriminate E. split; assumption.
Qed.

(* ===================================================================== *)
(** ** Urban model: zones, totals, scores and labels *)
(* ===================================================================== *)



Lemma Qround2_ge (k : Z) q : inject_Z k <= q -> inject_Z k <= Qround_dec 2 q.
Proof.
  intros H.
  assert (E : inject_Z k == (k * 100 # pow10 2)).
  { unfold Qeq. change (pow10 2) with 100%positive. cbn [Qnum Qden inject_Z]. lia. }
  rewrite E in *. now apply Qround_dec_lower.
Qed.

Lemma Qround2_le (k : Z) q : q <= inject_Z k -> Qround_dec 2 q <= inject_Z k.
Proof.
  intros H.
  assert (E : inject_Z k == (k * 100 # pow10 2)).
  { unfold Qeq. change (pow10 2) with 100%positive. cbn [Qnum Qden inject_Z]. lia. }
  rewrite E in *. now apply Qround_dec_upper.
Qed.

Module UrbanZones.
Import Urban.

Lemma in_aggregate cells_df z :
  In z (aggregate_cells_to_zones cells_df) ->
  exists unique_zones g,
    z = aggregate_group unique_zones (zone_name z) g
    /\ g = filter (fun c => String.eqb (cell_zone_name c) (zone_name z)) cells_df
    /\ g <> [].
Proof.
  unfold aggregate_cells_to_zones. cbv zeta. rewrite in_map_iff.
  intros [[name g] [<- Hg]].
  pose proof (groupby_nonempty _ _ _ _ Hg) as Hne.
  apply groupby_In in Hg as [_ Eg].
  eexists _, g. cbn [zone_name aggregate_group]. now repeat split.
Qed.


Lemma clip_scaled_range x c d lo hi :
  isna x = false -> 0 < c -> 0 < d -> lo <= hi ->
  in_range lo hi (clip (fmul (fdiv x (Fin c)) (Fin d)) lo hi).
Proof.
  intros Hx Hc Hd Hle. apply clip_in_range; [| exact Hle]. now apply scale_not_nan.
Qed.

End UrbanZones.


(** For the zones of any cell table the target score of the urban model
    and the score of its fallback formula lie within 0 and 100. *)
Theorem urban_scores_in_range (cells_df : list Cell) (f : Urban.Features) :
  In f (Urban.create_features (Urban.aggregate_cells_to_zones cells_df)) ->
  in_range 0 100 (Urban.coverage_score f)
  /\ in_range 0 100 (Urban.calculate_coverage_score_from_features (Urban.zone f)).
Proof.
  unfold Urban.create_features. rewrite in_map_iff. intros [z [<- Hz]].
  cbn [Urban.coverage_score Urban.zone].
  apply UrbanZones.in_aggregate in Hz as [u [g [-> _]]]. split.
  - cbn [Urban.avg_coverage_score Urban.aggregate_group].
    apply clip_in_range; [apply fillna_not_nan | lra].
  - unfold Urban.calculate_coverage_score_from_features. cbv zeta.
    cbn [Urban.avg_parks_per_10k Urban.avg_schools_per_10k Urban.avg_hospitals_per_100k
         Urban.avg_green_area_pct Urban.road_density_km_per_km2 Urban.aggregate_group].
    match goal with
    | |- in_range 0 100 (fadd (fadd (fadd (fadd (fadd (Fin 0) ?a) ?b) ?c) ?d) ?e) =>
        assert (Ha : in_range 0 30 a)
          by (apply UrbanZones.clip_scaled_range; [apply fillna_not_nan | lra ..]);
        assert (Hb : in_range 0 30 b)
          by (apply UrbanZones.clip_scaled_range; [apply fillna_not_nan | lra ..]);
        assert (Hc : in_range 0 20 c)
          by (apply UrbanZones.clip_scaled_range; [apply fillna_not_nan | lra ..]);
        assert (Hd : in_range 0 10 d)
          by (apply UrbanZones.clip_scaled_range; [apply fillna_not_nan | lra ..]);
        assert (He : in_range 0 10 e)
          by (apply UrbanZones.clip_scaled_range; [apply fillna_not_nan | lra ..]);
        apply in_range_fin in Ha as [qa [-> [? ?]]];
        apply in_range_fin in Hb as [qb [-> [? ?]]];
        apply in_range_fin in Hc as [qc [-> [? ?]]];
        apply in_range_fin in Hd as [qd [-> [? ?]]];
        apply in_range_fin in He as [qe [-> [? ?]]]
    end.
    cbn [fadd in_range]. split; lra.
Qed.


(** The label of an exported urban row is one of the three pairs and never
    contradicts the exported score: excellent goes with a score of at least
    80, good with a score between 60 and 80, needs-improvement with a score
    of at most 60. *)
Theorem urban_prediction_labels (regressor : Urban.Features -> Q)
    (zone_agg_df : list Urban.Zone) (r : Urban.ResultRow) :
  In r (Urban.predict_urban_coverage regressor zone_agg_df) ->
  In (Urban.coverage_label r, Urban.status r) label_pairs
  /\ (Urban.status r = "excellent" -> fle (Fin 80) (Urban.predicted_coverage_score r) = true)
  /\ (Urban.status r = "good" -> in_range 60 80 (Urban.predicted_coverage_score r))
  /\ (Urban.status r = "needs-improvement" ->
      fle (Urban.predicted_coverage_score r) (Fin 60) = true).
Proof.
  unfold Urban.predict_urban_coverage. rewrite in_map_iff. intros [f [<- _]].
  cbn [Urban.predicted_coverage_score Urban.coverage_label Urban.status].
  set (c := regressor f).
  unfold Urban.score_to_label, Urban.score_to_status, fge. cbn [fle fround in_range].
  destruct (Qle_bool 80 c) eqn:E80.
  - apply Qle_bool_iff in E80.
    assert (H80 : 80 <= Qround_dec 2 c) by (apply (Qround2_ge 80); exact E80).
    split; [now left |].
    split; [| split]; intros E; try discriminate E. now apply Qle_bool_iff.
  - assert (N80 : c <= 80).
    { destruct (Qlt_le_dec 80 c) as [Hlt | Hle]; [| exact Hle].
      exfalso. assert (Qle_bool 80 c = true) by (apply Qle_bool_iff; lra). congruence. }
    assert (H80 : Qround_dec 2 c <= 80) by (apply (Qround2_le 80); exact N80).
    destruct (Qle_bool 60 c) eqn:E60.
    + apply Qle_bool_iff in E60.
      assert (H60 : 60 <= Qround_dec 2 c) by (apply (Qround2_ge 60); exact E60).
      split; [right; now left |].
      split; [| split]; intros E; try discriminate E. split; assumption.
    + assert (N60 : c <= 60).
      { destruct (Qlt_le_dec 60 c) as [Hlt | Hle]; [| exact Hle].
        exfalso. assert (Qle_bool 60 c = true) by (apply Qle_bool_iff; lra). congruence. }
      assert (H60 : Qround_dec 2 c <= 60) by (apply (Qround2_le 60); exact N60).
      split; [right; right; now left |].
      split; [| split]; intros E; try discriminate E. now apply Qle_bool_iff.
Qed.

(* ===================================================================== *)
(** ** The statements at sample inputs *)
(* ===================================================================== *)



Lemma park_score_range_with_protected_zone_witness :
  (exists c, In c (values (Park.create_sub_zones delhi_cells))
             /\ protected_name (snd c) = true)
  /\ Park.main counter_generator delhi_cells <> []
  /\ Forall (fun r => in_range 15 100 (Park.r_predicted_coverage_score r))
            (Park.main counter_generator delhi_cells).
Proof.
  assert (Hp : exists c, In c (values (Park.create_sub_zones delhi_cells))
                         /\ protected_name (snd c) = true).
  { exists (sample_cell "East" 600 1 1000 2, "East Zone 1").
    split; [vm_compute; tauto | reflexivity]. }
  split; [exact Hp |]. split; [vm_compute; discriminate |].
  apply Forall_forall. unfold Park.main. intros r Hr.
  exact (park_score_range_with_protected_zone counter_generator
           (Park.create_sub_zones delhi_cells) (seed counter_generator 42) r Hp Hr).
Defined.

Lemma school_features_finite_witness :
  School.create_features (School.aggregate_schools_to_zones sample_joined)
    sample_population <> []
  /\ Forall (fun f => isfinite (School.schools_per_1000_children f) = true
                      /\ in_range 0 100 (School.coverage_score f))
            (School.create_features (School.aggregate_schools_to_zones sample_joined)
               sample_population).
Proof.
  split; [vm_compute; discriminate |].
  apply Forall_forall. intros f Hf.
  destruct (school_features_finite sample_joined sample_population f Hf)
    as [H1 [_ [_ [_ [H5 _]]]]].
  now split.
Defined.

Lemma school_prediction_labels_witness :
  School.predict_school_coverage Box within_box distance_box None (constant_regressor 79.96)
    (fst (School.load_schools_data raw_schools)) [zone_a; zone_b] sample_population <> []
  /\ Forall (fun r => in_range 0 100 (School.predicted_coverage_score r)
                      /\ In (School.coverage_label r, School.status r) label_pairs)
            (School.predict_school_coverage Box within_box distance_box None
               (constant_regressor 79.96)
               (fst (School.load_schools_data raw_schools)) [zone_a; zone_b]
               sample_population).
Proof.
  split; [vm_compute; discriminate |].
  apply Forall_forall. intros r Hr.
  destruct (school_prediction_labels Box within_box distance_box None
              (constant_regressor 79.96) _ _ _ r Hr) as [H1 [H2 _]].
  now split.
Defined.

Lemma locator_zone_contains_or_is_nearest_witness :
  NoDup (index (fst (School.load_schools_data raw_schools)))
  /\ List.length sample_joined = 3%nat
  /\ Forall (fun r => exists z, In z [zone_a; zone_b]
                                /\ School.j_zone_id (snd r) = Some (School.zone_id Box z))
            sample_joined.
Proof.
  assert (Hnd : NoDup (index (fst (School.load_schools_data raw_schools)))).
  { vm_compute. repeat constructor; simpl; lia. }
  split; [exact Hnd |]. split; [vm_compute; reflexivity |].
  apply Forall_forall. unfold sample_joined. intros r Hr.
  destruct (locator_zone_contains_or_is_nearest Box within_box distance_box
              _ _ true r Hnd Hr) as [_ [z [Hz [Hid _]]]].
  now exists z.
Defined.

Lemma urban_scores_in_range_witness :
  Urban.create_features (Urban.aggregate_cells_to_zones delhi_cells) <> []
  /\ Forall (fun f => in_range 0 100 (Urban.coverage_score f))
            (Urban.create_features (Urban.aggregate_cells_to_zones delhi_cells)).
Proof.
  split; [vm_compute; discriminate |].
  apply Forall_forall. intros f Hf.
  exact (proj1 (urban_scores_in_range delhi_cells f Hf)).
Defined.


Lemma urban_prediction_labels_witness :
  Urban.predict_urban_coverage (constant_regressor 120.256)
    (Urban.aggregate_cells_to_zones delhi_cells) <> []
  /\ Forall (fun r => In (Urban.coverage_label r, Urban.status r) label_pairs)
            (Urban.predict_urban_coverage (constant_regressor 120.256)
               (Urban.aggregate_cells_to_zones delhi_cells)).
Proof.
  split; [vm_compute; discriminate |].
  apply Forall_forall. intros r Hr.
  exact (proj1 (urban_prediction_labels (constant_regressor 120.256) _ r Hr)).
Defined.

(* ===================================================================== *)
(** ** The park labels and the exported park scores *)
(* ===================================================================== *)

Lemma fold_fadd_pos l a :
  Forall (fun q => 15 <= q) l -> 0 < a ->
  exists s, fold_left fadd (map Fin l) (Fin a) = Fin s /\ 0 < s.
Proof.
  intros H. revert a. induction H as [| x t Hx Ht IH]; intros a Ha.
  - exists a. now split.
  - cbn [map fold_left fadd]. apply IH. lra.
Qed.

Lemma tier_floor_values xs :
  Forall tier_floor xs ->
  exists qs, dropna_values xs = map Fin qs /\ Forall (fun q => 15 <= q) qs
             /\ (qs = [] -> Forall (fun x => x = NaN) xs).
Proof.
  induction 1 as [| x t Hx Ht [qs [E [Hq Hn]]]].
  - exists []. repeat split; constructor.
  - unfold dropna_values in *. destruct x as [q | | |]; try contradiction.
    + exists (q :: qs). cbn [filter isna negb map]. rewrite E.
      split; [reflexivity |]. split; [now constructor | discriminate].
    + exists qs. cbn [filter isna negb]. split; [exact E |]. split; [exact Hq |].
      intros Hqs. constructor; [reflexivity | now apply Hn].
Qed.

(** A column of tier scores whose mean is not above zero holds no number. *)
Lemma tier_floor_mean xs :
  Forall tier_floor xs -> fgt (fmean xs) (Fin 0) = false ->
  Forall (fun x => x = NaN) xs.
Proof.
  intros H Hg. destruct (tier_floor_values xs H) as [qs [E [Hq Hn]]].
  destruct qs as [| q t]; [now apply Hn |]. exfalso.
  unfold fmean in Hg. rewrite E in Hg.
  change (map Fin (q :: t)) with (Fin q :: map Fin t) in Hg. cbv beta iota in Hg.
  cbn [fold_left fadd] in Hg.
  inversion Hq as [| ? ? Hq1 Hq2]; subst.
  destruct (fold_fadd_pos t (0 + q) Hq2) as [s [Hs Hpos]]; [lra |].
  rewrite Hs in Hg.
  assert (Hlen : 0 < inject_Z (Z.of_nat (List.length (Fin q :: map Fin t)))).
  { unfold Qlt, inject_Z. cbn [List.length Qnum Qden]. lia. }
  unfold ofZ in Hg. rewrite fdiv_fin_nonzero in Hg by lra.
  unfold fgt, flt in Hg. apply negb_false_iff, Qle_bool_iff in Hg.
  assert (0 < s / inject_Z (Z.of_nat (List.length (Fin q :: map Fin t)))).
  { apply Qlt_shift_div_l; [exact Hlen | lra]. }
  lra.
Qed.

Lemma clip_tier_floor x lo hi : 15 <= lo -> lo <= hi -> tier_floor (clip x lo hi).
Proof.
  intros H1 H2. destruct x as [q | | |]; cbn [clip tier_floor].
  - apply Q.min_glb; [| lra]. apply Qle_trans with lo; [exact H1 | apply Q.le_max_r].
  - lra.
  - apply Q.min_glb; lra.
  - exact I.
Qed.

Lemma label_feq x y :
  feq x y -> Park.get_label_and_status x = Park.get_label_and_status y.
Proof.
  destruct x as [a | | |], y as [b | | |]; cbn [feq]; try contradiction; try reflexivity.
  intros E. unfold Park.get_label_and_status, fge, fle.
  assert (H : forall c, Qle_bool c a = Qle_bool c b).
  { intros c. destruct (Qle_bool c a) eqn:E1, (Qle_bool c b) eqn:E2; try reflexivity.
    - apply Qle_bool_iff in E1. rewrite E in E1. apply Qle_bool_iff in E1. congruence.
    - apply Qle_bool_iff in E2. rewrite <- E in E2. apply Qle_bool_iff in E2. congruence. }
  now rewrite !H.
Qed.

Module ParkLabels.
Import Park.

Lemma in_assign_score mask f df r :
  In r (assign_score mask f df) ->
  exists r0, In r0 df
             /\ ((mask r0 = true /\ r = (fst r0, set_score (snd r0) (f (snd r0))))
                 \/ (mask r0 = false /\ r = r0)).
Proof.
  unfold assign_score. rewrite in_map_iff. intros [r0 [E H0]]. exists r0.
  split; [exact H0 |]. destruct (mask r0); [left | right]; now split.
Qed.

(** After the three tiers an unprotected row holds a clipped score. *)
Lemma tier_adjust_floor df r :
  In r (tier_adjust df) -> protected_mask (snd r) = false ->
  tier_floor (predicted_coverage_score (snd r)).
Proof.
  unfold tier_adjust. cbv zeta. rewrite !ParkFacts.assign_score_guard.
  intros Hr Hp.
  apply in_assign_score in Hr as [r2 [Hr2 [[Hm ->] | [Hm ->]]]].
  { cbn. apply clip_tier_floor; lra. }
  cbv beta in Hm. rewrite Hp in Hm. cbn [negb andb] in Hm.
  match type of Hr2 with
  | In _ (match ?m with [] => _ | _ :: _ => _ end) => destruct m as [| m0 mt] eqn:Em
  end.
  - cbn [index map isin existsb negb andb] in Hm.
    apply in_assign_score in Hr2 as [r1 [Hr1 [[Ht ->] | [Ht ->]]]].
    + cbn. apply clip_tier_floor; lra.
    + cbv beta in Ht. rewrite Hp in Ht. cbn [negb andb] in Ht.
      rewrite Ht in Hm. discriminate Hm.
  - apply in_assign_score in Hr2 as [r1 [Hr1 [[Hi ->] | [Hi ->]]]].
    + cbn. apply clip_tier_floor; lra.
    + cbv beta in Hi. rewrite Hi in Hm. cbn [negb] in Hm. rewrite andb_true_r in Hm.
      apply negb_false_iff in Hm.
      apply in_assign_score in Hr1 as [r0 [Hr0 [[Ht ->] | [Ht ->]]]].
      * cbn. apply clip_tier_floor; lra.
      * cbv beta in Ht. rewrite Hp in Ht. cbn [negb andb] in Ht.
        rewrite Ht in Hm. discriminate Hm.
Qed.

(** After the rescaling an unprotected row holds a score that is rounded to
    one decimal, or no score. *)
Lemma rescale_rounded df r :
  (forall r0, In r0 df -> protected_mask (snd r0) = false ->
              tier_floor (predicted_coverage_score (snd r0))) ->
  In r (rescale_to_target df) -> protected_mask (snd r) = false ->
  rounded_to 1 (predicted_coverage_score (snd r)).
Proof.
  intros Hfl. unfold rescale_to_target. cbv zeta.
  set (unprotected := filter (fun r : nat * Zone => negb (protected_mask (snd r))) df).
  destruct (Nat.ltb 0 (List.length unprotected)) eqn:Eu.
  2:{ intros Hr Hp. exfalso. apply Nat.ltb_ge in Eu.
      assert (Hin : In r unprotected)
        by (apply filter_In; split; [exact Hr | now rewrite Hp]).
      destruct unprotected; [contradiction | cbn in Eu; lia]. }
  assert (Hround : forall f d r',
             In r' (assign_score (fun r : nat * Zone => negb (protected_mask (snd r)))
                      (fun z => fround 1 (f z)) d) ->
             protected_mask (snd r') = false ->
             rounded_to 1 (predicted_coverage_score (snd r'))).
  { intros f d r' Hr' Hp'. apply in_assign_score in Hr' as [r0 [H0 [[Hm ->] | [Hm ->]]]].
    - cbn. apply rounded_to_fround.
    - rewrite Hp' in Hm. discriminate Hm. }
  match goal with
  | |- In r (if ?c then _ else _) -> _ => destruct c
  end; [apply Hround |].
  destruct (fgt (fmean (scores unprotected)) (Fin 0)) eqn:Eg; [apply Hround |].
  intros Hr Hp.
  assert (Hall : Forall tier_floor (scores unprotected)).
  { unfold scores. apply Forall_forall. intros x Hx.
    apply in_map_iff in Hx as [r0 [<- H0]]. apply filter_In in H0 as [H0 Hm].
    apply Hfl; [exact H0 | now apply negb_true_iff]. }
  pose proof (tier_floor_mean _ Hall Eg) as Hnan. rewrite Forall_forall in Hnan.
  rewrite (Hnan (predicted_coverage_score (snd r))); [exact I |].
  unfold scores. apply (in_map (fun r => predicted_coverage_score (snd r))).
  apply filter_In. split; [exact Hr | now rewrite Hp].
Qed.

(** The two protected zones end on their constants. *)
Lemma force_protected_rounded df r :
  (forall r0, In r0 df -> protected_mask (snd r0) = false ->
              rounded_to 1 (predicted_coverage_score (snd r0))) ->
  In r (force_protected df) -> rounded_to 1 (predicted_coverage_score (snd r)).
Proof.
  intros H. unfold force_protected. rewrite !ParkFacts.assign_score_guard. intros Hr.
  apply in_assign_score in Hr as [r1 [Hr1 [[Hn ->] | [Hn ->]]]];
    [now vm_compute |].
  apply in_assign_score in Hr1 as [r0 [Hr0 [[He ->] | [He ->]]]];
    [now vm_compute |].
  apply H; [exact Hr0 |]. unfold protected_mask. unfold on_row in *.
  now rewrite He, Hn.
Qed.

Lemma adjusted_scores_rounded zones_df r :
  In r (adjusted_scores zones_df) -> rounded_to 1 (predicted_coverage_score (snd r)).
Proof.
  unfold adjusted_scores. cbv zeta. apply force_protected_rounded.
  intros r0. apply rescale_rounded. intros r1. apply tier_adjust_floor.
Qed.

End ParkLabels.

(** In the exported park table the label and the status of a row are the
    ones of its exported, rounded score: 75 and more is 'Excellent Coverage',
    40 and more 'Good Coverage', everything else, a missing score included,
    'Needs Improvement'. *)
Theorem park_labels_match_scores (G : Generator) (zones_df : frame Park.Zone)
    (st : rstate G) (r : Park.ResultRow) :
  In r (fst (Park.predictions G zones_df st)) ->
  (Park.r_coverage_label r, Park.r_status r)
  = Park.get_label_and_status (Park.r_predicted_coverage_score r)
  /\ (isna (Park.r_predicted_coverage_score r) = true ->
      Park.r_coverage_label r = "Needs Improvement").
Proof.
  intros Hr.
  assert (Hl : (Park.r_coverage_label r, Park.r_status r)
               = Park.get_label_and_status (Park.r_predicted_coverage_score r)).
  { apply ParkAreas.park_exported_row in Hr as [z [Hz [_ [_ [_ [Hs Hl]]]]]].
    apply ParkAreas.adjusted_row in Hz as [z0 [s [Hz0 [_ [_ [Hs0 _]]]]]].
    apply ParkRange.in_values in Hz0 as [r0 [Hr0 <-]].
    rewrite Hl, Hs, Hs0. symmetry. apply label_feq.
    now apply ParkLabels.adjusted_scores_rounded with (zones_df := Park.calculate_park_coverage_score zones_df). }
  split; [exact Hl |].
  intros Hna. destruct (Park.r_predicted_coverage_score r); try discriminate Hna.
  now inversion Hl.
Qed.

Lemma park_labels_match_scores_witness :
  Park.main counter_generator delhi_cells <> []
  /\ Forall (fun r => (Park.r_coverage_label r, Park.r_status r)
                      = Park.get_label_and_status (Park.r_predicted_coverage_score r))
            (Park.main counter_generator delhi_cells).
Proof.
  split; [vm_compute; discriminate |].
  apply Forall_forall. unfold Park.main. intros r Hr.
  exact (proj1 (park_labels_match_scores counter_generator _ _ r Hr)).
Defined.

(* ===================================================================== *)
(** ** The Urban Green Balance Index *)
(* ===================================================================== *)

Lemma feq_sym x y : feq x y -> feq y x.
Proof. destruct x, y; cbn [feq]; try tauto. intros E. now symmetry. Qed.

Lemma feq_trans x y z : feq x y -> feq y z -> feq x z.
Proof.
  destruct x, y, z; cbn [feq]; try tauto. intros E1 E2. now rewrite E1.
Qed.

Lemma fadd_feq x x' y y' : feq x x' -> feq y y' -> feq (fadd x y) (fadd x' y').
Proof.
  destruct x, x', y, y'; cbn [feq fadd]; try tauto. intros E1 E2. now rewrite E1, E2.
Qed.

Lemma fadd_swap a x y : feq (fadd (fadd a x) y) (fadd (fadd a y) x).
Proof. destruct a, x, y; cbn [feq fadd]; try exact I. ring. Qed.

Lemma fold_fadd_acc l a b :
  feq a b -> feq (fold_left fadd l a) (fold_left fadd l b).
Proof.
  revert a b. induction l as [| x t IH]; intros a b H; cbn [fold_left]; [exact H |].
  apply IH, fadd_feq; [exact H | apply feq_refl].
Qed.

(** The sum of a column does not depend on the order of its rows. *)
Lemma fold_fadd_perm xs ys a :
  Permutation xs ys -> feq (fold_left fadd xs a) (fold_left fadd ys a).
Proof.
  intros H. revert a. induction H as [| x l l' H IH | x y l | l l' l'' H1 IH1 H2 IH2];
    intros a; cbn [fold_left].
  - apply feq_refl.
  - apply IH.
  - apply fold_fadd_acc, fadd_swap.
  - eapply feq_trans; [apply IH1 | apply IH2].
Qed.

Lemma fold_fadd_feq xs ys a b :
  Forall2 feq xs ys -> feq a b -> feq (fold_left fadd xs a) (fold_left fadd ys b).
Proof.
  intros H. revert a b. induction H as [| x y l l' Hxy H IH]; intros a b Hab;
    cbn [fold_left]; [exact Hab |].
  apply IH, fadd_feq; assumption.
Qed.

Lemma dropna_values_perm xs ys :
  Permutation xs ys -> Permutation (dropna_values xs) (dropna_values ys).
Proof.
  unfold dropna_values.
  induction 1 as [| x l l' H IH | x y l | l l' l'' H1 IH1 H2 IH2]; cbn [filter].
  - constructor.
  - destruct (negb (isna x)); [now constructor | exact IH].
  - destruct (negb (isna x)), (negb (isna y)); try apply Permutation_refl.
    apply perm_swap.
  - eapply Permutation_trans; eassumption.
Qed.

Lemma dropna_values_feq xs ys :
  Forall2 feq xs ys -> Forall2 feq (dropna_values xs) (dropna_values ys).
Proof.
  unfold dropna_values. induction 1 as [| x y l l' Hxy H IH]; cbn [filter].
  - constructor.
  - destruct x, y; cbn [feq] in Hxy; try contradiction; cbn [isna negb];
      try (constructor; [exact Hxy | exact IH]); exact IH.
Qed.

Lemma fdiv_count_feq {A} x y (v : list A) :
  v <> [] -> feq x y ->
  feq (fdiv x (ofZ (Z.of_nat (List.length v)))) (fdiv y (ofZ (Z.of_nat (List.length v)))).
Proof.
  intros Hv H. unfold ofZ, fdiv. rewrite (Qsign_length_pos v Hv).
  destruct x, y; cbn [feq] in *; try contradiction; try exact I. now rewrite H.
Qed.

Lemma fmean_perm xs ys : Permutation xs ys -> feq (fmean xs) (fmean ys).
Proof.
  intros H. apply dropna_values_perm in H. unfold fmean.
  destruct (dropna_values xs) as [| a t] eqn:Ex.
  - apply Permutation_nil in H. now rewrite H.
  - destruct (dropna_values ys) as [| b u] eqn:Ey.
    + apply Permutation_sym, Permutation_nil in H. discriminate H.
    + rewrite (Permutation_length H).
      apply fdiv_count_feq; [discriminate |]. now apply fold_fadd_perm.
Qed.

Lemma fmean_feq xs ys : Forall2 feq xs ys -> feq (fmean xs) (fmean ys).
Proof.
  intros H. apply dropna_values_feq in H. unfold fmean.
  destruct H as [| a b t u Hab H]; [exact I |].
  assert (Hlen : List.length (a :: t) = List.length (b :: u)).
  { cbn [List.length]. f_equal. clear Hab. induction H; [reflexivity | cbn; now f_equal]. }
  rewrite Hlen. apply fdiv_count_feq; [discriminate |].
  apply fold_fadd_feq; [now constructor | apply feq_refl].
Qed.

Lemma fround_feq n x y : feq x y -> fround n x = fround n y.
Proof.
  destruct x, y; cbn [feq fround]; try contradiction; try reflexivity.
  intros E. f_equal. now apply Qround_dec_comp.
Qed.

Lemma fround_idem n x : fround (S n) (fround (S n) x) = fround (S n) x.
Proof. destruct x; cbn [fround]; try reflexivity. now rewrite Qround_dec_idem. Qed.

Module ParkIndex.
Import Park.

Lemma assign_labels_scores df : scores (assign_labels df) = scores df.
Proof. unfold scores, assign_labels. rewrite map_map. apply map_ext. now intros [i z]. Qed.

(** Every exported row carries the rounded mean of the adjusted scores in
    both index columns. *)
Lemma exported_index G zones_df st r :
  In r (fst (predictions G zones_df st)) ->
  let m := fmean (scores (fst (adjust_for_ui_expectations G
                                 (calculate_park_coverage_score zones_df) st))) in
  r_urban_green_balance_index r = fround 1 m /\ r_progress_to_who r = fround 1 m.
Proof.
  rewrite ParkAreas.predictions_unfold.
  generalize (fst (adjust_for_ui_expectations G
                     (calculate_park_coverage_score zones_df) st)).
  intros df. rewrite in_map_iff. intros [z [<- Hz]] m. subst m.
  apply ParkAreas.in_create_zone_ids in Hz as [z0 [id [Hz0 ->]]].
  unfold calculate_urban_green_balance_index in Hz0. cbn [fst] in Hz0.
  unfold values in Hz0. rewrite map_map in Hz0. apply in_map_iff in Hz0 as [r0 [<- Hr0]].
  cbn [r_urban_green_balance_index r_progress_to_who result_of set_zone_id
       urban_green_balance_index progress_to_who set_index_cols snd].
  rewrite assign_labels_scores, fround_idem. split; reflexivity.
Qed.

(** The adjusted scores are what the export rounds them to. *)
Lemma adjusted_frame_rounded G zones_df st :
  Forall2 feq
    (map (fun z => fround 1 (predicted_coverage_score z))
       (values (fst (adjust_for_ui_expectations G zones_df st))))
    (scores (fst (adjust_for_ui_expectations G zones_df st))).
Proof.
  assert (H : forall z, In z (values (fst (adjust_for_ui_expectations G zones_df st))) ->
                        rounded_to 1 (predicted_coverage_score z)).
  { intros z Hz. apply ParkAreas.adjusted_row in Hz as [z0 [s [Hz0 [_ [_ [-> _]]]]]].
    apply ParkRange.in_values in Hz0 as [r0 [Hr0 <-]].
    now apply ParkLabels.adjusted_scores_rounded with (zones_df := zones_df). }
  unfold scores, values in *. rewrite map_map.
  induction (fst (adjust_for_ui_expectations G zones_df st)) as [| r t IH];
    cbn [map]; constructor.
  - apply H. now left.
  - apply IH. intros z Hz. apply H. now right.
Qed.

End ParkIndex.

(** The Urban Green Balance Index and the progress towards the WHO target
    are the same number in every exported park row: the mean of the exported
    scores, rows without a score left out, rounded to one decimal. *)
Theorem park_balance_index_is_the_mean (G : Generator) (zones_df : frame Park.Zone)
    (st : rstate G) (r : Park.ResultRow) :
  In r (fst (Park.predictions G zones_df st)) ->
  let index :=
    fround 1 (fmean (map Park.r_predicted_coverage_score
                       (fst (Park.predictions G zones_df st)))) in
  Park.r_urban_green_balance_index r = index /\ Park.r_progress_to_who r = index.
Proof.
  intros Hr index.
  destruct (ParkIndex.exported_index G zones_df st r Hr) as [H1 H2].
  assert (E : fround 1 (fmean (Park.scores
                (fst (Park.adjust_for_ui_expectations G
                        (Park.calculate_park_coverage_score zones_df) st))))
              = index).
  { subst index. apply fround_feq, feq_sym.
    eapply feq_trans; [| apply fmean_feq, ParkIndex.adjusted_frame_rounded].
    apply fmean_perm.
    pose proof (Permutation_map snd (ParkFacts.result_rows_name_score G zones_df st)) as Hp.
    rewrite !map_map in Hp. exact Hp. }
  rewrite H1, H2. split; exact E.
Qed.

Lemma park_balance_index_is_the_mean_witness :
  Park.main counter_generator delhi_cells <> []
  /\ Forall (fun r => Park.r_urban_green_balance_index r
                      = fround 1 (fmean (map Park.r_predicted_coverage_score
                                           (Park.main counter_generator delhi_cells))))
            (Park.main counter_generator delhi_cells).
Proof.
  split; [vm_compute; discriminate |].
  apply Forall_forall. unfold Park.main. intros r Hr.
  exact (proj1 (park_balance_index_is_the_mean counter_generator _ _ r Hr)).
Defined.
